(** * wtrc: the forecast acquisition pipeline of libweather

    A shallow embedding of the C sources of wtrc (libutils.c, libnet.c,
    libweather.c, libweather_locations.h, libweather_cache.c,
    libweather_tiempo.c and wtrc.c) and the properties of the location
    directory, the day-partitioned cache, the document parser, the
    acquisition orchestrator and the two commands of the program.

    Conventions of the embedding.
    - A [gchar *] that is not NULL is a [string]: the bytes of the buffer
      up to its allocated end.  Where C reads it as a NUL-terminated
      string the model says so with [cstr], [strlen] and [deref].
    - A pointer that may be NULL is an [option].
    - A function that may dereference NULL returns an [outcome]; a
      function that also touches the file system, the network or stderr
      runs in the monad [M] over a [world].
    - A struct obtained from [g_malloc] starts with every field
      [Indeterminate]; an assignment makes the field [Stored].
    - What the program prints is the list of its calls of [printf]; a
      function that prints runs in the monad [IO] over a [process]. *)

From Stdlib Require Import ZArith List Ascii String Lia.
From Stdlib Require Import SpecFloat.
From stdpp Require Import base option list strings gmap.

Local Open Scope string_scope.
Local Open Scope Z_scope.

(* ================================================================== *)
(** * Part I: the embedding                                            *)
(* ================================================================== *)

(** ** C characters and strings *)

Module C.

Definition NUL : ascii := Ascii.zero.

(** [code c] is the value of [(unsigned char) c]. *)
Definition code (c : ascii) : Z := Z.of_N (N_of_ascii c).

(** [isspace] in the "C" locale: space, \t, \n, \v, \f, \r. *)
Definition isspace (c : ascii) : bool :=
  (code c =? 32) || ((9 <=? code c) && (code c <=? 13)).

(** [isdigit] / [g_ascii_isdigit]. *)
Definition isdigit (c : ascii) : bool :=
  (48 <=? code c) && (code c <=? 57).

Definition islower (c : ascii) : bool :=
  (97 <=? code c) && (code c <=? 122).

(** [toupper] on one byte: a..z lose 32, every other byte is kept. *)
Definition toupper (c : ascii) : ascii :=
  if islower c then ascii_of_N (Z.to_N (code c - 32)) else c.

(** [*s]: the first byte of the buffer, the terminator when the
    buffer is exhausted. *)
Definition deref (s : string) : ascii :=
  match s with
  | EmptyString => NUL
  | String c _ => c
  end.

(** [s + 1]. *)
Definition next (s : string) : string :=
  match s with
  | EmptyString => EmptyString
  | String _ s' => s'
  end.

(** The C string a buffer denotes: its bytes before the first NUL. *)
Fixpoint cstr (s : string) : string :=
  match s with
  | EmptyString => EmptyString
  | String c s' => if Ascii.eqb c NUL then EmptyString else String c (cstr s')
  end.

Definition strlen (s : string) : nat := String.length (cstr s).

(** The first [n] bytes of a buffer. *)
Fixpoint take (n : nat) (s : string) : string :=
  match n, s with
  | S n', String c s' => String c (take n' s')
  | _, _ => EmptyString
  end.

(** [g_snprintf (buf, n, ...)]: the formatted text [s], cut to the
    [n - 1] bytes that fit before the terminator. *)
Definition g_snprintf (n : nat) (s : string) : string := take (Nat.pred n) s.

(** [strcmp (a, b) == 0]. *)
Definition streq (a b : string) : bool := String.eqb (cstr a) (cstr b).

(** [g_strcmp0 (a, b) == 0]: NULL-safe comparison, NULL equal to NULL
    only. *)
Definition g_strcmp0_eq (a b : option string) : bool :=
  match a, b with
  | None, None => true
  | Some x, Some y => streq x y
  | _, _ => false
  end.

(** [prefix p s]: [p] is an initial segment of [s]. *)
Fixpoint prefix (p s : string) : bool :=
  match p, s with
  | EmptyString, _ => true
  | String a p', String b s' => Ascii.eqb a b && prefix p' s'
  | String _ _, EmptyString => false
  end.

(** [strstr (hay, needle) != NULL]. *)
Fixpoint strstr_found (hay needle : string) : bool :=
  prefix needle hay ||
  match hay with
  | EmptyString => false
  | String _ hay' => strstr_found hay' needle
  end.

Definition strstr (hay needle : string) : bool :=
  strstr_found (cstr hay) (cstr needle).

(** The characters beyond ASCII whose upper case in Unicode is made of
    ASCII letters, read in their UTF-8 bytes: of two bytes U+00DF
    (sharp s), U+0131 (dotless i) and U+017F (long s); of three bytes
    the ligatures U+FB00 .. U+FB06 (ff, fi, fl, ffi, ffl, long s t,
    st). *)
Definition upper_of_two (c c1 : ascii) : option string :=
  if (code c =? 195) && (code c1 =? 159) then Some "SS"
  else if (code c =? 196) && (code c1 =? 177) then Some "I"
  else if (code c =? 197) && (code c1 =? 191) then Some "S"
  else None.

Definition upper_of_three (c c1 c2 : ascii) : option string :=
  if (code c =? 239) && (code c1 =? 172) then
    if code c2 =? 128 then Some "FF"
    else if code c2 =? 129 then Some "FI"
    else if code c2 =? 130 then Some "FL"
    else if code c2 =? 131 then Some "FFI"
    else if code c2 =? 132 then Some "FFL"
    else if (code c2 =? 133) || (code c2 =? 134) then Some "ST"
    else None
  else None.

(** [g_utf8_strup (s, -1)] with no locale set (the program never calls
    [setlocale]): the text up to its terminator, each character
    replaced by its upper case in Unicode.  The program compares the
    result with the names and codes of the registry, which are ASCII;
    for such a comparison the model keeps what it can see: a..z are
    upper-cased, the ten characters of [upper_of_two] and
    [upper_of_three] become their ASCII letters, and any other
    character beyond ASCII, whose upper case has a byte beyond ASCII as
    the character itself has, stays as it is.  The text is taken to be
    UTF-8, as glib requires. *)
Fixpoint g_utf8_strup (s : string) : string :=
  match s with
  | EmptyString => EmptyString
  | String c s1 =>
      if Ascii.eqb c NUL then EmptyString
      else
        match s1 with
        | String c1 s2 =>
            match upper_of_two c c1 with
            | Some upper => upper +:+ g_utf8_strup s2
            | None =>
                match s2 with
                | String c2 s3 =>
                    match upper_of_three c c1 c2 with
                    | Some upper => upper +:+ g_utf8_strup s3
                    | None => String (toupper c) (g_utf8_strup s1)
                    end
                | EmptyString => String (toupper c) (g_utf8_strup s1)
                end
            end
        | EmptyString => String (toupper c) (g_utf8_strup s1)
        end
  end.

End C.

(** ** Outcomes: a value, or a fault of the C abstract machine *)

Inductive fault : Type :=
| NullDereference      (* a read through a NULL pointer *)
| IndeterminateRead.   (* a read of a field that was never assigned *)

(** A fault is where the model stops following the program.  After a
    read through NULL the program is gone; after a read of a field that
    was never assigned it goes on with whatever the memory held, which
    the model does not say: of such a run it keeps that the read
    happened, and what came before it. *)

Inductive outcome (A : Type) : Type :=
| Ret (a : A)
| Crash (f : fault).
Arguments Ret {A} a.
Arguments Crash {A} f.

#[global] Instance outcome_ret : MRet outcome := fun A a => Ret a.
#[global] Instance outcome_bind : MBind outcome := fun A B k x =>
  match x with
  | Ret a => k a
  | Crash f => Crash f
  end.

#[global] Instance outcome_fmap : FMap outcome := fun A B g x =>
  match x with
  | Ret a => Ret (g a)
  | Crash f => Crash f
  end.

(** A field of a freshly allocated struct. *)
Inductive cell (A : Type) : Type :=
| Indeterminate
| Stored (a : A).
Arguments Indeterminate {A}.
Arguments Stored {A} a.

Definition read {A} (c : cell A) : outcome A :=
  match c with
  | Stored a => Ret a
  | Indeterminate => Crash IndeterminateRead
  end.

(** ** limits.h and float.h (LP64, IEEE 754 binary64) *)

Definition INT_MAX : Z := 2147483647.
Definition INT_MIN : Z := -2147483648.
Definition LONG_MAX : Z := 9223372036854775807.
Definition LONG_MIN : Z := -9223372036854775808.

Definition double : Type := spec_float.

(** [DBL_MAX] = (2^53 - 1) * 2^971 and [DBL_MIN] = 2^52 * 2^-1074 = 2^-1022,
    the least positive normalised double. *)
Definition DBL_MAX : double := S754_finite false 9007199254740991 971.
Definition DBL_MIN : double := S754_finite false 4503599627370496 (-1074).

(** ** libxml2: the document tree

    A node carries its name ([NULL] for the node kinds libxml2 leaves
    unnamed), its attributes (none on a node that is not an element) and
    its children in document order: [children] is the head of the list,
    [next] its tail. *)

#[warnings="-register-all"]
Inductive xmlNode : Type :=
  XmlNode (name : option string)
          (properties : list (string * string))
          (children : list xmlNode).

Definition xml_name (n : xmlNode) : option string :=
  match n with XmlNode name _ _ => name end.
Definition xml_properties (n : xmlNode) : list (string * string) :=
  match n with XmlNode _ properties _ => properties end.
Definition xml_children (n : xmlNode) : list xmlNode :=
  match n with XmlNode _ _ children => children end.

(** A document that [xmlReadMemory] accepted has a root element. *)
Record xmlDoc : Type := XmlDoc { xmlDocGetRootElement : xmlNode }.

(** [xmlGetProp (node, name)]: the value of the first attribute of that
    name, [NULL] when the node has none. *)
Fixpoint xmlGetProp_in (properties : list (string * string)) (name : string)
  : option string :=
  match properties with
  | [] => None
  | (k, v) :: rest => if C.streq k name then Some v else xmlGetProp_in rest name
  end.

Definition xmlGetProp (node : xmlNode) (name : string) : option string :=
  xmlGetProp_in (xml_properties node) name.

(** ** The libraries the program links against

    What libxml2's reader, libc's [strtod], [strptime] and [mktime] and
    glib's [GDateTime] compute is not code of this repository; the
    program is embedded over any implementation of them. *)

Class Externals : Type := {
  (** [xmlReadMemory (content, length, ...)] on the [length] bytes read,
      [None] for [NULL]. *)
  xmlReadMemory : string -> option xmlDoc;
  (** [strtod (s, &end)]: the value, the text at [end], and whether
      [errno] was set to [ERANGE]. *)
  strtod : string -> double * string * bool;
  (** [struct tm], zero-initialised, and what [strptime] and [mktime]
      make of it. *)
  tm : Type;
  tm_zero : tm;
  strptime : string -> string -> tm -> tm;
  mktime : tm -> Z;
  (** glib's date and time values; a [GDateTime *] is an
      [option GDateTime], and what glib does with NULL is glib's. *)
  GDateTime : Type;
  g_date_time_new_from_unix_local : Z -> option GDateTime;
  g_date_time_new_local : Z -> Z -> Z -> Z -> Z -> Z -> option GDateTime;
  g_date_time_get_year : option GDateTime -> Z;
  g_date_time_get_month : option GDateTime -> Z;
  g_date_time_get_day_of_month : option GDateTime -> Z;
  g_date_time_get_hour : option GDateTime -> Z;
  g_date_time_get_minute : option GDateTime -> Z;
}.

(** ** libutils.c *)

(** [strtol (s, &end, 10)]: the value, the text at [end], and whether
    [errno] was set to [ERANGE].  Base 10 is the only base the program
    passes. *)
Fixpoint skip_spaces (s : string) : string :=
  match s with
  | String c s' => if C.isspace c then skip_spaces s' else s
  | EmptyString => s
  end.

Fixpoint read_digits (acc : Z) (s : string) : Z * string :=
  match s with
  | String c s' =>
      if C.isdigit c then read_digits (10 * acc + (C.code c - 48)) s' else (acc, s)
  | EmptyString => (acc, s)
  end.

Definition strtol (s : string) : Z * string * bool :=
  let t := skip_spaces s in
  let negative := Ascii.eqb (C.deref t) "-" in
  let u := if negative || Ascii.eqb (C.deref t) "+" then C.next t else t in
  if C.isdigit (C.deref u) then
    let '(m, rest) := read_digits 0 u in
    let v := if negative then - m else m in
    if LONG_MAX <? v then (LONG_MAX, rest, true)
    else if v <? LONG_MIN then (LONG_MIN, rest, true)
    else (v, rest, false)
  else (0, s, false).

Inductive str2int_errno : Type :=
| STR2INT_SUCCESS
| STR2INT_OVERFLOW
| STR2INT_UNDERFLOW
| STR2INT_INCONVERTIBLE.

Definition str2int_errno_eqb (a b : str2int_errno) : bool :=
  match a, b with
  | STR2INT_SUCCESS, STR2INT_SUCCESS
  | STR2INT_OVERFLOW, STR2INT_OVERFLOW
  | STR2INT_UNDERFLOW, STR2INT_UNDERFLOW
  | STR2INT_INCONVERTIBLE, STR2INT_INCONVERTIBLE => true
  | _, _ => false
  end.

(** [str2int (&out, s, 10)].  [out] is what the variable held before the
    call; the result pairs the status with what it holds after.  [s] is
    read at [s[0]] before anything else, NULL or not. *)
Definition str2int (out : cell Z) (s : option string)
  : outcome (str2int_errno * cell Z) :=
  match s with
  | None => Crash NullDereference
  | Some s =>
      if Ascii.eqb (C.deref s) C.NUL || C.isspace (C.deref s) then
        Ret (STR2INT_INCONVERTIBLE, out)
      else
        let '(l, end_, erange) := strtol s in
        if (INT_MAX <? l) || (erange && (l =? LONG_MAX)) then
          Ret (STR2INT_OVERFLOW, out)
        else if (l <? INT_MIN) || (erange && (l =? LONG_MIN)) then
          Ret (STR2INT_UNDERFLOW, out)
        else if negb (Ascii.eqb (C.deref end_) C.NUL) then
          Ret (STR2INT_INCONVERTIBLE, out)
        else Ret (STR2INT_SUCCESS, Stored l)
  end.

Inductive str2double_errno : Type :=
| STR2DOUBLE_SUCCESS
| STR2DOUBLE_OVERFLOW
| STR2DOUBLE_UNDERFLOW
| STR2DOUBLE_INCONVERTIBLE.

Definition str2double_errno_eqb (a b : str2double_errno) : bool :=
  match a, b with
  | STR2DOUBLE_SUCCESS, STR2DOUBLE_SUCCESS
  | STR2DOUBLE_OVERFLOW, STR2DOUBLE_OVERFLOW
  | STR2DOUBLE_UNDERFLOW, STR2DOUBLE_UNDERFLOW
  | STR2DOUBLE_INCONVERTIBLE, STR2DOUBLE_INCONVERTIBLE => true
  | _, _ => false
  end.

Section Libutils.
Context `{Externals}.

(** [str2double (&out, s)]. *)
Definition str2double (out : cell double) (s : option string)
  : outcome (str2double_errno * cell double) :=
  match s with
  | None => Crash NullDereference
  | Some s =>
      if Ascii.eqb (C.deref s) C.NUL || C.isspace (C.deref s) then
        Ret (STR2DOUBLE_INCONVERTIBLE, out)
      else
        let '(d, end_, erange) := strtod s in
        if erange && SFeqb d DBL_MAX then Ret (STR2DOUBLE_OVERFLOW, out)
        else if erange && SFeqb d DBL_MIN then Ret (STR2DOUBLE_UNDERFLOW, out)
        else if negb (Ascii.eqb (C.deref end_) C.NUL) then
          Ret (STR2DOUBLE_INCONVERTIBLE, out)
        else Ret (STR2DOUBLE_SUCCESS, Stored d)
  end.

(** [xmlGetPropInt (node, property)]: [int i;] is declared without a
    value, [str2int] fills it or [INT_MIN] does. *)
Definition xmlGetPropInt (node : xmlNode) (property : string) : outcome Z :=
  let str := xmlGetProp node property in
  '(status, i) ← str2int Indeterminate str;
  let i := if negb (str2int_errno_eqb status STR2INT_SUCCESS)
           then Stored INT_MIN else i in
  read i.

(** [xmlGetPropDouble (node, property)]. *)
Definition xmlGetPropDouble (node : xmlNode) (property : string)
  : outcome double :=
  let str := xmlGetProp node property in
  '(status, d) ← str2double Indeterminate str;
  let d := if negb (str2double_errno_eqb status STR2DOUBLE_SUCCESS)
           then Stored DBL_MIN else d in
  read d.

(** [parseDateTime (str, format)]: [strptime] reads through [str], NULL
    or not; its return value is not looked at. *)
Definition parseDateTime (str : option string) (format : string)
  : outcome (option GDateTime) :=
  match str with
  | None => Crash NullDereference
  | Some str =>
      let time_struct := strptime str format tm_zero in
      let time_value := mktime time_struct in
      Ret (g_date_time_new_from_unix_local time_value)
  end.

End Libutils.

(** [is_number (str)]: every byte of the C string is a digit. *)
Fixpoint all_digits (s : string) : bool :=
  match s with
  | EmptyString => true
  | String c s' => C.isdigit c && all_digits s'
  end.

Definition is_number (str : string) : bool := all_digits (C.cstr str).

(** ** libweather.h and libweather.c *)

Inductive wtr_location_search_type : Type :=
| WTR_SEARCH_LOCATION_PARTIAL_NAME
| WTR_SEARCH_LOCATION_EXACT_NAME
| WTR_SEARCH_LOCATION_EXACT_CODE.

Definition wtr_location_search_type_eqb (a b : wtr_location_search_type) : bool :=
  match a, b with
  | WTR_SEARCH_LOCATION_PARTIAL_NAME, WTR_SEARCH_LOCATION_PARTIAL_NAME
  | WTR_SEARCH_LOCATION_EXACT_NAME, WTR_SEARCH_LOCATION_EXACT_NAME
  | WTR_SEARCH_LOCATION_EXACT_CODE, WTR_SEARCH_LOCATION_EXACT_CODE => true
  | _, _ => false
  end.

Record wtr_location : Type := {
  name : string;
  province : string;
  latitude : double;
  longitude : double;
  code : string;
}.

(** The binary64 value [m * 2^e] of a positive decimal literal. *)
Definition b64 (m : positive) (e : Z) : double := S754_finite false m e.

(** libweather_locations.h.  The coordinates are the doubles nearest to
    the decimal literals of the header. *)
Definition WTR_LOCATIONS : list wtr_location := [
  {| name := "ACQUASPARTA"; province := "TR";
     latitude := b64 6008244508239370 (-47);    (* 42.6911449 *)
     longitude := b64 7063039656061478 (-49);   (* 12.5464788 *)
     code := "28756" |};
  {| name := "MONTECASTRILLI"; province := "TR";
     latitude := b64 6002796433401396 (-47);    (* 42.652434 *)
     longitude := b64 7030438210948934 (-49);   (* 12.488567 *)
     code := "30429" |};
  {| name := "ORVIETO"; province := "TR";
     latitude := b64 6012110609265738 (-47);    (* 42.7186152 *)
     longitude := b64 6816643160553416 (-49);   (* 12.1087907 *)
     code := "30625" |};
  {| name := "TERNI"; province := "TR";
     latitude := b64 5990370396858281 (-47);    (* 42.5641417 *)
     longitude := b64 7115995119689924 (-49);   (* 12.6405466 *)
     code := "31553" |};
  {| name := "PERUGIA"; province := "PG";
     latitude := b64 6067469151434101 (-47);    (* 43.1119613 *)
     longitude := b64 6974392827616150 (-49);   (* 12.3890104 *)
     code := "30721" |}
].

(** [g_list_append (list, data)]. *)
Definition g_list_append {A} (l : list A) (data : A) : list A := l ++ [data].

(** The test of the loop body of [wtr_location_search]. *)
Definition wtr_location_matches (nameUpper : string)
    (search_type : wtr_location_search_type) (l : wtr_location) : bool :=
  (wtr_location_search_type_eqb search_type WTR_SEARCH_LOCATION_PARTIAL_NAME
     && C.strstr (name l) nameUpper)
  || (wtr_location_search_type_eqb search_type WTR_SEARCH_LOCATION_EXACT_NAME
     && C.g_strcmp0_eq (Some (name l)) (Some nameUpper))
  || (wtr_location_search_type_eqb search_type WTR_SEARCH_LOCATION_EXACT_CODE
     && C.g_strcmp0_eq (Some (code l)) (Some nameUpper)).

(** The [for] loop of [wtr_location_search] from index [i] on, [locations]
    being [WTR_LOCATIONS[i..count)]. *)
Fixpoint wtr_location_search_from (locations : list wtr_location)
    (nameUpper : string) (search_type : wtr_location_search_type)
    (found : list wtr_location) : list wtr_location :=
  match locations with
  | [] => found
  | l :: rest =>
      wtr_location_search_from rest nameUpper search_type
        (if wtr_location_matches nameUpper search_type l
         then g_list_append found l else found)
  end.

Definition wtr_location_search (query : string)
    (search_type : wtr_location_search_type) : list wtr_location :=
  let found := [] in
  let nameUpper := C.g_utf8_strup query in
  wtr_location_search_from WTR_LOCATIONS nameUpper search_type found.

(** ** The world the program runs in

    The cache lives in the file system, reached through glib; the
    forecasts come from the network, reached through libcurl.  The model
    keeps of the file system what the cache uses of it: a store of blobs
    by path and the set of directories.  A file can be written where its
    directory is there and the path itself is no directory. *)

Inductive diagnostic : Type :=
| Message (text : string)       (* a fixed line of text *)
| CurlError (curl_code : Z)     (* "wtr_tiempo_forecast_get curl error %u: %s" *)
| HttpStatus (http_code : Z).   (* "wtr_tiempo_forecast_get HTTP status code %lu" *)

Inductive event : Type :=
| Stderr (d : diagnostic)             (* fprintf (stderr, ...), g_printerr *)
| Mkdir (path : string)               (* g_mkdir_with_parents *)
| FileWrite (path data : string)      (* g_file_set_contents, the call *)
| HttpGet (url : string).             (* curl_easy_perform *)

Record world : Type := World {
  (** The directory for temporary files. *)
  tmp_dir : string;
  (** The local date, as "%Y%m%d" formats it. *)
  today : string;
  (** What a transfer from a URL yields: the [CURLcode], the chunks
      handed to the write callback, and the response code. *)
  remote : string -> Z * list string * Z;
  files : gmap string string;
  dirs : gset string;
  (** What the program did so far, the latest event last. *)
  trace : list event;
}.

Definition M (A : Type) : Type := world -> outcome A * world.

#[global] Instance M_ret : MRet M := fun A a w => (Ret a, w).
#[global] Instance M_bind : MBind M := fun A B k m w =>
  match m w with
  | (Ret a, w') => k a w'
  | (Crash f, w') => (Crash f, w')
  end.

Definition lift {A} (x : outcome A) : M A := fun w => (x, w).

Definition emit (e : event) : M unit := fun w =>
  (Ret tt,
   {| tmp_dir := tmp_dir w; today := today w; remote := remote w;
      files := files w; dirs := dirs w; trace := trace w ++ [e] |}).

Definition fprintf_stderr (text : string) : M unit := emit (Stderr (Message text)).
Definition g_printerr (d : diagnostic) : M unit := emit (Stderr d).

(** [g_get_tmp_dir ()]. *)
Definition g_get_tmp_dir : M string := fun w => (Ret (tmp_dir w), w).

(** [g_date_time_format (g_date_time_new_now_local (), format)] for the
    one format the cache asks for, "%Y%m%d". *)
Definition g_date_time_format_now : M string := fun w => (Ret (today w), w).

(** [g_file_test (path, G_FILE_TEST_IS_DIR)]. *)
Definition g_file_test_is_dir (path : string) : M bool := fun w =>
  (Ret (bool_decide (path ∈ dirs w)), w).

(** [g_mkdir_with_parents (path, 0755)]. *)
Definition g_mkdir_with_parents (path : string) : M unit := fun w =>
  (Ret tt,
   {| tmp_dir := tmp_dir w; today := today w; remote := remote w;
      files := files w; dirs := {[path]} ∪ dirs w;
      trace := trace w ++ [Mkdir path] |}).

(** [g_file_get_contents (file, &data, NULL, NULL)] with [data] NULL
    before the call: the blob, or NULL still. *)
Definition g_file_get_contents (file : string) : M (option string) := fun w =>
  (Ret (files w !! file), w).

(** How the file system reads a path: the directory its entry lies in
    is the path before its last "/", the name of the entry what comes
    after it. *)
Fixpoint has_slash (path : string) : bool :=
  match path with
  | EmptyString => false
  | String c rest => Ascii.eqb c "/" || has_slash rest
  end.

Fixpoint parent_dir (path : string) : string :=
  match path with
  | EmptyString => EmptyString
  | String c rest => if has_slash rest then String c (parent_dir rest) else EmptyString
  end.

Fixpoint entry_name (path : string) : string :=
  match path with
  | EmptyString => EmptyString
  | String c rest => if has_slash path then entry_name rest else path
  end.

(** A file can be created or replaced at [path]: the path is no
    directory, it names an entry, and the directory of the entry is
    there. *)
Definition can_write (path : string) (w : world) : bool :=
  negb (bool_decide (path ∈ dirs w))
  && negb (String.eqb (entry_name path) "")
  && bool_decide (parent_dir path ∈ dirs w).

(** [g_file_set_contents (file, data, -1, NULL)]: length -1 writes the C
    string [data] denotes.  Where the file cannot be written the call
    returns FALSE and the store is as before; the program does not look
    at what the call returns. *)
Definition g_file_set_contents (file data : string) : M unit := fun w =>
  (Ret tt,
   {| tmp_dir := tmp_dir w; today := today w; remote := remote w;
      files := if can_write file w then <[file := C.cstr data]> (files w)
               else files w;
      dirs := dirs w;
      trace := trace w ++ [FileWrite file (C.cstr data)] |}).

(** ** libnet.c *)

Record net_http_rawdata : Type := {
  curl_code : Z;
  http_code : Z;
  len : nat;
  buffer : string;
}.

Definition net_http_rawdata_init : net_http_rawdata :=
  {| curl_code := 0; http_code := 0; len := 0; buffer := "" |}.

(** The write callback: the chunk is appended after the [len] bytes
    received so far. *)
Definition net_http_rawdata_write (chunk : string) (data : net_http_rawdata)
  : net_http_rawdata :=
  let new_len := (len data + String.length chunk)%nat in
  {| curl_code := curl_code data; http_code := http_code data;
     len := new_len; buffer := C.take (len data) (buffer data) +:+ chunk |}.

Definition net_http_get (url : string) : M net_http_rawdata := fun w =>
  let data := net_http_rawdata_init in
  let '(code, chunks, response_code) := remote w url in
  let data := fold_left (fun d chunk => net_http_rawdata_write chunk d) chunks data in
  let data := {| curl_code := code; http_code := http_code data;
                 len := len data; buffer := buffer data |} in
  let data := if curl_code data =? 0
              then {| curl_code := curl_code data; http_code := response_code;
                      len := len data; buffer := buffer data |}
              else data in
  (Ret data,
   {| tmp_dir := tmp_dir w; today := today w; remote := remote w;
      files := files w; dirs := dirs w; trace := trace w ++ [HttpGet url] |}).

(** ** libweather_cache.c *)

Definition MAX_WTR_CACHE_TEMP_DIR_LENGTH : nat := 1024.

Definition wtr_cache_dir : M string :=
  tmp_dir ← g_get_tmp_dir;
  let cache_dir :=
    C.g_snprintf MAX_WTR_CACHE_TEMP_DIR_LENGTH (C.cstr tmp_dir +:+ "/libweather") in
  is_dir ← g_file_test_is_dir cache_dir;
  (if negb is_dir then g_mkdir_with_parents cache_dir else mret tt);;
  mret cache_dir.

Definition wtr_cache_dir_today : M string :=
  cache_dir ← wtr_cache_dir;
  today_str ← g_date_time_format_now;
  let cache_dir_today :=
    C.g_snprintf MAX_WTR_CACHE_TEMP_DIR_LENGTH
      (C.cstr cache_dir +:+ "/" +:+ C.cstr today_str) in
  is_dir ← g_file_test_is_dir cache_dir_today;
  (if negb is_dir then g_mkdir_with_parents cache_dir_today else mret tt);;
  mret cache_dir_today.

Definition wtr_cache_temp_file (driver location_code : string) : M string :=
  cache_dir_today ← wtr_cache_dir_today;
  let file :=
    C.g_snprintf MAX_WTR_CACHE_TEMP_DIR_LENGTH
      (C.cstr cache_dir_today +:+ "/" +:+ C.cstr driver +:+ "-" +:+ C.cstr location_code) in
  mret file.

Definition wtr_cache_get (driver location_code : string) : M (option string) :=
  file ← wtr_cache_temp_file driver location_code;
  data ← g_file_get_contents file;
  mret data.

Definition wtr_cache_set (driver location_code data : string) : M (option string) :=
  file ← wtr_cache_temp_file driver location_code;
  g_file_set_contents file data;;
  mret None.

(** ** The forecast model of libweather.h

    Fields are named as in the header; [weather], [wind_speed], [rain],
    [humidity] and [pressure], which both structs have, carry the
    struct's name in front. *)

Section Forecast.
Context `{Externals}.

(** [wtr_forecast_hour]. *)
Record wtr_forecast_hour : Type := {
  tstamp : cell (option GDateTime);
  hour_weather : cell Z;
  temp : cell Z;
  hour_wind_speed : cell Z;
  wind_dir : cell (option string);
  hour_rain : cell double;
  hour_humidity : cell Z;
  hour_pressure : cell Z;
}.

(** [wtr_forecast_day]. *)
Record wtr_forecast_day : Type := {
  date : cell (option GDateTime);
  day_weather : cell Z;
  temp_min : cell Z;
  temp_max : cell Z;
  day_wind_speed : cell Z;
  day_rain : cell double;
  day_humidity : cell Z;
  day_pressure : cell Z;
  hours : cell (list wtr_forecast_hour);
}.

(** [wtr_forecast]. *)
Record wtr_forecast : Type := { days : list wtr_forecast_day }.

(** [g_malloc (sizeof (wtr_forecast_hour))]: nothing is assigned yet. *)
Definition g_malloc_hour : wtr_forecast_hour :=
  {| tstamp := Indeterminate; hour_weather := Indeterminate; temp := Indeterminate;
     hour_wind_speed := Indeterminate; wind_dir := Indeterminate;
     hour_rain := Indeterminate; hour_humidity := Indeterminate;
     hour_pressure := Indeterminate |}.

(** [g_malloc (sizeof (wtr_forecast_day))]. *)
Definition g_malloc_day : wtr_forecast_day :=
  {| date := Indeterminate; day_weather := Indeterminate; temp_min := Indeterminate;
     temp_max := Indeterminate; day_wind_speed := Indeterminate;
     day_rain := Indeterminate; day_humidity := Indeterminate;
     day_pressure := Indeterminate; hours := Indeterminate |}.

(** Assignments [hour->field = v] and [day->field = v]. *)
Definition set_tstamp (v : (option GDateTime)) (hour : wtr_forecast_hour) : wtr_forecast_hour :=
  {| tstamp := Stored v;
     hour_weather := hour_weather hour;
     temp := temp hour;
     hour_wind_speed := hour_wind_speed hour;
     wind_dir := wind_dir hour;
     hour_rain := hour_rain hour;
     hour_humidity := hour_humidity hour;
     hour_pressure := hour_pressure hour |}.

Definition set_hour_weather (v : Z) (hour : wtr_forecast_hour) : wtr_forecast_hour :=
  {| tstamp := tstamp hour;
     hour_weather := Stored v;
     temp := temp hour;
     hour_wind_speed := hour_wind_speed hour;
     wind_dir := wind_dir hour;
     hour_rain := hour_rain hour;
     hour_humidity := hour_humidity hour;
     hour_pressure := hour_pressure hour |}.

Definition set_temp (v : Z) (hour : wtr_forecast_hour) : wtr_forecast_hour :=
  {| tstamp := tstamp hour;
     hour_weather := hour_weather hour;
     temp := Stored v;
     hour_wind_speed := hour_wind_speed hour;
     wind_dir := wind_dir hour;
     hour_rain := hour_rain hour;
     hour_humidity := hour_humidity hour;
     hour_pressure := hour_pressure hour |}.

Definition set_hour_wind_speed (v : Z) (hour : wtr_forecast_hour) : wtr_forecast_hour :=
  {| tstamp := tstamp hour;
     hour_weather := hour_weather hour;
     temp := temp hour;
     hour_wind_speed := Stored v;
     wind_dir := wind_dir hour;
     hour_rain := hour_rain hour;
     hour_humidity := hour_humidity hour;
     hour_pressure := hour_pressure hour |}.

Definition set_wind_dir (v : (option string)) (hour : wtr_forecast_hour) : wtr_forecast_hour :=
  {| tstamp := tstamp hour;
     hour_weather := hour_weather hour;
     temp := temp hour;
     hour_wind_speed := hour_wind_speed hour;
     wind_dir := Stored v;
     hour_rain := hour_rain hour;
     hour_humidity := hour_humidity hour;
     hour_pressure := hour_pressure hour |}.

Definition set_hour_rain (v : double) (hour : wtr_forecast_hour) : wtr_forecast_hour :=
  {| tstamp := tstamp hour;
     hour_weather := hour_weather hour;
     temp := temp hour;
     hour_wind_speed := hour_wind_speed hour;
     wind_dir := wind_dir hour;
     hour_rain := Stored v;
     hour_humidity := hour_humidity hour;
     hour_pressure := hour_pressure hour |}.

Definition set_hour_humidity (v : Z) (hour : wtr_forecast_hour) : wtr_forecast_hour :=
  {| tstamp := tstamp hour;
     hour_weather := hour_weather hour;
     temp := temp hour;
     hour_wind_speed := hour_wind_speed hour;
     wind_dir := wind_dir hour;
     hour_rain := hour_rain hour;
     hour_humidity := Stored v;
     hour_pressure := hour_pressure hour |}.

Definition set_hour_pressure (v : Z) (hour : wtr_forecast_hour) : wtr_forecast_hour :=
  {| tstamp := tstamp hour;
     hour_weather := hour_weather hour;
     temp := temp hour;
     hour_wind_speed := hour_wind_speed hour;
     wind_dir := wind_dir hour;
     hour_rain := hour_rain hour;
     hour_humidity := hour_humidity hour;
     hour_pressure := Stored v |}.

Definition set_date (v : (option GDateTime)) (day : wtr_forecast_day) : wtr_forecast_day :=
  {| date := Stored v;
     day_weather := day_weather day;
     temp_min := temp_min day;
     temp_max := temp_max day;
     day_wind_speed := day_wind_speed day;
     day_rain := day_rain day;
     day_humidity := day_humidity day;
     day_pressure := day_pressure day;
     hours := hours day |}.

Definition set_day_weather (v : Z) (day : wtr_forecast_day) : wtr_forecast_day :=
  {| date := date day;
     day_weather := Stored v;
     temp_min := temp_min day;
     temp_max := temp_max day;
     day_wind_speed := day_wind_speed day;
     day_rain := day_rain day;
     day_humidity := day_humidity day;
     day_pressure := day_pressure day;
     hours := hours day |}.

Definition set_temp_min (v : Z) (day : wtr_forecast_day) : wtr_forecast_day :=
  {| date := date day;
     day_weather := day_weather day;
     temp_min := Stored v;
     temp_max := temp_max day;
     day_wind_speed := day_wind_speed day;
     day_rain := day_rain day;
     day_humidity := day_humidity day;
     day_pressure := day_pressure day;
     hours := hours day |}.

Definition set_temp_max (v : Z) (day : wtr_forecast_day) : wtr_forecast_day :=
  {| date := date day;
     day_weather := day_weather day;
     temp_min := temp_min day;
     temp_max := Stored v;
     day_wind_speed := day_wind_speed day;
     day_rain := day_rain day;
     day_humidity := day_humidity day;
     day_pressure := day_pressure day;
     hours := hours day |}.

Definition set_day_wind_speed (v : Z) (day : wtr_forecast_day) : wtr_forecast_day :=
  {| date := date day;
     day_weather := day_weather day;
     temp_min := temp_min day;
     temp_max := temp_max day;
     day_wind_speed := Stored v;
     day_rain := day_rain day;
     day_humidity := day_humidity day;
     day_pressure := day_pressure day;
     hours := hours day |}.

Definition set_day_rain (v : double) (day : wtr_forecast_day) : wtr_forecast_day :=
  {| date := date day;
     day_weather := day_weather day;
     temp_min := temp_min day;
     temp_max := temp_max day;
     day_wind_speed := day_wind_speed day;
     day_rain := Stored v;
     day_humidity := day_humidity day;
     day_pressure := day_pressure day;
     hours := hours day |}.

Definition set_day_humidity (v : Z) (day : wtr_forecast_day) : wtr_forecast_day :=
  {| date := date day;
     day_weather := day_weather day;
     temp_min := temp_min day;
     temp_max := temp_max day;
     day_wind_speed := day_wind_speed day;
     day_rain := day_rain day;
     day_humidity := Stored v;
     day_pressure := day_pressure day;
     hours := hours day |}.

Definition set_day_pressure (v : Z) (day : wtr_forecast_day) : wtr_forecast_day :=
  {| date := date day;
     day_weather := day_weather day;
     temp_min := temp_min day;
     temp_max := temp_max day;
     day_wind_speed := day_wind_speed day;
     day_rain := day_rain day;
     day_humidity := day_humidity day;
     day_pressure := Stored v;
     hours := hours day |}.

Definition set_hours (v : (list wtr_forecast_hour)) (day : wtr_forecast_day) : wtr_forecast_day :=
  {| date := date day;
     day_weather := day_weather day;
     temp_min := temp_min day;
     temp_max := temp_max day;
     day_wind_speed := day_wind_speed day;
     day_rain := day_rain day;
     day_humidity := day_humidity day;
     day_pressure := day_pressure day;
     hours := Stored v |}.

(** [wtr_forecast_init ()]. *)
Definition wtr_forecast_init : wtr_forecast := {| days := [] |}.

(** ** libweather_tiempo.c *)

Definition TIEMPO_AFFILATE_ID : string := "0123456789abcd".
Definition TIEMPO_URL_MAX_LENGTH : nat := 256.
Definition WTR_DRIVER_TIEMPO : string := "tiempo".

(** [TIEMPO_URL_TEMPLATE] with its two [%s] filled in. *)
Definition wtr_tiempo_forecast_url (code : string) : string :=
  C.g_snprintf TIEMPO_URL_MAX_LENGTH
    ("http://api.ilmeteo.net/index.php?api_lang=it&localidad=" +:+ C.cstr code
       +:+ "&affiliate_id=" +:+ C.cstr TIEMPO_AFFILATE_ID +:+ "&v=2&h=1").

(** [for (child = node->children; child; child = child->next) body]. *)
Fixpoint for_each_child {S : Type} (body : xmlNode -> S -> outcome S)
    (children : list xmlNode) (s : S) : outcome S :=
  match children with
  | [] => Ret s
  | child :: next => s' ← body child s; for_each_child body next s'
  end.

Definition is_tag (child : xmlNode) (tag : string) : bool :=
  C.g_strcmp0_eq (xml_name child) (Some tag).

(** The body of the loop of [wtr_forecast_parse_hour]. *)
Definition wtr_forecast_parse_hour_child (child : xmlNode)
    (hour : wtr_forecast_hour) : outcome wtr_forecast_hour :=
  if is_tag child "symbol" then
    v ← xmlGetPropInt child "value"; mret (set_hour_weather v hour)
  else if is_tag child "temp" then
    v ← xmlGetPropInt child "value"; mret (set_temp v hour)
  else if is_tag child "wind" then
    let hour := set_wind_dir (xmlGetProp child "dir") hour in
    v ← xmlGetPropInt child "value"; mret (set_hour_wind_speed v hour)
  else if is_tag child "rain" then
    v ← xmlGetPropDouble child "value"; mret (set_hour_rain v hour)
  else if is_tag child "humidity" then
    v ← xmlGetPropInt child "value"; mret (set_hour_humidity v hour)
  else if is_tag child "pressure" then
    v ← xmlGetPropInt child "value"; mret (set_hour_pressure v hour)
  else mret hour.

Definition wtr_forecast_parse_hour (xmlHour : xmlNode) (day : wtr_forecast_day)
  : outcome wtr_forecast_hour :=
  let hour := g_malloc_hour in
  let hour := set_tstamp None hour in
  let hour := set_wind_dir None hour in
  let value := xmlGetProp xmlHour "value" in
  only_time ← parseDateTime value "%H:%M";
  let hh := g_date_time_get_hour only_time in
  let mm := g_date_time_get_minute only_time in
  day_date ← read (date day);
  let hour :=
    set_tstamp
      (g_date_time_new_local (g_date_time_get_year day_date)
         (g_date_time_get_month day_date)
         (g_date_time_get_day_of_month day_date) hh mm 0) hour in
  for_each_child wtr_forecast_parse_hour_child (xml_children xmlHour) hour.

(** The body of the loop of [wtr_forecast_parse_day]. *)
Definition wtr_forecast_parse_day_child (child : xmlNode)
    (day : wtr_forecast_day) : outcome wtr_forecast_day :=
  if is_tag child "symbol" then
    v ← xmlGetPropInt child "value"; mret (set_day_weather v day)
  else if is_tag child "tempmin" then
    v ← xmlGetPropInt child "value"; mret (set_temp_min v day)
  else if is_tag child "tempmax" then
    v ← xmlGetPropInt child "value"; mret (set_temp_max v day)
  else if is_tag child "wind" then
    v ← xmlGetPropInt child "value"; mret (set_day_wind_speed v day)
  else if is_tag child "rain" then
    v ← xmlGetPropDouble child "value"; mret (set_day_rain v day)
  else if is_tag child "humidity" then
    v ← xmlGetPropInt child "value"; mret (set_day_humidity v day)
  else if is_tag child "pressure" then
    v ← xmlGetPropInt child "value"; mret (set_day_pressure v day)
  else if is_tag child "hour" then
    hour ← wtr_forecast_parse_hour child day;
    day_hours ← read (hours day);
    mret (set_hours (g_list_append day_hours hour) day)
  else mret day.

Definition wtr_forecast_parse_day (xmlDay : xmlNode) : outcome wtr_forecast_day :=
  let day := g_malloc_day in
  let day := set_hours [] day in
  let value := xmlGetProp xmlDay "value" in
  day_date ← parseDateTime value "%Y%m%d";
  let day := set_date day_date day in
  for_each_child wtr_forecast_parse_day_child (xml_children xmlDay) day.

(** The body of the loop of [wtr_forecast_parse]. *)
Definition wtr_forecast_parse_child (child : xmlNode) (forecast : wtr_forecast)
  : outcome wtr_forecast :=
  if negb (is_tag child "day") then mret forecast
  else
    day ← wtr_forecast_parse_day child;
    mret {| days := g_list_append (days forecast) day |}.

(** [wtr_forecast_parse (content, length)]; [None] is the NULL it
    returns after a line on stderr. *)
Definition wtr_forecast_parse (content : string) (length : nat)
  : M (option wtr_forecast) :=
  match xmlReadMemory (C.take length content) with
  | None =>
      fprintf_stderr "Failed to parse document";;
      mret None
  | Some doc =>
      let report := xmlDocGetRootElement doc in
      if negb (C.g_strcmp0_eq (xml_name report) (Some "report")) then
        fprintf_stderr "Tiempo XML parsing error: root element report not found.";;
        mret None
      else
        match xml_children report with
        | [] => lift (Crash NullDereference)      (* location->name, location NULL *)
        | location :: _ =>
            if negb (C.g_strcmp0_eq (xml_name location) (Some "location")) then
              fprintf_stderr
                "Tiempo XML parsing error: location element inside report not found.";;
              mret None
            else
              let forecast := wtr_forecast_init in
              forecast ← lift (for_each_child wtr_forecast_parse_child
                                 (xml_children location) forecast);
              mret (Some forecast)
        end
  end.

(** [wtr_tiempo_forecast_get (code)]. *)
Definition wtr_tiempo_forecast_get (code : string) : M (option wtr_forecast) :=
  cached_xml ← wtr_cache_get WTR_DRIVER_TIEMPO code;
  match cached_xml with
  | Some cached_xml =>
      (* Use the cached XML *)
      forecast ← wtr_forecast_parse cached_xml (C.strlen cached_xml);
      mret forecast
  | None =>
      (* Cache miss, must download the forecasts XML via the HTTP API *)
      let url := wtr_tiempo_forecast_url code in
      data ← net_http_get url;
      if negb (curl_code data =? 0) then
        g_printerr (CurlError (curl_code data));;
        mret None
      else if negb (http_code data =? 200) then
        g_printerr (HttpStatus (http_code data));;
        mret None
      else
        forecast ← wtr_forecast_parse (buffer data) (len data);
        (* Don't cache incorrect XML data *)
        match forecast with
        | Some _ =>
            wtr_cache_set WTR_DRIVER_TIEMPO code (buffer data);;
            mret forecast
        | None => mret forecast
        end
  end.

End Forecast.

(** ** Stand-ins for the libraries, to run the program on examples

    A reader that knows a table of documents, a [strtod] for plain
    decimal numbers, and a calendar that keeps a date as the number its
    digits spell (20180308, or 0600 for a time of day). *)

Module StandIn.

Fixpoint lookup_document (table : list (string * xmlDoc)) (content : string)
  : option xmlDoc :=
  match table with
  | [] => None
  | (text, doc) :: rest =>
      if String.eqb text content then Some doc else lookup_document rest content
  end.

(** The digits of [s] as a number, other bytes skipped. *)
Fixpoint digits_value (acc : Z) (s : string) : Z :=
  match s with
  | EmptyString => acc
  | String c s' =>
      digits_value (if C.isdigit c then 10 * acc + (C.code c - 48) else acc) s'
  end.

Definition of_Z (z : Z) : double := binary_normalize 53 1024 z 0 false.

(** [sign digits [. digits]], correctly rounded while the integer and
    the power of ten are below 2^53; no digits means no conversion. *)
Definition strtod_decimal (s : string) : double * string * bool :=
  let negative := Ascii.eqb (C.deref s) "-" in
  let u := if negative || Ascii.eqb (C.deref s) "+" then C.next s else s in
  if C.isdigit (C.deref u) then
    let '(int_part, rest) := read_digits 0 u in
    let '(m, scale, rest) :=
      if Ascii.eqb (C.deref rest) "." then
        let frac := C.next rest in
        let '(m, rest') := read_digits int_part frac in
        (m, 10 ^ Z.of_nat (String.length frac - String.length rest'), rest')
      else (int_part, 1, rest) in
    let v := SFdiv 53 1024 (of_Z m) (of_Z scale) in
    (if negative then SFopp v else v, rest, false)
  else (S754_zero false, s, false).

Definition externals (table : list (string * xmlDoc)) : Externals := {|
  xmlReadMemory := lookup_document table;
  strtod := strtod_decimal;
  tm := Z;
  tm_zero := 0;
  strptime := fun str format _ => digits_value 0 str;
  mktime := fun t => t;
  GDateTime := Z;
  g_date_time_new_from_unix_local := fun t => Some t;
  g_date_time_new_local := fun y m d hh mm ss =>
    Some ((((y * 100 + m) * 100 + d) * 100 + hh) * 100 + mm);
  g_date_time_get_year := fun t => default 0 t / 10000;
  g_date_time_get_month := fun t => (default 0 t / 100) mod 100;
  g_date_time_get_day_of_month := fun t => default 0 t mod 100;
  g_date_time_get_hour := fun t => (default 0 t / 100) mod 100;
  g_date_time_get_minute := fun t => default 0 t mod 100;
|}.

(** Building documents. *)
Definition element (tag : string) (properties : list (string * string))
    (children : list xmlNode) : xmlNode :=
  XmlNode (Some tag) properties children.

(** The text node between two elements. *)
Definition blank : xmlNode := XmlNode (Some "text") [] [].

Definition measure (tag value : string) : xmlNode :=
  element tag [("value", value)] [].

Definition hour_element (time : string) : xmlNode :=
  element "hour" [("value", time)]
    [measure "symbol" "3"; measure "temp" "11";
     element "wind" [("value", "14"); ("dir", "NE")] [];
     measure "rain" "0.5"; measure "humidity" "71"; measure "pressure" "1012"].

Definition day_element (day : string) (hour_elements : list xmlNode) : xmlNode :=
  element "day" [("value", day)]
    ([measure "symbol" "4"; measure "tempmin" "6"; measure "tempmax" "15";
      element "wind" [("value", "21"); ("dir", "N")] [];
      measure "rain" "2.5"; measure "humidity" "64"; measure "pressure" "1009"]
       ++ hour_elements).

Definition eight_hours : list xmlNode :=
  map hour_element
    ["01:00"; "04:00"; "07:00"; "10:00"; "13:00"; "16:00"; "19:00"; "22:00"].

Definition report (location_children : list xmlNode) : xmlDoc :=
  XmlDoc (element "report" [] [element "location" [("city", "Orvieto")] location_children]).

(** Five days, the first two with eight hours each, and the
    informational element the provider puts among them. *)
Definition five_days : xmlDoc :=
  report
    [element "interesting" [] [];
     day_element "20180308" eight_hours;
     day_element "20180309" eight_hours;
     day_element "20180310" [];
     day_element "20180311" [];
     day_element "20180312" []].

(** A report with nothing inside, and one whose day lacks a date. *)
Definition empty_report : xmlDoc := XmlDoc (element "report" [] []).
Definition undated_day : xmlDoc := report [element "day" [] []].
(** A day whose weather symbol has no [value]. *)
Definition valueless_symbol : xmlDoc :=
  report [element "day" [("value", "20180308")] [element "symbol" [] []]].
Definition not_a_report : xmlDoc := XmlDoc (element "html" [] []).

Definition library : list (string * xmlDoc) :=
  [("<report>five days</report>", five_days);
   ("<report/>", empty_report);
   ("<report><location><day/></location></report>", undated_day);
   ("<report><location><day value='20180308'><symbol/></day></location></report>",
    valueless_symbol);
   ("<html/>", not_a_report)].

Definition standin : Externals := externals library.

(** A machine with an empty cache, on 8 March 2018, that the provider
    answers with [reply]. *)
Definition machine (reply : Z * list string * Z) : world :=
  {| tmp_dir := "/tmp"; today := "20180308"; remote := fun _ => reply;
     files := ∅; dirs := ∅; trace := [] |}.

End StandIn.

(** The clock moves to another day. *)
Definition on_day (d : string) (w : world) : world :=
  {| tmp_dir := tmp_dir w; today := d; remote := remote w;
     files := files w; dirs := dirs w; trace := trace w |}.

(** ** The vocabulary of the properties *)

(** Two texts equal up to the case of their letters: they have one
    upper case. *)
Definition caseless_eq (a b : string) : Prop :=
  C.g_utf8_strup a = C.g_utf8_strup b.

(** Case-insensitive comparison spelled out on its own, by way of the
    lower case: A..Z become a..z, and the ten characters beyond ASCII
    that are forms of ASCII letters are spelled in those letters (the
    sharp s as ss, the dotless i as i, the long s as s, the ligatures
    letter by letter).  Every other byte stays as it is. *)
Definition isupper (c : ascii) : bool :=
  (65 <=? C.code c) && (C.code c <=? 90).

Definition tolower (c : ascii) : ascii :=
  if isupper c then ascii_of_N (Z.to_N (C.code c + 32)) else c.

Definition utf8 (bytes : list Z) : string :=
  fold_right (fun b s => String (ascii_of_N (Z.to_N b)) s) EmptyString bytes.

Definition lower_spellings : list (string * string) :=
  [(utf8 [195; 159], "ss");          (* U+00DF, sharp s *)
   (utf8 [196; 177], "i");           (* U+0131, dotless i *)
   (utf8 [197; 191], "s");           (* U+017F, long s *)
   (utf8 [239; 172; 128], "ff");     (* U+FB00 *)
   (utf8 [239; 172; 129], "fi");     (* U+FB01 *)
   (utf8 [239; 172; 130], "fl");     (* U+FB02 *)
   (utf8 [239; 172; 131], "ffi");    (* U+FB03 *)
   (utf8 [239; 172; 132], "ffl");    (* U+FB04 *)
   (utf8 [239; 172; 133], "st");     (* U+FB05, long s t *)
   (utf8 [239; 172; 134], "st")].    (* U+FB06 *)

(** The entry of the table whose character the text starts with. *)
Definition spelling_at (s : string) : option (string * string) :=
  List.find (fun entry => C.prefix (fst entry) s) lower_spellings.

(** [lower_from skip s]: the lower case of [s] after its first [skip]
    bytes, which belong to a character spelled already. *)
Fixpoint lower_from (skip : nat) (s : string) : string :=
  match s with
  | EmptyString => EmptyString
  | String c rest =>
      match skip with
      | S skip' => lower_from skip' rest
      | O =>
          match spelling_at s with
          | Some (character, letters) =>
              letters +:+ lower_from (Nat.pred (String.length character)) rest
          | None => String (tolower c) (lower_from 0 rest)
          end
      end
  end.

Definition lower_case (s : string) : string := lower_from 0 s.

(** [name] contains [q], case-insensitively: some part of it reads as
    [q] does once both are in lower case. *)
Definition contains_caseless (name q : string) : Prop :=
  exists before part after,
    C.cstr name = before +:+ part +:+ after /\
    lower_case part = lower_case (C.cstr q).

(** Bytes, one by one: a text in upper case and in lower case, and the
    texts of ASCII bytes. *)
Fixpoint ascii_upper (s : string) : string :=
  match s with
  | EmptyString => EmptyString
  | String c rest => String (C.toupper c) (ascii_upper rest)
  end.

Fixpoint ascii_lower (s : string) : string :=
  match s with
  | EmptyString => EmptyString
  | String c rest => String (tolower c) (ascii_lower rest)
  end.

Fixpoint all_ascii (s : string) : bool :=
  match s with
  | EmptyString => true
  | String c rest => (C.code c <? 128) && all_ascii rest
  end.

(** A text of ASCII bytes none of which is a..z or the terminator. *)
Fixpoint plain_upper (s : string) : bool :=
  match s with
  | EmptyString => true
  | String c rest =>
      (C.code c <? 128) && negb (C.islower c) && negb (Ascii.eqb c C.NUL)
      && plain_upper rest
  end.

(** The character with an upper case in ASCII letters that a text
    starts with: that upper case, and the text after the character. *)
Definition upper_at (s : string) : option (string * string) :=
  match s with
  | String c (String c1 s2) =>
      match C.upper_of_two c c1 with
      | Some upper => Some (upper, s2)
      | None =>
          match s2 with
          | String c2 s3 =>
              match C.upper_of_three c c1 c2 with
              | Some upper => Some (upper, s3)
              | None => None
              end
          | EmptyString => None
          end
      end
  | _ => None
  end.

Definition is_http_get (e : event) : bool :=
  match e with HttpGet _ => true | _ => false end.

Definition is_file_write (e : event) : bool :=
  match e with FileWrite _ _ => true | _ => false end.

(** [quiet e]: the event is neither a request nor a write to the store. *)
Definition quiet (e : event) : Prop :=
  is_http_get e = false /\ is_file_write e = false.

(** The attributes the parser reads are there: [value] on the element
    itself and on each child it knows by tag. *)
Definition has_value (n : xmlNode) : bool :=
  match xmlGetProp n "value" with Some _ => true | None => false end.

Definition hour_tags : list string :=
  ["symbol"; "temp"; "wind"; "rain"; "humidity"; "pressure"].

Definition day_tags : list string :=
  ["symbol"; "tempmin"; "tempmax"; "wind"; "rain"; "humidity"; "pressure"].

Definition tagged (tags : list string) (child : xmlNode) : bool :=
  existsb (is_tag child) tags.

Definition hour_values_present (xmlHour : xmlNode) : bool :=
  has_value xmlHour
  && forallb (fun child => implb (tagged hour_tags child) (has_value child))
       (xml_children xmlHour).

Definition day_values_present (xmlDay : xmlNode) : bool :=
  has_value xmlDay
  && forallb (fun child =>
                implb (tagged day_tags child) (has_value child)
                && implb (tagged ["hour"] child) (hour_values_present child))
       (xml_children xmlDay).

(** No child of [n] carries the tag. *)
Definition no_child (tag : string) (n : xmlNode) : bool :=
  forallb (fun child => negb (is_tag child tag)) (xml_children n).

(** The field was assigned. *)
Definition is_stored {A : Type} (c : cell A) : Prop := exists a, c = Stored a.

(** The two checks of [wtr_forecast_parse]: the root is a report and its
    first child a location. *)
Definition structurally_valid (doc : xmlDoc) : bool :=
  is_tag (xmlDocGetRootElement doc) "report"
  && match xml_children (xmlDocGetRootElement doc) with
     | location :: _ => is_tag location "location"
     | [] => false
     end.

(** The children of the location element of a valid document. *)
Definition location_children (doc : xmlDoc) : list xmlNode :=
  match xml_children (xmlDocGetRootElement doc) with
  | location :: _ => xml_children location
  | [] => []
  end.

Definition values_present (doc : xmlDoc) : bool :=
  forallb (fun child => implb (is_tag child "day") (day_values_present child))
    (location_children doc).

(** The world after one more line on stderr. *)
Definition told (d : diagnostic) (w : world) : world := snd (g_printerr d w).

(** How many hours a day holds. *)
Definition hour_count `{Externals} (day : wtr_forecast_day) : option nat :=
  match hours day with
  | Stored day_hours => Some (List.length day_hours)
  | Indeterminate => None
  end.

(** How many "hour" children a day element has. *)
Definition hour_elements (xmlDay : xmlNode) : list xmlNode :=
  List.filter (fun child => is_tag child "hour") (xml_children xmlDay).

(** The "day" children of the location element. *)
Definition day_elements (doc : xmlDoc) : list xmlNode :=
  List.filter (fun child => is_tag child "day") (location_children doc).

(** The paths [libweather_cache.c] formats, as functions of the world. *)
Definition cache_dir_path (w : world) : string :=
  C.g_snprintf MAX_WTR_CACHE_TEMP_DIR_LENGTH (C.cstr (tmp_dir w) +:+ "/libweather").

Definition cache_dir_today_path (w : world) : string :=
  C.g_snprintf MAX_WTR_CACHE_TEMP_DIR_LENGTH
    (C.cstr (cache_dir_path w) +:+ "/" +:+ C.cstr (today w)).

Definition cache_file_path (w : world) (driver location_code : string) : string :=
  C.g_snprintf MAX_WTR_CACHE_TEMP_DIR_LENGTH
    (C.cstr (cache_dir_today_path w) +:+ "/" +:+ C.cstr driver +:+ "-"
       +:+ C.cstr location_code).

(** The name of the cache file written in full, and that the buffers
    of [MAX_WTR_CACHE_TEMP_DIR_LENGTH] bytes hold it with its
    terminator. *)
Definition cache_file_name (w : world) (driver location_code : string) : string :=
  C.cstr (tmp_dir w) +:+ "/libweather" +:+ "/" +:+ C.cstr (today w) +:+ "/"
    +:+ C.cstr driver +:+ "-" +:+ C.cstr location_code.


Definition cache_path_fits (w : world) (driver location_code : string) : Prop :=
  (String.length (cache_file_name w driver location_code)
   < MAX_WTR_CACHE_TEMP_DIR_LENGTH)%nat.

(** The cache can hold an entry for the driver and the code: the name
    of its file fits the buffers, neither the driver nor the code has a
    "/" in it, and no directory lies where the file goes. *)
Definition cache_can_hold (w : world) (driver location_code : string) : Prop :=
  cache_path_fits w driver location_code /\
  has_slash (C.cstr driver) = false /\
  has_slash (C.cstr location_code) = false /\
  cache_file_path w driver location_code ∉ dirs w.

(** What the run from [w] to [w'] added to the trace. *)
Definition happened (w w' : world) : list event :=
  drop (List.length (trace w)) (trace w').

(** What [net_http_get] hands back for a URL. *)
Definition response (w : world) (url : string) : net_http_rawdata :=
  match fst (net_http_get url w) with
  | Ret data => data
  | Crash _ => net_http_rawdata_init
  end.

(** From [w] to [w'] nothing was requested and nothing written: the
    store, the clock and the network are as they were, and the trace
    grew by quiet events only. *)
Definition untouched (w w' : world) : Prop :=
  tmp_dir w' = tmp_dir w /\ today w' = today w /\ remote w' = remote w /\
  files w' = files w /\
  exists made, trace w' = (trace w ++ made)%list /\ Forall quiet made.

(** Observations of an outcome. *)
Definition returned {A : Type} (o : outcome A) : bool :=
  match o with Ret _ => true | Crash _ => false end.

Definition returned_null {A : Type} (o : outcome (option A)) : bool :=
  match o with Ret None => true | _ => false end.

(** The number a text of digits spells, after [acc]. *)
Fixpoint digits_number (acc : Z) (s : string) : Z :=
  match s with
  | EmptyString => acc
  | String c s' => digits_number (10 * acc + (C.code c - 48)) s'
  end.

(** The integer a text spells in decimal: a sign or none, one digit at
    least, and nothing else. *)
Definition decimal_literal (s : string) : option Z :=
  let text := C.cstr s in
  let negative := Ascii.eqb (C.deref text) "-" in
  let digits :=
    if negative || Ascii.eqb (C.deref text) "+" then C.next text else text in
  if negb (String.eqb digits "") && all_digits digits then
    Some (if negative then - digits_number 0 digits else digits_number 0 digits)
  else None.


(** ** libweather.h and libweather.c: the weather conditions *)

Definition WTR_UNDEFINED : Z := 0.
Definition WTR_CLEAR : Z := 1.
Definition WTR_SCATTERED_CLOUDS : Z := 2.
Definition WTR_CLOUDY : Z := 3.
Definition WTR_OVERCAST : Z := 4.
Definition WTR_SCATTERED_CLOUDS_LIGHT_RAIN : Z := 5.
Definition WTR_CLOUDY_LIGHT_RAIN : Z := 6.
Definition WTR_OVERCAST_LIGHT_RAIN : Z := 7.
Definition WTR_SCATTERED_CLOUDS_MODERATE_RAIN : Z := 8.
Definition WTR_CLOUDY_MODERATE_RAIN : Z := 9.
Definition WTR_OVERCAST_MODERATE_RAIN : Z := 10.
Definition WTR_SCATTERED_CLOUDS_THUNDERSTORM : Z := 11.
Definition WTR_CLOUDY_THUNDERSTORM : Z := 12.
Definition WTR_OVERCAST_THUNDERSTORM : Z := 13.
Definition WTR_SCATTERED_CLOUDS_THUNDERSTORM_HAIL : Z := 14.
Definition WTR_CLOUDY_THUNDERSTORM_HAIL : Z := 15.
Definition WTR_OVERCAST_THUNDERSTORM_HAIL : Z := 16.
Definition WTR_SCATTERED_CLOUDS_SNOW : Z := 17.
Definition WTR_CLOUDY_SNOW : Z := 18.
Definition WTR_OVERCAST_SNOW : Z := 19.
Definition WTR_SCATTERED_CLOUDS_SLEET : Z := 20.
Definition WTR_CLOUDY_SLEET : Z := 21.
Definition WTR_OVERCAST_SLEET : Z := 22.

(** [switch (weather)]: the first [case] whose constant is [weather],
    [default] when there is none. *)
Fixpoint switch {A : Type} (weather : Z) (cases : list (Z * A)) (default : A) : A :=
  match cases with
  | [] => default
  | (constant, result) :: rest =>
      if weather =? constant then result else switch weather rest default
  end.

Definition wtr_weather_description (weather : Z) : string :=
  switch weather
    [(WTR_CLEAR, "Clear");
     (WTR_SCATTERED_CLOUDS, "Scattered clouds");
     (WTR_CLOUDY, "Cloudy");
     (WTR_OVERCAST, "Overcast");
     (WTR_SCATTERED_CLOUDS_LIGHT_RAIN, "Scattered clouds with light rain");
     (WTR_CLOUDY_LIGHT_RAIN, "Cloudy with light rain");
     (WTR_OVERCAST_LIGHT_RAIN, "Overcast with light rain");
     (WTR_SCATTERED_CLOUDS_MODERATE_RAIN, "Scattered clouds with moderate rain");
     (WTR_CLOUDY_MODERATE_RAIN, "Cloudy with moderate rain");
     (WTR_OVERCAST_MODERATE_RAIN, "Overcast with moderate rain");
     (WTR_SCATTERED_CLOUDS_THUNDERSTORM, "Scattered clouds with thunderstorms");
     (WTR_CLOUDY_THUNDERSTORM, "Cloudy with thunderstorms");
     (WTR_OVERCAST_THUNDERSTORM, "Overcast with thunderstorms");
     (WTR_SCATTERED_CLOUDS_THUNDERSTORM_HAIL,
      "Scattered clouds with thunderstorms and hailstorms");
     (WTR_CLOUDY_THUNDERSTORM_HAIL, "Cloudy with thunderstorms and hailstorms");
     (WTR_OVERCAST_THUNDERSTORM_HAIL, "Overcast with thunderstorms and hailstorms");
     (WTR_SCATTERED_CLOUDS_SNOW, "Scattered clouds with snow");
     (WTR_CLOUDY_SNOW, "Cloudy with snow");
     (WTR_OVERCAST_SNOW, "Overcast with snow");
     (WTR_SCATTERED_CLOUDS_SLEET, "Scattered clouds with sleet");
     (WTR_CLOUDY_SLEET, "Cloudy with sleet");
     (WTR_OVERCAST_SLEET, "Overcast with sleet")]
    "Unknown".

(** ** stdout

    What the program prints is kept as the calls it makes: the format
    of each [printf] and [g_print], spelled as in the source with its
    escapes, and the arguments.  A process is the world and what was
    printed so far, the latest call last. *)

Inductive printf_arg : Type :=
| IntArg (i : Z)                 (* for a %d *)
| DoubleArg (d : double)         (* for a %f *)
| StringArg (s : option string). (* for a %s; [None] is NULL *)

Record printf_call : Type := Printf {
  format : string;
  arguments : list printf_arg;
}.

Record process : Type := Process {
  host : world;
  stdout : list printf_call;
}.

Definition IO (A : Type) : Type := process -> outcome A * process.

#[global] Instance IO_ret : MRet IO := fun A a p => (Ret a, p).
#[global] Instance IO_bind : MBind IO := fun A B k m p =>
  match m p with
  | (Ret a, p') => k a p'
  | (Crash f, p') => (Crash f, p')
  end.

(** A step that concerns the world only. *)
Definition in_world {A} (m : M A) : IO A := fun p =>
  let '(r, w') := m (host p) in
  (r, {| host := w'; stdout := stdout p |}).

(** A step that may fault and touches nothing. *)
Definition attempt {A} (x : outcome A) : IO A := fun p => (x, p).

Definition printf (format : string) (arguments : list printf_arg) : IO unit :=
  fun p =>
    (Ret tt,
     {| host := host p; stdout := stdout p ++ [Printf format arguments] |}).

(** [g_print] writes to stdout as [printf] does. *)
Definition g_print (format : string) (arguments : list printf_arg) : IO unit :=
  printf format arguments.

(** [for (GList *ptr = list; ptr != NULL; ptr = ptr->next) body]. *)
Fixpoint for_each {A : Type} (body : A -> IO unit) (l : list A) : IO unit :=
  match l with
  | [] => mret tt
  | data :: next => body data;; for_each body next
  end.

(** ** libweather.c: printing and freeing *)

Definition wtr_location_print (location : wtr_location) : IO unit :=
  printf "Location   : %s (%s)\n"
    [StringArg (Some (name location)); StringArg (Some (province location))];;
  printf "Coordinates: %f, %f\n"
    [DoubleArg (latitude location); DoubleArg (longitude location)];;
  printf "Code       : %s\n" [StringArg (Some (code location))].

(** [g_date_time_format (datetime, format)] is glib's: a new string, or
    NULL. *)
Class Formatting `{Externals} : Type := {
  g_date_time_format : option GDateTime -> string -> option string;
}.

Section Printing.
Context `{Formatting}.

(** The body of the first loop of [wtr_forecast_print].  The fields are
    read as they are passed to [printf]; a field that was never assigned
    is passed all the same, and the model marks that read with
    [IndeterminateRead] instead of inventing a value for the row. *)
Definition wtr_forecast_print_day (day : wtr_forecast_day) : IO unit :=
  day_date ← attempt (read (date day));
  let date_str := g_date_time_format day_date "%a %e" in
  day_temp_min ← attempt (read (temp_min day));
  day_temp_max ← attempt (read (temp_max day));
  humidity ← attempt (read (day_humidity day));
  wind_speed ← attempt (read (day_wind_speed day));
  weather ← attempt (read (day_weather day));
  printf "%s %7d %7d %12d %10d %s\n"
    [StringArg date_str; IntArg day_temp_min; IntArg day_temp_max;
     IntArg humidity; IntArg wind_speed;
     StringArg (Some (wtr_weather_description weather))].

(** The body of the loop over the hours of a day, its fields read in
    the same way. *)
Definition wtr_forecast_print_hour (hour : wtr_forecast_hour) : IO unit :=
  hour_tstamp ← attempt (read (tstamp hour));
  let tstamp_str := g_date_time_format hour_tstamp "%H:%M" in
  hour_temp ← attempt (read (temp hour));
  weather ← attempt (read (hour_weather hour));
  printf "%s %8d %s\n"
    [StringArg tstamp_str; IntArg hour_temp;
     StringArg (Some (wtr_weather_description weather))].

(** The body of the second loop, the one of the details. *)
Definition wtr_forecast_print_details (day : wtr_forecast_day) : IO unit :=
  day_date ← attempt (read (date day));
  let date_str := g_date_time_format day_date "%A, %e %B" in
  printf "\n\n%s\n\n" [StringArg date_str];;
  printf "Time  Temp (°) Weather\n" [];;
  printf "----  -------- -------\n" [];;
  day_hours ← attempt (read (hours day));
  for_each wtr_forecast_print_hour day_hours.

(** [wtr_forecast_print (forecast, details)]: the two lines of the
    heading are printed before [forecast] is looked at. *)
Definition wtr_forecast_print (forecast : option wtr_forecast) (details : bool)
  : IO unit :=
  printf "Date   Min (°) Max (°) Humidity (%%) Wind(km/h) Weather\n" [];;
  printf "----   ------- ------- ------------ ---------- -------\n" [];;
  match forecast with
  | None => attempt (Crash NullDereference)      (* forecast->days, forecast NULL *)
  | Some forecast =>
      for_each wtr_forecast_print_day (days forecast);;
      if details then for_each wtr_forecast_print_details (days forecast)
      else mret tt
  end.

End Printing.

Section Freeing.
Context `{Externals}.

(** The heap is not part of the model; of [wtr_forecast_free] it keeps
    the pointers the function follows and the fields it reads. *)
Fixpoint free_each {A : Type} (body : A -> outcome unit) (l : list A)
  : outcome unit :=
  match l with
  | [] => Ret tt
  | data :: next => body data;; free_each body next
  end.

Definition wtr_forecast_free_hour (hour : wtr_forecast_hour) : outcome unit :=
  read (tstamp hour);;       (* g_date_time_unref (hour->tstamp) *)
  read (wind_dir hour);;     (* g_free (hour->wind_dir) *)
  Ret tt.                    (* g_free (hour) *)

Definition wtr_forecast_free_day (day : wtr_forecast_day) : outcome unit :=
  day_hours ← read (hours day);
  free_each wtr_forecast_free_hour day_hours;;
  read (date day);;          (* g_date_time_unref (day->date) *)
  read (hours day);;         (* g_list_free (day->hours) *)
  Ret tt.                    (* g_free (day) *)

Definition wtr_forecast_free (forecast : option wtr_forecast) : outcome unit :=
  match forecast with
  | None => Crash NullDereference            (* forecast->days, forecast NULL *)
  | Some forecast => free_each wtr_forecast_free_day (days forecast)
  end.

End Freeing.

(** ** wtrc.c *)

(** The loop of [search_location], with the results counted so far. *)
Fixpoint search_location_loop (results : list wtr_location) (count : Z) : IO Z :=
  match results with
  | [] => mret count
  | location :: next =>
      wtr_location_print location;;
      printf "\n" [];;
      search_location_loop next (count + 1)
  end.

Definition search_location (query : string) : IO unit :=
  let locations := Z.of_nat (List.length WTR_LOCATIONS) in
  let results := wtr_location_search query WTR_SEARCH_LOCATION_PARTIAL_NAME in
  count ← search_location_loop results 0;
  g_print "%d location%s found (%d locations available).\n\n"
    [IntArg count; StringArg (Some (if negb (count =? 1) then "s" else ""));
     IntArg locations].

Section Wtrc.
Context `{Formatting}.

(** [get_forecasts (query)]; [opt_hour] is the global the command line
    sets. *)
Definition get_forecasts (opt_hour : bool) (query : string) : IO unit :=
  (* If the query is not a number, assume that it's a location name *)
  let '(search_type, search_attribute) :=
    if is_number query then (WTR_SEARCH_LOCATION_EXACT_CODE, "code")
    else (WTR_SEARCH_LOCATION_EXACT_NAME, "name") in
  let results := wtr_location_search query search_type in
  match results with
  | [] =>
      g_print "Location with %s '%s' not found.\n"
        [StringArg (Some search_attribute); StringArg (Some query)]
  | location :: _ =>
      g_print "Weather forecasts for %s (%s)\n\n"
        [StringArg (Some (name location)); StringArg (Some (province location))];;
      forecast ← in_world (wtr_tiempo_forecast_get (code location));
      wtr_forecast_print forecast opt_hour;;
      attempt (wtr_forecast_free forecast)
  end.

(** What [g_option_context_parse] makes of the command line: an error
    with its message, or the three globals. *)
Inductive command_line : Type :=
| OptionError (message : string)
| Options (opt_search opt_location : option string) (opt_hour : bool).

Definition EXIT_SUCCESS : Z := 0.
Definition EXIT_FAILURE : Z := 1.

(** [main], from the parsed command line and the code that
    [curl_global_init] returns. *)
Definition main (arguments : command_line) (curl_global_init : Z) : IO Z :=
  let exit_status := EXIT_SUCCESS in
  match arguments with
  | OptionError message =>
      in_world (g_printerr (Message ("Option parsing failed: " +:+ message)));;
      mret EXIT_FAILURE
  | Options opt_search opt_location opt_hour =>
      match opt_search, opt_location with
      | None, None =>
          in_world (g_printerr (Message "Incorrect usage, try --help."));;
          mret EXIT_FAILURE
      | _, _ =>
          let code := curl_global_init in
          (if code =? 0 then
             match opt_search, opt_location with
             | Some query, _ => search_location query
             | None, Some query => get_forecasts opt_hour query
             | None, None => mret tt
             end
           else
             in_world (g_printerr (Message "ERR: libcurl initialization failed")));;
          mret exit_status
      end
  end.

End Wtrc.

(** ** More stand-ins

    A [strtod] that knows one text beyond the range of the doubles,
    and a [g_date_time_format] that prints the number the stand-in
    calendar keeps. *)

Module StandInMore.

Definition strtod_ranged (s : string) : double * string * bool :=
  if String.eqb s "1e999" then (S754_infinity false, "", true)
  else if String.eqb s "1e-999" then (S754_zero false, "", true)
  else StandIn.strtod_decimal s.

Definition ranged : Externals := {|
  xmlReadMemory := StandIn.lookup_document StandIn.library;
  strtod := strtod_ranged;
  tm := Z;
  tm_zero := 0;
  strptime := fun str format _ => StandIn.digits_value 0 str;
  mktime := fun t => t;
  GDateTime := Z;
  g_date_time_new_from_unix_local := fun t => Some t;
  g_date_time_new_local := fun y m d hh mm ss =>
    Some ((((y * 100 + m) * 100 + d) * 100 + hh) * 100 + mm);
  g_date_time_get_year := fun t => default 0 t / 10000;
  g_date_time_get_month := fun t => (default 0 t / 100) mod 100;
  g_date_time_get_day_of_month := fun t => default 0 t mod 100;
  g_date_time_get_hour := fun t => (default 0 t / 100) mod 100;
  g_date_time_get_minute := fun t => default 0 t mod 100;
|}.

(** A temporary directory 600 levels deep, 1200 bytes of name. *)
Fixpoint deep (n : nat) : string :=
  match n with
  | O => ""
  | S n' => "/d" +:+ deep n'
  end.

Definition cramped : world :=
  {| tmp_dir := deep 600; today := "20180308"; remote := fun _ => (0, [], 200);
     files := ∅; dirs := ∅; trace := [] |}.

(** A text in UTF-16, little endian: the byte order mark, then each
    ASCII character with a zero byte after it. *)
Fixpoint utf16_units (s : string) : string :=
  match s with
  | EmptyString => EmptyString
  | String c rest => String c (String C.NUL (utf16_units rest))
  end.

Definition utf16 (s : string) : string :=
  String (ascii_of_N 255) (String (ascii_of_N 254) (utf16_units s)).

(** A day with its date and no measurement. *)
Definition bare_day : xmlDoc :=
  StandIn.report [StandIn.element "day" [("value", "20180308")] []].

(** A reader that knows two more documents: the five-day document in
    UTF-16, and the day without measurements. *)
Definition extended : Externals :=
  StandIn.externals
    ((utf16 "<report>five days</report>", StandIn.five_days)
       :: ("<report>a bare day</report>", bare_day) :: StandIn.library).

(** A [g_date_time_format] that answers with the format it was asked
    for, and with NULL for a NULL date. *)
Definition formatting : @Formatting StandIn.standin :=
  {| g_date_time_format := fun datetime format => (fun _ => format) <$> datetime |}.

Definition extended_formatting : @Formatting extended :=
  {| g_date_time_format := fun datetime format => (fun _ => format) <$> datetime |}.

(** A process that has printed nothing yet. *)
Definition started (w : world) : process := {| host := w; stdout := [] |}.

End StandInMore.

(** ** More vocabulary *)

(** The chunks of a transfer, one after the other. *)
Definition joined (chunks : list string) : string :=
  fold_right String.append "" chunks.

(** The world once the directory is there: as it was when it has the
    directory, after [g_mkdir_with_parents] when it has not. *)
Definition ensured (path : string) (w : world) : world :=
  if bool_decide (path ∈ dirs w) then w else snd (g_mkdir_with_parents path w).

(** The URL of a code written in full. *)
Definition forecast_url_text (code : string) : string :=
  "http://api.ilmeteo.net/index.php?api_lang=it&localidad=" +:+ C.cstr code
    +:+ "&affiliate_id=0123456789abcd&v=2&h=1".

(** The last child of [n] that carries the tag. *)
Definition last_child (tag : string) (n : xmlNode) : option xmlNode :=
  last (List.filter (fun child => is_tag child tag) (xml_children n)).

(** [holds field child value]: the field holds what [value] reads from
    the child, and was never assigned when there is no child. *)
Definition holds {A : Type} (field : cell A) (child : option xmlNode)
    (value : xmlNode -> outcome A) : Prop :=
  match child with
  | Some child => exists v, value child = Ret v /\ field = Stored v
  | None => field = Indeterminate
  end.

(** One turn of a loop over children, seen from one field: a child of
    the tag assigns what [value] reads from it, any other child leaves
    the field alone. *)
Definition child_sets {S A : Type} (field : S -> cell A) (tag : string)
    (value : xmlNode -> outcome A) (child : xmlNode) (s s1 : S) : Prop :=
  if is_tag child tag then exists v, value child = Ret v /\ field s1 = Stored v
  else field s1 = field s.

(** The three lines [wtr_forecast_parse] may write on stderr. *)
Definition parse_errors : list string :=
  ["Failed to parse document";
   "Tiempo XML parsing error: root element report not found.";
   "Tiempo XML parsing error: location element inside report not found."].

(** The process after more calls of [printf]. *)
Definition printing (rows : list printf_call) (p : process) : process :=
  {| host := host p; stdout := stdout p ++ rows |}.

(** The element has a child of each of the tags. *)
Definition measured (tags : list string) (n : xmlNode) : bool :=
  forallb (fun tag => negb (no_child tag n)) tags.

(** The measurements [wtr_forecast_print] reads of a day and of an
    hour. *)
Definition day_print_tags : list string :=
  ["symbol"; "tempmin"; "tempmax"; "wind"; "humidity"].

Definition hour_print_tags : list string := ["symbol"; "temp"].

(** What a document must carry for its forecast to be printed, with
    the hourly details or without. *)
Definition printable (details : bool) (doc : xmlDoc) : bool :=
  forallb (measured day_print_tags) (day_elements doc)
  && (if details then
        forallb (fun xmlDay => forallb (measured hour_print_tags) (hour_elements xmlDay))
          (day_elements doc)
      else true).

(** How many calls of [printf] the forecast of a document takes. *)
Definition printed_calls (details : bool) (doc : xmlDoc) : nat :=
  (2 + List.length (day_elements doc)
   + (if details then
        list_sum (map (fun xmlDay => 3 + List.length (hour_elements xmlDay))
                    (day_elements doc))
      else 0))%nat.

(** The search [get_forecasts] makes for a query. *)
Definition search_type_of (query : string) : wtr_location_search_type :=
  if is_number query then WTR_SEARCH_LOCATION_EXACT_CODE
  else WTR_SEARCH_LOCATION_EXACT_NAME.

(** The command line is one [main] cannot serve: the options did not
    parse, or neither a search nor a location was asked for. *)
Definition bad_usage (arguments : command_line) : Prop :=
  match arguments with
  | OptionError _ => True
  | Options None None _ => True
  | Options _ _ _ => False
  end.

(** The process after one more line on stderr. *)
Definition warned (text : string) (p : process) : process :=
  {| host := told (Message text) (host p); stdout := stdout p |}.

(* ================================================================== *)
(** * Part II: the properties                                          *)
(* ================================================================== *)

(** ** C strings *)

Lemma cstr_idem s : C.cstr (C.cstr s) = C.cstr s.
Proof.
  induction s as [|c s IH]; simpl; [reflexivity|].
  destruct (Ascii.eqb c C.NUL) eqn:E; simpl; [reflexivity|].
  rewrite E, IH. reflexivity.
Qed.

Lemma toupper_not_NUL c : c <> C.NUL -> C.toupper c <> C.NUL.
Proof.
  destruct c as [[] [] [] [] [] [] [] []]; vm_compute; congruence.
Qed.

Lemma toupper_idem c : C.toupper (C.toupper c) = C.toupper c.
Proof. destruct c as [[] [] [] [] [] [] [] []]; reflexivity. Qed.

Lemma toupper_digit x d :
  C.isdigit d = true -> C.toupper x = d <-> x = d.
Proof.
  intros Hd.
  destruct x as [[] [] [] [] [] [] [] []];
    (split; intros <-; (reflexivity || (vm_compute in Hd; discriminate Hd))).
Qed.

Lemma take_all n s : (String.length s <= n)%nat -> C.take n s = s.
Proof.
  revert n. induction s as [|c s IH]; intros [|n] Hn; simpl in *;
    try reflexivity; try lia.
  rewrite IH by lia. reflexivity.
Qed.

Lemma length_take n s : (n <= String.length s)%nat -> String.length (C.take n s) = n.
Proof.
  revert n. induction s as [|c s IH]; intros [|n] Hn; simpl in *;
    try reflexivity; try lia.
  rewrite IH by lia. reflexivity.
Qed.

Lemma string_app_cons x a b : String x a +:+ b = String x (a +:+ b).
Proof. reflexivity. Qed.

Lemma string_length_app a b :
  String.length (a +:+ b) = (String.length a + String.length b)%nat.
Proof.
  induction a as [|c a IH]; [reflexivity|].
  rewrite string_app_cons. simpl. rewrite IH. reflexivity.
Qed.

Lemma string_app_assoc a b c : (a +:+ b) +:+ c = a +:+ b +:+ c.
Proof.
  induction a as [|x a IH]; [reflexivity|].
  rewrite !string_app_cons, IH. reflexivity.
Qed.

Lemma cstr_app a b : C.cstr (C.cstr a +:+ b) = C.cstr a +:+ C.cstr b.
Proof.
  induction a as [|c a IH]; [reflexivity|].
  cbn [C.cstr]. destruct (Ascii.eqb c C.NUL) eqn:E; [reflexivity|].
  rewrite !string_app_cons. cbn [C.cstr]. rewrite E, IH. reflexivity.
Qed.

Lemma cstr_app_fixed a b : C.cstr a = a -> C.cstr (a +:+ b) = a +:+ C.cstr b.
Proof. intros E. rewrite <- E at 1. rewrite cstr_app, E. reflexivity. Qed.

Lemma string_app_cancel_r a b x : a +:+ x = b +:+ x -> a = b.
Proof.
  revert b. induction a as [|c a IH]; intros [|d b] E.
  - reflexivity.
  - apply (f_equal String.length) in E.
    rewrite !string_length_app in E. simpl in E. lia.
  - apply (f_equal String.length) in E.
    rewrite !string_length_app in E. simpl in E. lia.
  - rewrite !string_app_cons in E. injection E as -> E.
    rewrite (IH b E). reflexivity.
Qed.

Lemma string_app_cancel_l a x y : a +:+ x = a +:+ y -> x = y.
Proof.
  induction a as [|c a IH]; intros E; [exact E|].
  rewrite !string_app_cons in E. injection E as E. apply IH, E.
Qed.

Lemma take_app_ge n : forall a b,
  (n <= String.length a)%nat -> C.take n (a +:+ b) = C.take n a.
Proof.
  induction n as [|n IH]; intros a b Hn; [destruct a, b; reflexivity|].
  destruct a as [|c a]; [cbn in Hn; lia|].
  rewrite string_app_cons. cbn [C.take]. f_equal.
  apply IH. cbn [String.length] in Hn. lia.
Qed.

Lemma take_take n s : C.take n (C.take n s) = C.take n s.
Proof.
  revert s. induction n as [|n IH]; intros s; [destruct s; reflexivity|].
  destruct s as [|c s]; [reflexivity|]. cbn [C.take]. f_equal. apply IH.
Qed.

Lemma cstr_take n : forall s, C.cstr s = s -> C.cstr (C.take n s) = C.take n s.
Proof.
  induction n as [|n IH]; intros s Hs; [destruct s; reflexivity|].
  destruct s as [|c s]; [reflexivity|]. cbn [C.take C.cstr] in *.
  destruct (Ascii.eqb c C.NUL); [discriminate Hs|].
  injection Hs as Hs. rewrite (IH s Hs). reflexivity.
Qed.

Lemma length_take_le n : forall s, (String.length (C.take n s) <= n)%nat.
Proof.
  induction n as [|n IH]; intros s; [destruct s; cbn; lia|].
  destruct s as [|c s]; cbn [C.take String.length]; [lia|].
  specialize (IH s). lia.
Qed.

Lemma prefix_spec p s :
  C.prefix p s = true <-> exists after, s = p +:+ after.
Proof.
  revert s. induction p as [|a p IH]; intros s; simpl.
  - split; [intros _; exists s; reflexivity | reflexivity].
  - destruct s as [|b s].
    + split; [discriminate | intros [after E]; discriminate E].
    + rewrite andb_true_iff, Ascii.eqb_eq, IH. split.
      * intros [-> [after ->]]. exists after. reflexivity.
      * intros [after E]. injection E as -> ->. split; [reflexivity|].
        exists after. reflexivity.
Qed.

Lemma strstr_found_spec hay needle :
  C.strstr_found hay needle = true <->
  exists before after, hay = before +:+ needle +:+ after.
Proof.
  induction hay as [|c hay IH].
  - simpl. rewrite orb_false_r, prefix_spec. split.
    + intros [after E]. exists "", after. exact E.
    + intros [[|b before] [after E]]; [exists after; exact E | discriminate E].
  - cbn [C.strstr_found]. rewrite orb_true_iff, prefix_spec, IH. split.
    + intros [[after E] | [before [after E]]].
      * exists "", after. exact E.
      * exists (String c before), after. simpl. rewrite E. reflexivity.
    + intros [[|b before] [after E]].
      * left. exists after. exact E.
      * right. injection E as -> E. exists before, after. exact E.
Qed.

(** ** Upper case and lower case *)

Lemma string_length_ind (P : string -> Prop) :
  (forall s, (forall t, (String.length t < String.length s)%nat -> P t) -> P s) ->
  forall s, P s.
Proof.
  intros Hstep s.
  assert (Hall : forall n t, (String.length t < n)%nat -> P t).
  { induction n as [|n IH]; intros t Ht; [lia|].
    apply Hstep. intros u Hu. apply IH. lia. }
  apply (Hall (S (String.length s))). lia.
Qed.

Lemma code_byte c n : 0 <= n -> C.code c = n -> c = ascii_of_N (Z.to_N n).
Proof.
  intros Hn <-. unfold C.code. rewrite N2Z.id, ascii_N_embedding. reflexivity.
Qed.

Lemma tolower_toupper c : tolower (C.toupper c) = tolower c.
Proof. destruct c as [[] [] [] [] [] [] [] []]; reflexivity. Qed.

Lemma toupper_tolower c : C.toupper (tolower c) = C.toupper c.
Proof. destruct c as [[] [] [] [] [] [] [] []]; reflexivity. Qed.

Lemma toupper_ascii c : (C.code (C.toupper c) <? 128) = (C.code c <? 128).
Proof. destruct c as [[] [] [] [] [] [] [] []]; reflexivity. Qed.

Lemma tolower_ascii c : (C.code (tolower c) <? 128) = (C.code c <? 128).
Proof. destruct c as [[] [] [] [] [] [] [] []]; reflexivity. Qed.

Lemma toupper_fixed c : C.islower c = false -> C.toupper c = c.
Proof. intros E. unfold C.toupper. rewrite E. reflexivity. Qed.

Lemma ascii_upper_app a b : ascii_upper (a +:+ b) = ascii_upper a +:+ ascii_upper b.
Proof.
  induction a as [|c a IH]; [reflexivity|].
  rewrite string_app_cons. cbn [ascii_upper]. rewrite IH. reflexivity.
Qed.

Lemma ascii_lower_app a b : ascii_lower (a +:+ b) = ascii_lower a +:+ ascii_lower b.
Proof.
  induction a as [|c a IH]; [reflexivity|].
  rewrite string_app_cons. cbn [ascii_lower]. rewrite IH. reflexivity.
Qed.

Lemma all_ascii_app a b : all_ascii (a +:+ b) = all_ascii a && all_ascii b.
Proof.
  induction a as [|c a IH]; [reflexivity|].
  rewrite string_app_cons. cbn [all_ascii]. rewrite IH. apply andb_assoc.
Qed.

Lemma all_ascii_lower p : all_ascii (ascii_lower p) = all_ascii p.
Proof.
  induction p as [|c p IH]; [reflexivity|].
  cbn [ascii_lower all_ascii]. rewrite tolower_ascii, IH. reflexivity.
Qed.

Lemma plain_upper_app a b : plain_upper (a +:+ b) = plain_upper a && plain_upper b.
Proof.
  induction a as [|c a IH]; [reflexivity|].
  rewrite string_app_cons. cbn [plain_upper]. rewrite IH. apply andb_assoc.
Qed.

(** A text of ASCII bytes without a..z is its own upper case, byte by
    byte, and a C string. *)
Lemma plain_upper_spec p :
  plain_upper p = true ->
  all_ascii p = true /\ ascii_upper (ascii_lower p) = p /\ C.cstr p = p.
Proof.
  induction p as [|c p IH]; [auto|].
  cbn [plain_upper all_ascii ascii_upper ascii_lower C.cstr].
  rewrite !andb_true_iff, !negb_true_iff. intros [[[Ha Hl] Hn] Hp].
  destruct (IH Hp) as (Hall & Hup & Hc).
  rewrite Ha, Hn, Hall, Hup, Hc, toupper_tolower, (toupper_fixed c Hl). auto.
Qed.

(** *** The ten characters, on the side of the code and on the side of
    the table *)

Lemma spelling_facts character letters :
  In (character, letters) lower_spellings ->
  C.cstr character = character /\ (0 < String.length character)%nat /\
  all_ascii letters = true /\
  ascii_lower (ascii_upper letters) = letters /\
  C.cstr (ascii_upper letters) = ascii_upper letters /\
  C.isdigit (C.deref (ascii_upper letters)) = false /\
  C.isdigit (C.deref character) = false.
Proof.
  intros Hin. unfold lower_spellings in Hin. cbn [In] in Hin.
  repeat (destruct Hin as [Hin | Hin];
          [injection Hin as <- <-; cbn; repeat split; (reflexivity || lia)|]).
  contradiction.
Qed.

Lemma upper_at_spelling character letters rest :
  In (character, letters) lower_spellings ->
  upper_at (character +:+ rest) = Some (ascii_upper letters, rest).
Proof.
  intros Hin. unfold lower_spellings in Hin. cbn [In] in Hin.
  repeat (destruct Hin as [Hin | Hin]; [injection Hin as <- <-; reflexivity|]).
  contradiction.
Qed.

Lemma lower_case_spelling character letters t :
  In (character, letters) lower_spellings ->
  lower_case (character +:+ t) = letters +:+ lower_case t.
Proof.
  intros Hin. unfold lower_spellings in Hin. cbn [In] in Hin.
  repeat (destruct Hin as [Hin | Hin]; [injection Hin as <- <-; reflexivity|]).
  contradiction.
Qed.

Ltac in_spellings := cbn [In]; repeat (first [left; reflexivity | right]).

Lemma upper_at_Some s upper rest :
  upper_at s = Some (upper, rest) ->
  exists character letters,
    In (character, letters) lower_spellings /\ s = character +:+ rest /\
    upper = ascii_upper letters.
Proof.
  destruct s as [|c [|c1 s2]]; try discriminate.
  cbn [upper_at]. unfold C.upper_of_two.
  repeat match goal with
    | |- context [if (C.code c =? ?a) && (C.code c1 =? ?b) then Some ?u else _] =>
        let E := fresh "E" in
        destruct ((C.code c =? a) && (C.code c1 =? b)) eqn:E;
        [apply andb_true_iff in E as [E1 E2];
         apply Z.eqb_eq in E1, E2;
         apply code_byte in E1; [|lia]; apply code_byte in E2; [|lia];
         subst c c1; cbv beta iota; intros [= <- <-];
         exists (utf8 [a; b]), (ascii_lower u);
         split; [unfold lower_spellings; in_spellings | split; reflexivity]
        |clear E]
    end.
  destruct s2 as [|c2 s3]; [discriminate|].
  unfold C.upper_of_three.
  destruct ((C.code c =? 239) && (C.code c1 =? 172)) eqn:E; [|discriminate].
  apply andb_true_iff in E as [E1 E2]. apply Z.eqb_eq in E1, E2.
  apply code_byte in E1; [|lia]. apply code_byte in E2; [|lia]. subst c c1.
  repeat match goal with
    | |- context [if C.code c2 =? ?a then Some ?u else _] =>
        let E := fresh "E" in
        destruct (C.code c2 =? a) eqn:E;
        [apply Z.eqb_eq in E; apply code_byte in E; [|lia]; subst c2;
         cbv beta iota; intros [= <- <-];
         exists (utf8 [239; 172; a]), (ascii_lower u);
         split; [unfold lower_spellings; in_spellings | split; reflexivity]
        |clear E]
    end.
  destruct ((C.code c2 =? 133) || (C.code c2 =? 134)) eqn:E; [|discriminate].
  apply orb_true_iff in E as [E | E]; apply Z.eqb_eq in E;
    apply code_byte in E; try lia; subst c2; cbv beta iota; intros [= <- <-].
  - exists (utf8 [239; 172; 133]), "st".
    split; [unfold lower_spellings; in_spellings | split; reflexivity].
  - exists (utf8 [239; 172; 134]), "st".
    split; [unfold lower_spellings; in_spellings | split; reflexivity].
Qed.

Lemma upper_at_ascii c rest : C.code c < 128 -> upper_at (String c rest) = None.
Proof.
  intros Hc. destruct rest as [|c1 s2]; [reflexivity|].
  cbn [upper_at]. unfold C.upper_of_two, C.upper_of_three.
  assert (E1 : (C.code c =? 195) = false) by (apply Z.eqb_neq; lia).
  assert (E2 : (C.code c =? 196) = false) by (apply Z.eqb_neq; lia).
  assert (E3 : (C.code c =? 197) = false) by (apply Z.eqb_neq; lia).
  assert (E4 : (C.code c =? 239) = false) by (apply Z.eqb_neq; lia).
  rewrite E1, E2, E3, E4. cbn [andb]. destruct s2; reflexivity.
Qed.

Lemma spelling_at_ascii c rest :
  C.code c < 128 -> spelling_at (String c rest) = None.
Proof.
  intros Hc.
  destruct c as [[] [] [] [] [] [] [] []];
    first [reflexivity | exfalso; vm_compute in Hc; discriminate Hc].
Qed.

Lemma spelling_at_Some s character letters :
  spelling_at s = Some (character, letters) ->
  In (character, letters) lower_spellings /\ exists t, s = character +:+ t.
Proof.
  intros E. apply List.find_some in E as [Hin Hp]. split; [exact Hin|].
  apply prefix_spec in Hp. exact Hp.
Qed.

Lemma cstr_split a : forall q t,
  C.cstr q = a +:+ t -> exists rest, q = a +:+ rest /\ C.cstr rest = t.
Proof.
  induction a as [|x a IH]; intros q t E; [exists q; split; [reflexivity|exact E]|].
  destruct q as [|c q]; [discriminate E|].
  cbn [C.cstr] in E. destruct (Ascii.eqb c C.NUL); [discriminate E|].
  rewrite string_app_cons in E. injection E as -> E.
  destruct (IH q t E) as (rest & -> & Hr). exists rest. split; [reflexivity|exact Hr].
Qed.

(** *** The unfoldings *)

Lemma strup_unfold c s1 :
  C.g_utf8_strup (String c s1) =
  if Ascii.eqb c C.NUL then ""
  else match upper_at (String c s1) with
       | Some (upper, rest) => upper +:+ C.g_utf8_strup rest
       | None => String (C.toupper c) (C.g_utf8_strup s1)
       end.
Proof.
  cbn [C.g_utf8_strup upper_at]. destruct (Ascii.eqb c C.NUL); [reflexivity|].
  destruct s1 as [|c1 s2]; [reflexivity|].
  destruct (C.upper_of_two c c1); [reflexivity|].
  destruct s2 as [|c2 s3]; [reflexivity|].
  destruct (C.upper_of_three c c1 c2); reflexivity.
Qed.

Lemma lower_case_unfold c rest :
  lower_case (String c rest) =
  match spelling_at (String c rest) with
  | Some (character, letters) =>
      letters +:+ lower_from (Nat.pred (String.length character)) rest
  | None => String (tolower c) (lower_case rest)
  end.
Proof. reflexivity. Qed.

Lemma lower_case_ascii p : all_ascii p = true -> lower_case p = ascii_lower p.
Proof.
  induction p as [|c p IH]; [reflexivity|].
  cbn [all_ascii]. rewrite andb_true_iff, Z.ltb_lt. intros [Hc Hp].
  rewrite lower_case_unfold, (spelling_at_ascii c p Hc), (IH Hp). reflexivity.
Qed.

(** The result of [g_utf8_strup] is a C string. *)
Lemma cstr_strup s : C.cstr (C.g_utf8_strup s) = C.g_utf8_strup s.
Proof.
  induction s as [s IH] using string_length_ind.
  destruct s as [|c s1]; [reflexivity|]. rewrite strup_unfold.
  destruct (Ascii.eqb c C.NUL) eqn:En; [reflexivity|].
  destruct (upper_at (String c s1)) as [[upper rest]|] eqn:Eu.
  - apply upper_at_Some in Eu as (character & letters & Hin & Es & ->).
    destruct (spelling_facts _ _ Hin) as (_ & Hlen & _ & _ & Hc & _).
    rewrite (cstr_app_fixed _ _ Hc), IH; [reflexivity|].
    rewrite Es, string_length_app. lia.
  - cbn [C.cstr].
    apply Ascii.eqb_neq in En. apply toupper_not_NUL in En.
    apply Ascii.eqb_neq in En. rewrite En, IH; [reflexivity|].
    cbn [String.length]. lia.
Qed.


(** Where the upper case of a query is ASCII, its lower case is the
    lower case of that, byte by byte; and the other way round. *)
Lemma lower_case_of_strup q :
  all_ascii (C.g_utf8_strup q) = true ->
  lower_case (C.cstr q) = ascii_lower (C.g_utf8_strup q).
Proof.
  induction q as [q IH] using string_length_ind.
  destruct q as [|c s1]; [reflexivity|]. rewrite strup_unfold. cbn [C.cstr].
  destruct (Ascii.eqb c C.NUL) eqn:En; [reflexivity|].
  destruct (upper_at (String c s1)) as [[upper rest]|] eqn:Eu.
  - apply upper_at_Some in Eu as (character & letters & Hin & Es & ->).
    destruct (spelling_facts _ _ Hin) as (Hc & Hlen & _ & Hl & _).
    rewrite all_ascii_app, andb_true_iff. intros [_ Hrest].
    assert (Ecstr : String c (C.cstr s1) = character +:+ C.cstr rest).
    { rewrite <- (cstr_app_fixed _ _ Hc), <- Es. cbn [C.cstr]. rewrite En.
      reflexivity. }
    rewrite Ecstr, (lower_case_spelling _ _ _ Hin), ascii_lower_app, Hl.
    rewrite IH; [reflexivity | | exact Hrest].
    rewrite Es, string_length_app. lia.
  - cbn [all_ascii ascii_lower]. rewrite andb_true_iff, toupper_ascii, Z.ltb_lt.
    intros [Hc Hrest].
    rewrite lower_case_unfold, (spelling_at_ascii c _ Hc), tolower_toupper.
    rewrite IH; [reflexivity | | exact Hrest]. cbn [String.length]. lia.
Qed.

Lemma strup_of_lower_case q :
  all_ascii (lower_case (C.cstr q)) = true ->
  C.g_utf8_strup q = ascii_upper (lower_case (C.cstr q)).
Proof.
  induction q as [q IH] using string_length_ind.
  destruct q as [|c s1]; [reflexivity|]. rewrite strup_unfold.
  destruct (Ascii.eqb c C.NUL) eqn:En; [cbn [C.cstr]; rewrite En; reflexivity|].
  destruct (spelling_at (C.cstr (String c s1))) as [[character letters]|] eqn:Es.
  - apply spelling_at_Some in Es as (Hin & t & Et).
    destruct (cstr_split _ _ _ Et) as (rest & Eq & Er).
    destruct (spelling_facts _ _ Hin) as (_ & Hlen & _).
    rewrite Et, (lower_case_spelling _ _ _ Hin), all_ascii_app, andb_true_iff.
    intros [_ Hrest]. rewrite Eq, (upper_at_spelling _ _ _ Hin), ascii_upper_app.
    rewrite <- Er in Hrest |- *. rewrite IH; [reflexivity | | exact Hrest].
    rewrite Eq, string_length_app. lia.
  - revert Es. cbn [C.cstr]. rewrite En. intros Es.
    rewrite lower_case_unfold, Es. cbn [all_ascii ascii_upper].
    rewrite andb_true_iff, tolower_ascii, Z.ltb_lt. intros [Hc Hrest].
    rewrite (upper_at_ascii c s1 Hc), toupper_tolower.
    rewrite IH; [reflexivity | | exact Hrest]. cbn [String.length]. lia.
Qed.

(** ** The location directory *)

(** The loop of [wtr_location_search] keeps, in order, the locations
    its test accepts. *)
Lemma wtr_location_search_from_filter locations nameUpper search_type found :
  wtr_location_search_from locations nameUpper search_type found =
  (found ++ List.filter (wtr_location_matches nameUpper search_type) locations)%list.
Proof.
  revert found. induction locations as [|l rest IH]; intros found; simpl.
  - rewrite app_nil_r. reflexivity.
  - rewrite IH. unfold g_list_append.
    destruct (wtr_location_matches nameUpper search_type l);
      [rewrite <- app_assoc|]; reflexivity.
Qed.

Lemma wtr_location_search_filter query search_type :
  wtr_location_search query search_type =
  List.filter (wtr_location_matches (C.g_utf8_strup query) search_type)
    WTR_LOCATIONS.
Proof.
  unfold wtr_location_search. apply wtr_location_search_from_filter.
Qed.

(** Every name of the registry is upper case already. *)
Lemma registry_names_upper l :
  In l WTR_LOCATIONS -> C.g_utf8_strup (name l) = name l.
Proof.
  intros Hl. repeat (destruct Hl as [<- | Hl]; [reflexivity|]). destruct Hl.
Qed.

(** Every name of the registry is ASCII without a..z. *)
Lemma registry_names_plain l :
  In l WTR_LOCATIONS -> plain_upper (name l) = true.
Proof.
  intros Hl. repeat (destruct Hl as [<- | Hl]; [reflexivity|]). destruct Hl.
Qed.

(** On such a name, the substring test on the upper-cased query decides
    case-insensitive containment. *)
Lemma strstr_strup_caseless n q :
  plain_upper n = true ->
  C.strstr n (C.g_utf8_strup q) = true <-> contains_caseless n q.
Proof.
  intros Hn. destruct (plain_upper_spec n Hn) as (_ & _ & Hc).
  unfold C.strstr, contains_caseless.
  rewrite cstr_strup, Hc, strstr_found_spec. split.
  - intros [before [after E]].
    exists before, (C.g_utf8_strup q), after. split; [exact E|].
    assert (Hp : plain_upper (C.g_utf8_strup q) = true).
    { rewrite E, !plain_upper_app, !andb_true_iff in Hn. apply Hn. }
    destruct (plain_upper_spec _ Hp) as (Ha & _ & _).
    rewrite (lower_case_ascii _ Ha). symmetry. apply lower_case_of_strup, Ha.
  - intros (before & part & after & E & Hl). exists before, after.
    assert (Hp : plain_upper part = true).
    { rewrite E, !plain_upper_app, !andb_true_iff in Hn. apply Hn. }
    destruct (plain_upper_spec _ Hp) as (Ha & Hup & _).
    rewrite (lower_case_ascii _ Ha) in Hl.
    rewrite (strup_of_lower_case q), <- Hl, Hup; [exact E|].
    rewrite <- Hl, all_ascii_lower. exact Ha.
Qed.

(** C8: for every location L of the compiled-in registry, searching
    L's name with EXACT_NAME returns exactly [L]; and for every query q,
    searching with PARTIAL_NAME returns the registry filtered, in
    registry order, by a test that holds exactly of the locations whose
    name contains q case-insensitively: some part of the name and q
    are the same text once both are in lower case.  The search is a
    function of its arguments alone. *)
Theorem search_by_name :
  (forall l, In l WTR_LOCATIONS ->
     wtr_location_search (name l) WTR_SEARCH_LOCATION_EXACT_NAME = [l]) /\
  (forall q, exists keep : wtr_location -> bool,
     (forall l, In l WTR_LOCATIONS ->
        keep l = true <-> contains_caseless (name l) q) /\
     wtr_location_search q WTR_SEARCH_LOCATION_PARTIAL_NAME =
     List.filter keep WTR_LOCATIONS).
Proof.
  split.
  - intros l Hl.
    repeat (destruct Hl as [<- | Hl]; [vm_compute; reflexivity|]). destruct Hl.
  - intros q.
    exists (wtr_location_matches (C.g_utf8_strup q) WTR_SEARCH_LOCATION_PARTIAL_NAME).
    split; [|apply wtr_location_search_filter].
    intros l Hl. unfold wtr_location_matches. simpl.
    rewrite !orb_false_r.
    apply strstr_strup_caseless, registry_names_plain, Hl.
Qed.

Lemma search_by_name_witness :
  wtr_location_search "ORVIETO" WTR_SEARCH_LOCATION_EXACT_NAME
  = List.filter (fun l => String.eqb (code l) "30625") WTR_LOCATIONS /\
  (exists l, name l = "ORVIETO" /\
     In l (wtr_location_search "rVi" WTR_SEARCH_LOCATION_PARTIAL_NAME)) /\
  (exists l, name l = "TERNI" /\
     In l (wtr_location_search ("tern" +:+ utf8 [196; 177])
             WTR_SEARCH_LOCATION_PARTIAL_NAME)).
Proof.
  split; [|split].
  - pose proof (proj1 search_by_name) as Hexact.
    specialize (Hexact {| name := "ORVIETO"; province := "TR";
                          latitude := b64 6012110609265738 (-47);
                          longitude := b64 6816643160553416 (-49);
                          code := "30625" |}).
    simpl in Hexact. rewrite Hexact; [reflexivity|].
    right. right. left. reflexivity.
  - destruct (proj2 search_by_name "rVi") as (keep & Hkeep & ->).
    eexists. split; [|apply filter_In; split;
                       [right; right; left; reflexivity|]]; [reflexivity|].
    apply Hkeep; [right; right; left; reflexivity|].
    exists "O", "RVI", "ETO". split; reflexivity.
  - destruct (proj2 search_by_name ("tern" +:+ utf8 [196; 177]))
      as (keep & Hkeep & ->).
    eexists. split; [|apply filter_In; split;
                       [right; right; right; left; reflexivity|]]; [reflexivity|].
    apply Hkeep; [right; right; right; left; reflexivity|].
    exists "", "TERNI", "". split; reflexivity.
Defined.

Lemma all_digits_cstr c : all_digits c = true -> C.cstr c = c.
Proof.
  induction c as [|d c IH]; simpl; [reflexivity|].
  rewrite andb_true_iff. intros [Hd Hc].
  destruct (Ascii.eqb d C.NUL) eqn:E.
  - apply Ascii.eqb_eq in E. subst d. discriminate Hd.
  - rewrite IH by exact Hc. reflexivity.
Qed.

Lemma eqb_digit_toupper d x :
  C.isdigit d = true -> Ascii.eqb d (C.toupper x) = Ascii.eqb d x.
Proof.
  intros Hd. apply eq_true_iff_eq. rewrite !Ascii.eqb_eq.
  pose proof (toupper_digit x d Hd) as H. split; intros E; symmetry; apply H;
    symmetry; exact E.
Qed.

(** Upper-casing a query never turns it into, or away from, a text made
    of digits. *)
Lemma digit_neq d x :
  C.isdigit d = true -> C.isdigit x = false -> Ascii.eqb d x = false.
Proof. intros Hd Hx. apply Ascii.eqb_neq. intros ->. congruence. Qed.

Lemma eqb_digits_strup c q :
  all_digits c = true ->
  String.eqb c (C.g_utf8_strup q) = String.eqb c (C.cstr q).
Proof.
  revert q. induction c as [|d c IH]; intros q Hc.
  - destruct q as [|x q]; [reflexivity|]. rewrite strup_unfold. cbn [C.cstr].
    destruct (Ascii.eqb x C.NUL); [reflexivity|].
    destruct (upper_at (String x q)) as [[upper rest]|] eqn:Eu; [|reflexivity].
    apply upper_at_Some in Eu as (character & letters & Hin & _ & ->).
    unfold lower_spellings in Hin. cbn [In] in Hin.
    repeat (destruct Hin as [Hin | Hin]; [injection Hin as <- <-; reflexivity|]).
    contradiction.
  - simpl in Hc. apply andb_true_iff in Hc as [Hd Hc].
    destruct q as [|x q]; [reflexivity|]. rewrite strup_unfold. cbn [C.cstr].
    destruct (Ascii.eqb x C.NUL); [reflexivity|].
    destruct (upper_at (String x q)) as [[upper rest]|] eqn:Eu.
    + apply upper_at_Some in Eu as (character & letters & Hin & Es & ->).
      unfold lower_spellings in Hin. cbn [In] in Hin.
      repeat (destruct Hin as [Hin | Hin];
              [injection Hin as <- <-;
               simpl in Es; injection Es as -> _; simpl;
               rewrite !(fun y => digit_neq d y Hd) by reflexivity;
               reflexivity|]).
      contradiction.
    + cbn [String.eqb]. rewrite (eqb_digit_toupper d x Hd), (IH q Hc). reflexivity.
Qed.

Lemma streq_digits_strup c q :
  all_digits c = true -> C.streq c (C.g_utf8_strup q) = C.streq c q.
Proof.
  intros Hc. unfold C.streq.
  rewrite cstr_strup, (all_digits_cstr c Hc). apply eqb_digits_strup, Hc.
Qed.

(** Every code of the registry is a text of digits. *)
Lemma registry_codes_digits l : In l WTR_LOCATIONS -> all_digits (code l) = true.
Proof.
  intros Hl. repeat (destruct Hl as [<- | Hl]; [reflexivity|]). destruct Hl.
Qed.

(** C9: for every query q, searching with EXACT_CODE returns exactly the
    locations of the registry whose code equals q as a C string, byte
    for byte, in registry order.  (The source upper-cases the query
    first; against codes made of digits that changes no answer.) *)
Theorem search_by_code q :
  wtr_location_search q WTR_SEARCH_LOCATION_EXACT_CODE =
  List.filter (fun l => C.streq (code l) q) WTR_LOCATIONS.
Proof.
  rewrite wtr_location_search_filter. apply List.filter_ext_in.
  intros l Hl. unfold wtr_location_matches. simpl.
  apply streq_digits_strup, registry_codes_digits, Hl.
Qed.

(** ** libutils: the typed attribute accessors *)

Lemma isdigit_code c : C.isdigit c = true -> 48 <= C.code c <= 57.
Proof. unfold C.isdigit. rewrite andb_true_iff, !Z.leb_le. tauto. Qed.

Lemma isdigit_not_NUL c : C.isdigit c = true -> Ascii.eqb c C.NUL = false.
Proof.
  intros Hd. apply Ascii.eqb_neq. intros ->. discriminate Hd.
Qed.

(** [read_digits] stops at the first byte that is no digit: at the
    terminator exactly when the text is all digits, and then with the
    number the digits spell. *)
Lemma read_digits_spec u : forall acc, 0 <= acc ->
  acc <= fst (read_digits acc u) /\
  Ascii.eqb (C.deref (snd (read_digits acc u))) C.NUL = all_digits (C.cstr u) /\
  (all_digits (C.cstr u) = true ->
   fst (read_digits acc u) = digits_number acc (C.cstr u)).
Proof.
  induction u as [|c u IH]; intros acc Hacc; simpl.
  - split; [lia|]. split; reflexivity.
  - destruct (C.isdigit c) eqn:Hd.
    + pose proof (isdigit_code c Hd) as Hc.
      rewrite (isdigit_not_NUL c Hd). simpl. rewrite Hd. simpl.
      destruct (IH (10 * acc + (C.code c - 48))) as (Hle & Hend & Hval); [lia|].
      split; [lia|]. split; assumption.
    + simpl. destruct (Ascii.eqb c C.NUL) eqn:En; simpl.
      * split; [lia|]. split; reflexivity.
      * rewrite Hd. simpl. split; [lia|]. split; [reflexivity | discriminate].
Qed.


(** The body of [str2int] after the sign, against the literal. *)
Lemma str2int_core (out : cell Z) (negative : bool) (u s0 : string) :
  Ascii.eqb (C.deref s0) C.NUL = false ->
  (let '(l, end_, erange) :=
     if C.isdigit (C.deref u) then
       let '(m, rest) := read_digits 0 u in
       let v := if negative then - m else m in
       if LONG_MAX <? v then (LONG_MAX, rest, true)
       else if v <? LONG_MIN then (LONG_MIN, rest, true)
       else (v, rest, false)
     else (0, s0, false) in
   if (INT_MAX <? l) || (erange && (l =? LONG_MAX)) then
     Ret (STR2INT_OVERFLOW, out)
   else if (l <? INT_MIN) || (erange && (l =? LONG_MIN)) then
     Ret (STR2INT_UNDERFLOW, out)
   else if negb (Ascii.eqb (C.deref end_) C.NUL) then
     Ret (STR2INT_INCONVERTIBLE, out)
   else Ret (STR2INT_SUCCESS, Stored l)) =
  match
    (if negb (String.eqb (C.cstr u) "") && all_digits (C.cstr u) then
       Some (if negative then - digits_number 0 (C.cstr u)
             else digits_number 0 (C.cstr u))
     else None)
  with
  | Some z =>
      if (INT_MIN <=? z) && (z <=? INT_MAX) then Ret (STR2INT_SUCCESS, Stored z)
      else if INT_MAX <? z then Ret (STR2INT_OVERFLOW, out)
      else Ret (STR2INT_UNDERFLOW, out)
  | None =>
      if C.isdigit (C.deref u) then
        let v := if negative then - fst (read_digits 0 u) else fst (read_digits 0 u) in
        if INT_MAX <? v then Ret (STR2INT_OVERFLOW, out)
        else if v <? INT_MIN then Ret (STR2INT_UNDERFLOW, out)
        else Ret (STR2INT_INCONVERTIBLE, out)
      else Ret (STR2INT_INCONVERTIBLE, out)
  end.
Proof.
  intros Hs0.
  destruct (C.isdigit (C.deref u)) eqn:Hd.
  - destruct u as [|d u]; [discriminate Hd|]. cbn [C.deref] in Hd.
    pose proof (read_digits_spec (String d u) 0 (Z.le_refl 0)) as (Hle & Hend & Hval).
    destruct (read_digits 0 (String d u)) as [m rest]. cbn [fst snd] in *.
    assert (Hne : String.eqb (C.cstr (String d u)) "" = false).
    { cbn [C.cstr]. rewrite (isdigit_not_NUL d Hd). reflexivity. }
    rewrite Hne. cbn [negb andb]. cbn beta iota zeta.
    destruct (all_digits (C.cstr (String d u))) eqn:Ha;
      [rewrite <- (Hval eq_refl)|];
      unfold LONG_MAX, LONG_MIN, INT_MAX, INT_MIN;
      destruct negative;
      repeat match goal with
        | |- context [if ?b then _ else _] => destruct b eqn:?
        end;
      cbn [fst snd] in *;
      try reflexivity; try lia;
      try (rewrite Hend in *; discriminate).
  - assert (Hno : negb (String.eqb (C.cstr u) "") && all_digits (C.cstr u) = false).
    { destruct u as [|d u]; [reflexivity|]. cbn [C.deref] in Hd. cbn [C.cstr].
      destruct (Ascii.eqb d C.NUL); [reflexivity|]. simpl. rewrite Hd. reflexivity. }
    rewrite Hno, Hs0. reflexivity.
Qed.

(** [str2int] on a text that is there: success, with the number the
    text spells, exactly when the text is a decimal literal of an
    [int]; any other status leaves the variable alone. *)
Lemma str2int_spec out s :
  match decimal_literal s with
  | Some z =>
      if (INT_MIN <=? z) && (z <=? INT_MAX) then
        str2int out (Some s) = Ret (STR2INT_SUCCESS, Stored z)
      else
        exists status,
          status <> STR2INT_SUCCESS /\ str2int out (Some s) = Ret (status, out)
  | None =>
      exists status,
        status <> STR2INT_SUCCESS /\ str2int out (Some s) = Ret (status, out)
  end.
Proof.
  unfold str2int, decimal_literal.
  destruct s as [|c s]; [cbn; eexists; split; [|reflexivity]; discriminate|].
  cbn [C.deref C.cstr].
  destruct (Ascii.eqb c C.NUL) eqn:En;
    [cbn; eexists; split; [|reflexivity]; discriminate|].
  cbn [orb C.deref C.next].
  destruct (C.isspace c) eqn:Hsp.
  { assert (Ascii.eqb c "-" = false) as ->
      by (apply Ascii.eqb_neq; intros ->; discriminate Hsp).
    assert (Ascii.eqb c "+" = false) as ->
      by (apply Ascii.eqb_neq; intros ->; discriminate Hsp).
    cbn [orb negb andb all_digits String.eqb].
    assert (C.isdigit c = false) as ->.
    { destruct (C.isdigit c) eqn:Hd; [|reflexivity].
      apply isdigit_code in Hd. unfold C.isspace in Hsp.
      apply orb_true_iff in Hsp as [Hsp|Hsp]; [apply Z.eqb_eq in Hsp; lia|].
      apply andb_true_iff in Hsp as [_ Hsp]. apply Z.leb_le in Hsp. lia. }
    cbn. eexists. split; [|reflexivity]. discriminate. }
  unfold strtol. cbn [skip_spaces]. rewrite Hsp. cbn [C.deref]. cbv zeta.
  assert (Hu : (if Ascii.eqb c "-" || Ascii.eqb c "+" then C.cstr s
                else String c (C.cstr s))
               = C.cstr (if Ascii.eqb c "-" || Ascii.eqb c "+"
                         then C.next (String c s) else String c s)).
  { destruct (Ascii.eqb c "-" || Ascii.eqb c "+"); cbn [C.next C.cstr];
      [|rewrite En]; reflexivity. }
  rewrite Hu.
  pose proof (str2int_core out (Ascii.eqb c "-")
                (if Ascii.eqb c "-" || Ascii.eqb c "+"
                 then C.next (String c s) else String c s)
                (String c s) En) as Hcore.
  cbv zeta in Hcore. rewrite Hcore. clear Hcore.
  repeat match goal with
    | |- context [if ?b then _ else _] => destruct b
    end; cbv zeta;
    first [ reflexivity | eexists; split; [|reflexivity]; discriminate ].
Qed.
Section LibutilsProperties.
Context `{Externals}.

(** On a string that is there, [str2int] returns; it stores a value
    exactly when it reports success. *)
Lemma str2int_returns out s :
  exists status o,
    str2int out (Some s) = Ret (status, o) /\
    (status = STR2INT_SUCCESS -> exists l, o = Stored l) /\
    (status <> STR2INT_SUCCESS -> o = out).
Proof.
  unfold str2int.
  destruct (Ascii.eqb (C.deref s) C.NUL || C.isspace (C.deref s)).
  { eexists _, _. split; [reflexivity|]. split; [discriminate | reflexivity]. }
  destruct (strtol s) as [[l end_] erange].
  repeat match goal with
         | |- context [if ?b then _ else _] => destruct b
         end;
    eexists _, _; (split; [reflexivity|]);
    (split; [ intros; try discriminate; eauto | intros; try congruence ]).
Qed.

Lemma str2double_returns out s :
  exists status o,
    str2double out (Some s) = Ret (status, o) /\
    (status = STR2DOUBLE_SUCCESS -> exists d, o = Stored d) /\
    (status <> STR2DOUBLE_SUCCESS -> o = out).
Proof.
  unfold str2double.
  destruct (Ascii.eqb (C.deref s) C.NUL || C.isspace (C.deref s)).
  { eexists _, _. split; [reflexivity|]. split; [discriminate | reflexivity]. }
  destruct (strtod s) as [[d end_] erange].
  repeat match goal with
         | |- context [if ?b then _ else _] => destruct b
         end;
    eexists _, _; (split; [reflexivity|]);
    (split; [ intros; try discriminate; eauto | intros; try congruence ]).
Qed.

Lemma str2int_errno_eqb_eq a b : str2int_errno_eqb a b = true <-> a = b.
Proof. destruct a, b; simpl; split; congruence. Qed.

Lemma str2double_errno_eqb_eq a b : str2double_errno_eqb a b = true <-> a = b.
Proof. destruct a, b; simpl; split; congruence. Qed.

(** An attribute that is there makes [xmlGetPropInt] return: the number
    [str2int] found, [INT_MIN] when it found none. *)
Lemma xmlGetPropInt_present node property s :
  xmlGetProp node property = Some s ->
  exists status o i,
    str2int Indeterminate (Some s) = Ret (status, o) /\
    xmlGetPropInt node property = Ret i /\
    (status = STR2INT_SUCCESS -> o = Stored i) /\
    (status <> STR2INT_SUCCESS -> i = INT_MIN).
Proof.
  intros Hs. unfold xmlGetPropInt. rewrite Hs.
  destruct (str2int_returns Indeterminate s) as (status & o & E & Hok & Hko).
  exists status, o. rewrite E. simpl.
  destruct (str2int_errno_eqb status STR2INT_SUCCESS) eqn:Es; simpl.
  - apply str2int_errno_eqb_eq in Es. destruct (Hok Es) as [l ->].
    exists l. split; [reflexivity|]. split; [reflexivity|].
    split; [reflexivity | congruence].
  - exists INT_MIN. split; [reflexivity|]. split; [reflexivity|].
    split; [intros ->; discriminate Es | reflexivity].
Qed.

Lemma xmlGetPropDouble_present node property s :
  xmlGetProp node property = Some s ->
  exists status o d,
    str2double Indeterminate (Some s) = Ret (status, o) /\
    xmlGetPropDouble node property = Ret d /\
    (status = STR2DOUBLE_SUCCESS -> o = Stored d) /\
    (status <> STR2DOUBLE_SUCCESS -> d = DBL_MIN).
Proof.
  intros Hs. unfold xmlGetPropDouble. rewrite Hs.
  destruct (str2double_returns Indeterminate s) as (status & o & E & Hok & Hko).
  exists status, o. rewrite E. simpl.
  destruct (str2double_errno_eqb status STR2DOUBLE_SUCCESS) eqn:Es; simpl.
  - apply str2double_errno_eqb_eq in Es. destruct (Hok Es) as [l ->].
    exists l. split; [reflexivity|]. split; [reflexivity|].
    split; [reflexivity | congruence].
  - exists DBL_MIN. split; [reflexivity|]. split; [reflexivity|].
    split; [intros ->; discriminate Es | reflexivity].
Qed.


(** An attribute that is not there is read through NULL. *)
Lemma xmlGetPropInt_absent node property :
  xmlGetProp node property = None ->
  xmlGetPropInt node property = Crash NullDereference.
Proof. intros E. unfold xmlGetPropInt. rewrite E. reflexivity. Qed.

Lemma xmlGetPropDouble_absent node property :
  xmlGetProp node property = None ->
  xmlGetPropDouble node property = Crash NullDereference.
Proof. intros E. unfold xmlGetPropDouble. rewrite E. reflexivity. Qed.

End LibutilsProperties.

(** [DBL_MIN] is a positive number: zero and every negative double lie
    below it. *)
Lemma DBL_MIN_not_least :
  SFltb (S754_zero false) DBL_MIN = true /\
  SFltb (SFopp DBL_MAX) DBL_MIN = true /\
  valid_binary 53 1024 DBL_MIN = true /\
  valid_binary 53 1024 (SFopp DBL_MAX) = true.
Proof. repeat split; vm_compute; reflexivity. Qed.

(** ** The document parser *)

(** A node has one name: it answers to two tags only if they are the
    same text. *)
Lemma is_tag_exclusive child a b :
  is_tag child a = true -> is_tag child b = true -> C.cstr a = C.cstr b.
Proof.
  unfold is_tag, C.g_strcmp0_eq, C.streq.
  destruct (xml_name child) as [x|]; [|discriminate].
  rewrite !String.eqb_eq. congruence.
Qed.

Lemma is_tag_other child a b :
  is_tag child a = true -> C.cstr a <> C.cstr b -> is_tag child b = false.
Proof.
  intros Ha Hne. destruct (is_tag child b) eqn:Hb; [|reflexivity].
  destruct Hne. exact (is_tag_exclusive child a b Ha Hb).
Qed.

Lemma tagged_false tags child tag :
  tagged tags child = false -> In tag tags -> is_tag child tag = false.
Proof.
  unfold tagged. induction tags as [|t tags IH]; simpl; [tauto|].
  rewrite orb_false_iff. intros [Ht Hts] [<- | Hin]; [exact Ht | exact (IH Hts Hin)].
Qed.

(** Rewrites every tag test under the hypothesis at hand: the tag the
    child has, or that it has none of the known ones. *)
Ltac settle_tags :=
  repeat match goal with
    | T : is_tag ?c ?a = true |- context [is_tag ?c ?b] =>
        first
          [ rewrite T
          | let E := fresh "E" in
            assert (E : is_tag c b = false)
              by (apply (is_tag_other c a b T); vm_compute; discriminate);
            rewrite E ]
    | N : tagged ?tags ?c = false |- context [is_tag ?c ?b] =>
        let E := fresh "E" in
        assert (E : is_tag c b = false)
          by (apply (tagged_false tags c b N); simpl; tauto);
        rewrite E
    end.

Section ParserProperties.
Context `{Externals}.

Lemma for_each_child_inv {S : Type} (body : xmlNode -> S -> outcome S)
    (I : S -> list xmlNode -> S -> Prop) :
  (forall s, I s [] s) ->
  (forall s child s1 next s2,
     body child s = Ret s1 -> I s1 next s2 -> I s (child :: next) s2) ->
  forall children s s',
    for_each_child body children s = Ret s' -> I s children s'.
Proof.
  intros Hnil Hcons. induction children as [|child next IH]; intros s s' E.
  - simpl in E. injection E as <-. apply Hnil.
  - simpl in E. destruct (body child s) as [s1|f] eqn:Eb; [|discriminate E].
    simpl in E. exact (Hcons s child s1 next s' Eb (IH s1 s' E)).
Qed.

Lemma for_each_child_crash {S : Type} (body : xmlNode -> S -> outcome S)
    child next s f :
  body child s = Crash f -> for_each_child body (child :: next) s = Crash f.
Proof. intros E. simpl. rewrite E. reflexivity. Qed.

(** What one turn of the loop of [wtr_forecast_parse_hour] did, when it
    came back. *)
Lemma wtr_forecast_parse_hour_child_cases child hour hour' :
  wtr_forecast_parse_hour_child child hour = Ret hour' ->
  (is_tag child "symbol" = true /\ exists v, hour' = set_hour_weather v hour) \/
  (is_tag child "temp" = true /\ exists v, hour' = set_temp v hour) \/
  (is_tag child "wind" = true /\ exists v,
     hour' = set_hour_wind_speed v (set_wind_dir (xmlGetProp child "dir") hour)) \/
  (is_tag child "rain" = true /\ exists v, hour' = set_hour_rain v hour) \/
  (is_tag child "humidity" = true /\ exists v, hour' = set_hour_humidity v hour) \/
  (is_tag child "pressure" = true /\ exists v, hour' = set_hour_pressure v hour) \/
  (tagged hour_tags child = false /\ hour' = hour).
Proof.
  unfold wtr_forecast_parse_hour_child, tagged, hour_tags. simpl existsb.
  intros E.
  repeat match type of E with
    | (if is_tag child ?t then _ else _) = _ =>
        destruct (is_tag child t) eqn:?
    end;
    try (match type of E with
         | context [xmlGetPropInt ?c ?p] => destruct (xmlGetPropInt c p) as [v|]
         | context [xmlGetPropDouble ?c ?p] => destruct (xmlGetPropDouble c p) as [v|]
         end; [|discriminate E]);
    cbn in E; injection E as <-;
    repeat first [ split; [reflexivity|]; eexists; reflexivity
                 | split; reflexivity
                 | left; split; [reflexivity|]; eexists; reflexivity
                 | right ].
Qed.

(** The same for the loop of [wtr_forecast_parse_day]. *)
Lemma wtr_forecast_parse_day_child_cases child day day' :
  wtr_forecast_parse_day_child child day = Ret day' ->
  (is_tag child "symbol" = true /\ exists v, day' = set_day_weather v day) \/
  (is_tag child "tempmin" = true /\ exists v, day' = set_temp_min v day) \/
  (is_tag child "tempmax" = true /\ exists v, day' = set_temp_max v day) \/
  (is_tag child "wind" = true /\ exists v, day' = set_day_wind_speed v day) \/
  (is_tag child "rain" = true /\ exists v, day' = set_day_rain v day) \/
  (is_tag child "humidity" = true /\ exists v, day' = set_day_humidity v day) \/
  (is_tag child "pressure" = true /\ exists v, day' = set_day_pressure v day) \/
  (is_tag child "hour" = true /\ exists hour day_hours,
     wtr_forecast_parse_hour child day = Ret hour /\
     hours day = Stored day_hours /\
     day' = set_hours (g_list_append day_hours hour) day) \/
  (tagged (day_tags ++ ["hour"]) child = false /\ day' = day).
Proof.
  unfold wtr_forecast_parse_day_child, tagged, day_tags. simpl existsb.
  intros E.
  repeat match type of E with
    | (if is_tag child ?t then _ else _) = _ =>
        destruct (is_tag child t) eqn:?
    end;
    try (match type of E with
         | context [xmlGetPropInt ?c ?p] => destruct (xmlGetPropInt c p) as [v|]
         | context [xmlGetPropDouble ?c ?p] => destruct (xmlGetPropDouble c p) as [v|]
         | context [wtr_forecast_parse_hour ?c ?d] =>
             destruct (wtr_forecast_parse_hour c d) as [v|] eqn:?;
             [destruct (hours d) as [|day_hours] eqn:?|]
         end; try discriminate E);
    cbn in E; injection E as <-;
    repeat first [ split; [reflexivity|]; eexists; reflexivity
                 | split; [reflexivity|]; eexists _, _;
                   split; [reflexivity|]; split; reflexivity
                 | split; reflexivity
                 | left; split; [reflexivity|]; eexists; reflexivity
                 | left; split; [reflexivity|]; eexists _, _;
                   split; [reflexivity|]; split; reflexivity
                 | right ].
Qed.

(** *** Which fields the loops assign

    A field is assigned in the turn of a child that carries the field's
    tag, and in no other. *)

Ltac which_case E :=
  repeat match type of E with
    | _ \/ _ => destruct E as [E | E]
    end;
  repeat match type of E with
    | _ /\ _ => let T := fresh "T" in destruct E as [T E]
    | exists _, _ => let v := fresh "v" in destruct E as [v E]
    end;
  subst.

Ltac same_or_stored :=
  simpl; settle_tags;
  split;
    [ let X := fresh in
      intros X; first [discriminate X | split; [exact X | reflexivity]]
    | let X := fresh in let Y := fresh in
      intros [X Y]; first [discriminate Y | exact X] ].

Lemma field_through_loop {S A : Type} (body : xmlNode -> S -> outcome S)
    (field : S -> cell A) (tag : string) :
  (forall child s s1, body child s = Ret s1 ->
     field s1 = Indeterminate <->
     field s = Indeterminate /\ is_tag child tag = false) ->
  forall children s s',
    for_each_child body children s = Ret s' ->
    field s' = Indeterminate <->
    field s = Indeterminate /\
    forallb (fun child => negb (is_tag child tag)) children = true.
Proof.
  intros Hstep.
  apply (for_each_child_inv body
           (fun s children s' =>
              field s' = Indeterminate <->
              field s = Indeterminate /\
              forallb (fun child => negb (is_tag child tag)) children = true)).
  - intros s. simpl. tauto.
  - intros s child s1 next s2 Eb IH. simpl.
    rewrite IH, (Hstep child s s1 Eb), andb_true_iff, negb_true_iff. tauto.
Qed.

Lemma hour_child_hour_weather child hour hour' :
  wtr_forecast_parse_hour_child child hour = Ret hour' ->
  hour_weather hour' = Indeterminate <->
  hour_weather hour = Indeterminate /\ is_tag child "symbol" = false.
Proof.
  intros E. apply wtr_forecast_parse_hour_child_cases in E.
  which_case E; same_or_stored.
Qed.

Lemma hour_child_temp child hour hour' :
  wtr_forecast_parse_hour_child child hour = Ret hour' ->
  temp hour' = Indeterminate <->
  temp hour = Indeterminate /\ is_tag child "temp" = false.
Proof.
  intros E. apply wtr_forecast_parse_hour_child_cases in E.
  which_case E; same_or_stored.
Qed.

Lemma hour_child_hour_wind_speed child hour hour' :
  wtr_forecast_parse_hour_child child hour = Ret hour' ->
  hour_wind_speed hour' = Indeterminate <->
  hour_wind_speed hour = Indeterminate /\ is_tag child "wind" = false.
Proof.
  intros E. apply wtr_forecast_parse_hour_child_cases in E.
  which_case E; same_or_stored.
Qed.

Lemma hour_child_hour_rain child hour hour' :
  wtr_forecast_parse_hour_child child hour = Ret hour' ->
  hour_rain hour' = Indeterminate <->
  hour_rain hour = Indeterminate /\ is_tag child "rain" = false.
Proof.
  intros E. apply wtr_forecast_parse_hour_child_cases in E.
  which_case E; same_or_stored.
Qed.

Lemma hour_child_hour_humidity child hour hour' :
  wtr_forecast_parse_hour_child child hour = Ret hour' ->
  hour_humidity hour' = Indeterminate <->
  hour_humidity hour = Indeterminate /\ is_tag child "humidity" = false.
Proof.
  intros E. apply wtr_forecast_parse_hour_child_cases in E.
  which_case E; same_or_stored.
Qed.

Lemma hour_child_hour_pressure child hour hour' :
  wtr_forecast_parse_hour_child child hour = Ret hour' ->
  hour_pressure hour' = Indeterminate <->
  hour_pressure hour = Indeterminate /\ is_tag child "pressure" = false.
Proof.
  intros E. apply wtr_forecast_parse_hour_child_cases in E.
  which_case E; same_or_stored.
Qed.

Lemma day_child_day_weather child day day' :
  wtr_forecast_parse_day_child child day = Ret day' ->
  day_weather day' = Indeterminate <->
  day_weather day = Indeterminate /\ is_tag child "symbol" = false.
Proof.
  intros E. apply wtr_forecast_parse_day_child_cases in E.
  which_case E; same_or_stored.
Qed.

Lemma day_child_temp_min child day day' :
  wtr_forecast_parse_day_child child day = Ret day' ->
  temp_min day' = Indeterminate <->
  temp_min day = Indeterminate /\ is_tag child "tempmin" = false.
Proof.
  intros E. apply wtr_forecast_parse_day_child_cases in E.
  which_case E; same_or_stored.
Qed.

Lemma day_child_temp_max child day day' :
  wtr_forecast_parse_day_child child day = Ret day' ->
  temp_max day' = Indeterminate <->
  temp_max day = Indeterminate /\ is_tag child "tempmax" = false.
Proof.
  intros E. apply wtr_forecast_parse_day_child_cases in E.
  which_case E; same_or_stored.
Qed.

Lemma day_child_day_wind_speed child day day' :
  wtr_forecast_parse_day_child child day = Ret day' ->
  day_wind_speed day' = Indeterminate <->
  day_wind_speed day = Indeterminate /\ is_tag child "wind" = false.
Proof.
  intros E. apply wtr_forecast_parse_day_child_cases in E.
  which_case E; same_or_stored.
Qed.

Lemma day_child_day_rain child day day' :
  wtr_forecast_parse_day_child child day = Ret day' ->
  day_rain day' = Indeterminate <->
  day_rain day = Indeterminate /\ is_tag child "rain" = false.
Proof.
  intros E. apply wtr_forecast_parse_day_child_cases in E.
  which_case E; same_or_stored.
Qed.

Lemma day_child_day_humidity child day day' :
  wtr_forecast_parse_day_child child day = Ret day' ->
  day_humidity day' = Indeterminate <->
  day_humidity day = Indeterminate /\ is_tag child "humidity" = false.
Proof.
  intros E. apply wtr_forecast_parse_day_child_cases in E.
  which_case E; same_or_stored.
Qed.

Lemma day_child_day_pressure child day day' :
  wtr_forecast_parse_day_child child day = Ret day' ->
  day_pressure day' = Indeterminate <->
  day_pressure day = Indeterminate /\ is_tag child "pressure" = false.
Proof.
  intros E. apply wtr_forecast_parse_day_child_cases in E.
  which_case E; same_or_stored.
Qed.

(** *** What the loops keep *)

Lemma hour_loop_keeps children hour hour' :
  for_each_child wtr_forecast_parse_hour_child children hour = Ret hour' ->
  tstamp hour' = tstamp hour /\
  (is_stored (wind_dir hour) -> is_stored (wind_dir hour')).
Proof.
  apply (for_each_child_inv wtr_forecast_parse_hour_child
           (fun s _ s' =>
              tstamp s' = tstamp s /\
              (is_stored (wind_dir s) -> is_stored (wind_dir s')))).
  - intros s. tauto.
  - intros s child s1 next s2 E [IHt IHw].
    apply wtr_forecast_parse_hour_child_cases in E. which_case E;
      simpl in *; (split; [exact IHt|]); intros Hw; apply IHw;
      first [exact Hw | eexists; reflexivity].
Qed.

(** The hours of a day, in the order of its "hour" children; every
    other child leaves them alone, and none touches the date. *)
Lemma day_loop_shape children day day' :
  for_each_child wtr_forecast_parse_day_child children day = Ret day' ->
  date day' = date day /\
  forall day_hours, hours day = Stored day_hours ->
    exists more,
      hours day' = Stored (day_hours ++ more)%list /\
      Forall2
        (fun xmlHour hour =>
           exists d, date d = date day /\
                     wtr_forecast_parse_hour xmlHour d = Ret hour)
        (List.filter (fun child => is_tag child "hour") children) more.
Proof.
  apply (for_each_child_inv wtr_forecast_parse_day_child
           (fun s children s' =>
              date s' = date s /\
              forall day_hours, hours s = Stored day_hours ->
                exists more,
                  hours s' = Stored (day_hours ++ more)%list /\
                  Forall2
                    (fun xmlHour hour =>
                       exists d, date d = date s /\
                                 wtr_forecast_parse_hour xmlHour d = Ret hour)
                    (List.filter (fun child => is_tag child "hour") children)
                    more)).
  - intros s. split; [reflexivity|]. intros day_hours E.
    exists []. rewrite app_nil_r. split; [exact E | constructor].
  - intros s child s1 next s2 E [IHd IHh].
    apply wtr_forecast_parse_day_child_cases in E.
    repeat match type of E with
      | _ \/ _ => destruct E as [E | E]
      end.
    9: { destruct E as [N ->]. simpl. settle_tags. split; [exact IHd | exact IHh]. }
    8: { destruct E as (T & hour & hs & Eh & Ehs & ->). simpl in *. rewrite T.
         split; [exact IHd|]. intros day_hours Es.
         rewrite Ehs in Es. injection Es as <-.
         destruct (IHh _ eq_refl) as (more & Em & HF).
         exists (hour :: more). unfold g_list_append in Em.
         rewrite <- app_assoc in Em. split; [exact Em|].
         constructor; [exists s; split; [reflexivity | exact Eh] | exact HF]. }
    all: destruct E as (T & v & ->); simpl in *; settle_tags;
      (split; [exact IHd | exact IHh]).
Qed.

(** *** The two parsers of elements *)

(** An hour that came back has its time stamp and wind direction
    assigned, and each number exactly when a child carries its tag. *)
Lemma wtr_forecast_parse_hour_fields xmlHour day hour :
  wtr_forecast_parse_hour xmlHour day = Ret hour ->
  is_stored (tstamp hour) /\ is_stored (wind_dir hour) /\
  (hour_weather hour = Indeterminate <-> no_child "symbol" xmlHour = true) /\
  (temp hour = Indeterminate <-> no_child "temp" xmlHour = true) /\
  (hour_wind_speed hour = Indeterminate <-> no_child "wind" xmlHour = true) /\
  (hour_rain hour = Indeterminate <-> no_child "rain" xmlHour = true) /\
  (hour_humidity hour = Indeterminate <-> no_child "humidity" xmlHour = true) /\
  (hour_pressure hour = Indeterminate <-> no_child "pressure" xmlHour = true).
Proof.
  unfold wtr_forecast_parse_hour, no_child. intros E.
  destruct (parseDateTime (xmlGetProp xmlHour "value") "%H:%M") as [only_time|];
    [|discriminate E].
  cbn in E. destruct (read (date day)) as [day_date|]; [|discriminate E].
  cbn in E.
  destruct (hour_loop_keeps _ _ _ E) as [Ht Hw].
  split; [rewrite Ht; eexists; reflexivity|].
  split; [apply Hw; eexists; reflexivity|].
  pose proof (field_through_loop _ hour_weather "symbol" hour_child_hour_weather _ _ _ E).
  pose proof (field_through_loop _ temp "temp" hour_child_temp _ _ _ E).
  pose proof (field_through_loop _ hour_wind_speed "wind" hour_child_hour_wind_speed _ _ _ E).
  pose proof (field_through_loop _ hour_rain "rain" hour_child_hour_rain _ _ _ E).
  pose proof (field_through_loop _ hour_humidity "humidity" hour_child_hour_humidity _ _ _ E).
  pose proof (field_through_loop _ hour_pressure "pressure" hour_child_hour_pressure _ _ _ E).
  simpl in *. tauto.
Qed.

(** The same for a day: its date and its list of hours are assigned. *)
Lemma wtr_forecast_parse_day_fields xmlDay day :
  wtr_forecast_parse_day xmlDay = Ret day ->
  is_stored (date day) /\ is_stored (hours day) /\
  (day_weather day = Indeterminate <-> no_child "symbol" xmlDay = true) /\
  (temp_min day = Indeterminate <-> no_child "tempmin" xmlDay = true) /\
  (temp_max day = Indeterminate <-> no_child "tempmax" xmlDay = true) /\
  (day_wind_speed day = Indeterminate <-> no_child "wind" xmlDay = true) /\
  (day_rain day = Indeterminate <-> no_child "rain" xmlDay = true) /\
  (day_humidity day = Indeterminate <-> no_child "humidity" xmlDay = true) /\
  (day_pressure day = Indeterminate <-> no_child "pressure" xmlDay = true).
Proof.
  unfold wtr_forecast_parse_day, no_child. intros E.
  destruct (parseDateTime (xmlGetProp xmlDay "value") "%Y%m%d") as [day_date|];
    [|discriminate E].
  cbn in E.
  destruct (day_loop_shape _ _ _ E) as [Hd Hh].
  split; [rewrite Hd; eexists; reflexivity|].
  split; [destruct (Hh [] eq_refl) as (more & Em & _); eexists; exact Em|].
  pose proof (field_through_loop _ day_weather "symbol" day_child_day_weather _ _ _ E).
  pose proof (field_through_loop _ temp_min "tempmin" day_child_temp_min _ _ _ E).
  pose proof (field_through_loop _ temp_max "tempmax" day_child_temp_max _ _ _ E).
  pose proof (field_through_loop _ day_wind_speed "wind" day_child_day_wind_speed _ _ _ E).
  pose proof (field_through_loop _ day_rain "rain" day_child_day_rain _ _ _ E).
  pose proof (field_through_loop _ day_humidity "humidity" day_child_day_humidity _ _ _ E).
  pose proof (field_through_loop _ day_pressure "pressure" day_child_day_pressure _ _ _ E).
  simpl in *. tauto.
Qed.

(** *** When the parsers come back

    With every attribute they read in place, whatever its text. *)

Ltac read_value Hv :=
  unfold has_value in Hv;
  match type of Hv with
  | match xmlGetProp ?c ?p with _ => _ end = true =>
      let s := fresh "s" in let Ev := fresh "Ev" in
      destruct (xmlGetProp c p) as [s|] eqn:Ev; [|discriminate Hv];
      first
        [ destruct (xmlGetPropInt_present c p s Ev) as (_ & _ & ? & _ & -> & _)
        | destruct (xmlGetPropDouble_present c p s Ev) as (_ & _ & ? & _ & -> & _) ]
  end.

Lemma hour_child_returns child hour :
  implb (tagged hour_tags child) (has_value child) = true ->
  exists hour', wtr_forecast_parse_hour_child child hour = Ret hour'.
Proof.
  unfold wtr_forecast_parse_hour_child, tagged, hour_tags. simpl existsb.
  intros Hv.
  repeat match goal with
    | |- context [if is_tag child ?t then _ else _] =>
        destruct (is_tag child t) eqn:?
    end;
    simpl in Hv; try read_value Hv; eexists; reflexivity.
Qed.

Lemma hour_loop_returns children hour :
  forallb (fun child => implb (tagged hour_tags child) (has_value child))
    children = true ->
  exists hour', for_each_child wtr_forecast_parse_hour_child children hour = Ret hour'.
Proof.
  revert hour. induction children as [|child next IH]; intros hour Hall.
  - eexists. reflexivity.
  - simpl in Hall. apply andb_true_iff in Hall as [Hc Hn].
    destruct (hour_child_returns child hour Hc) as [hour1 E1].
    destruct (IH hour1 Hn) as [hour' E']. exists hour'. simpl. rewrite E1. exact E'.
Qed.

Lemma wtr_forecast_parse_hour_returns xmlHour day :
  hour_values_present xmlHour = true -> is_stored (date day) ->
  exists hour, wtr_forecast_parse_hour xmlHour day = Ret hour.
Proof.
  unfold hour_values_present, wtr_forecast_parse_hour, has_value.
  intros Hv [d Hd]. apply andb_true_iff in Hv as [Hv Hall].
  destruct (xmlGetProp xmlHour "value") as [s|]; [|discriminate Hv].
  rewrite Hd. cbn. apply hour_loop_returns, Hall.
Qed.

Lemma day_child_returns child day :
  implb (tagged day_tags child) (has_value child)
  && implb (tagged ["hour"] child) (hour_values_present child) = true ->
  is_stored (date day) -> is_stored (hours day) ->
  exists day', wtr_forecast_parse_day_child child day = Ret day'.
Proof.
  unfold wtr_forecast_parse_day_child, tagged, day_tags. simpl existsb.
  intros Hv Hd [hs Hh]. apply andb_true_iff in Hv as [Hv Hhour].
  repeat match goal with
    | |- context [if is_tag child ?t then _ else _] =>
        destruct (is_tag child t) eqn:?
    end;
    simpl in Hv; try read_value Hv; try (eexists; reflexivity).
  simpl in Hhour.
  destruct (wtr_forecast_parse_hour_returns child day Hhour Hd) as [hour ->].
  rewrite Hh. eexists. reflexivity.
Qed.

Lemma day_loop_returns children day :
  forallb (fun child =>
             implb (tagged day_tags child) (has_value child)
             && implb (tagged ["hour"] child) (hour_values_present child))
    children = true ->
  is_stored (date day) -> is_stored (hours day) ->
  exists day', for_each_child wtr_forecast_parse_day_child children day = Ret day'.
Proof.
  revert day. induction children as [|child next IH]; intros day Hall Hd Hh.
  - eexists. reflexivity.
  - simpl in Hall. apply andb_true_iff in Hall as [Hc Hn].
    destruct (day_child_returns child day Hc Hd Hh) as [day1 E1].
    assert (E : for_each_child wtr_forecast_parse_day_child [child] day = Ret day1)
      by (simpl; rewrite E1; reflexivity).
    apply day_loop_shape in E as [Ed Es].
    destruct Hh as [hs Hh]. destruct (Es hs Hh) as (more & Em & _).
    destruct (IH day1 Hn) as [day' E'].
    + rewrite Ed. exact Hd.
    + eexists. exact Em.
    + exists day'. simpl. rewrite E1. exact E'.
Qed.

Lemma wtr_forecast_parse_day_returns xmlDay :
  day_values_present xmlDay = true ->
  exists day, wtr_forecast_parse_day xmlDay = Ret day.
Proof.
  unfold day_values_present, wtr_forecast_parse_day, has_value.
  intros Hv. apply andb_true_iff in Hv as [Hv Hall].
  destruct (xmlGetProp xmlDay "value") as [s|]; [|discriminate Hv].
  cbn. apply day_loop_returns; [exact Hall | |]; eexists; reflexivity.
Qed.

(** *** The loop over the children of the location *)

Lemma forecast_loop_shape children forecast forecast' :
  for_each_child wtr_forecast_parse_child children forecast = Ret forecast' ->
  exists more,
    days forecast' = (days forecast ++ more)%list /\
    Forall2 (fun xmlDay day => wtr_forecast_parse_day xmlDay = Ret day)
      (List.filter (fun child => is_tag child "day") children) more.
Proof.
  apply (for_each_child_inv wtr_forecast_parse_child
           (fun s children s' =>
              exists more,
                days s' = (days s ++ more)%list /\
                Forall2 (fun xmlDay day => wtr_forecast_parse_day xmlDay = Ret day)
                  (List.filter (fun child => is_tag child "day") children) more)).
  - intros s. exists []. rewrite app_nil_r. split; [reflexivity | constructor].
  - intros s child s1 next s2 E (more & Em & HF).
    unfold wtr_forecast_parse_child in E. simpl.
    destruct (is_tag child "day"); simpl in E.
    + destruct (wtr_forecast_parse_day child) as [day|] eqn:Ed; [|discriminate E].
      cbn in E. injection E as <-. simpl in Em. unfold g_list_append in Em.
      rewrite <- app_assoc in Em. exists (day :: more).
      split; [exact Em | constructor; [exact Ed | exact HF]].
    + injection E as <-. exists more. split; [exact Em | exact HF].
Qed.

Lemma forecast_loop_returns children forecast :
  forallb (fun child => implb (is_tag child "day") (day_values_present child))
    children = true ->
  exists forecast',
    for_each_child wtr_forecast_parse_child children forecast = Ret forecast'.
Proof.
  revert forecast. induction children as [|child next IH]; intros forecast Hall.
  - eexists. reflexivity.
  - simpl in Hall. apply andb_true_iff in Hall as [Hc Hn].
    assert (exists forecast1,
               wtr_forecast_parse_child child forecast = Ret forecast1)
      as [forecast1 E1].
    { unfold wtr_forecast_parse_child. destruct (is_tag child "day"); simpl in *.
      - destruct (wtr_forecast_parse_day_returns child Hc) as [day ->].
        eexists. reflexivity.
      - eexists. reflexivity. }
    destruct (IH forecast1 Hn) as [forecast' E'].
    exists forecast'. simpl. rewrite E1. exact E'.
Qed.

(** *** [wtr_forecast_parse] *)

(** The five ways through [wtr_forecast_parse]. *)
Lemma wtr_forecast_parse_unfold content length w :
  wtr_forecast_parse content length w =
  match xmlReadMemory (C.take length content) with
  | None => (Ret None, told (Message "Failed to parse document") w)
  | Some doc =>
      let report := xmlDocGetRootElement doc in
      if is_tag report "report" then
        match xml_children report with
        | [] => (Crash NullDereference, w)
        | location :: _ =>
            if is_tag location "location" then
              (Some <$> for_each_child wtr_forecast_parse_child
                          (xml_children location) wtr_forecast_init, w)
            else
              (Ret None,
               told (Message
                 "Tiempo XML parsing error: location element inside report not found.") w)
        end
      else
        (Ret None,
         told (Message "Tiempo XML parsing error: root element report not found.") w)
  end.
Proof.
  unfold wtr_forecast_parse, is_tag.
  destruct (xmlReadMemory (C.take length content)) as [doc|]; [|reflexivity].
  cbv zeta.
  destruct (C.g_strcmp0_eq (xml_name (xmlDocGetRootElement doc)) (Some "report"));
    [|reflexivity].
  cbn [negb].
  destruct (xml_children (xmlDocGetRootElement doc)) as [|location rest];
    [reflexivity|].
  destruct (C.g_strcmp0_eq (xml_name location) (Some "location")); [|reflexivity].
  cbn [negb].
  destruct (for_each_child wtr_forecast_parse_child (xml_children location)
              wtr_forecast_init); reflexivity.
Qed.

(** What [wtr_forecast_parse] returns does not depend on the world. *)
Lemma wtr_forecast_parse_result content length w w0 :
  fst (wtr_forecast_parse content length w) =
  fst (wtr_forecast_parse content length w0).
Proof.
  rewrite !wtr_forecast_parse_unfold.
  destruct (xmlReadMemory (C.take length content)) as [doc|]; [|reflexivity].
  cbv zeta.
  destruct (is_tag (xmlDocGetRootElement doc) "report"); [|reflexivity].
  destruct (xml_children (xmlDocGetRootElement doc)) as [|location rest];
    [reflexivity|].
  destruct (is_tag location "location"); reflexivity.
Qed.

(** It adds to the trace at most lines on stderr, and touches nothing
    else. *)
Lemma wtr_forecast_parse_world content length w :
  untouched w (snd (wtr_forecast_parse content length w)).
Proof.
  unfold untouched.
  rewrite wtr_forecast_parse_unfold.
  destruct (xmlReadMemory (C.take length content)) as [doc|]; cbv zeta;
    [destruct (is_tag (xmlDocGetRootElement doc) "report");
     [destruct (xml_children (xmlDocGetRootElement doc)) as [|location rest];
      [|destruct (is_tag location "location")]|]|];
    simpl; repeat (split; [reflexivity|]);
    first [ exists []; rewrite app_nil_r; split; [reflexivity | constructor]
          | eexists [_]; split; [reflexivity|];
            constructor; [split; reflexivity | constructor] ].
Qed.

(** The directories are as they were. *)
Lemma wtr_forecast_parse_dirs content length w :
  dirs (snd (wtr_forecast_parse content length w)) = dirs w.
Proof.
  rewrite wtr_forecast_parse_unfold.
  destruct (xmlReadMemory (C.take length content)) as [doc|]; cbv zeta;
    [|reflexivity].
  destruct (is_tag (xmlDocGetRootElement doc) "report"); [|reflexivity].
  destruct (xml_children (xmlDocGetRootElement doc)) as [|location rest];
    [reflexivity|].
  destruct (is_tag location "location"); reflexivity.
Qed.

(** A root that is not a report: NULL, and the line that says so. *)
Lemma wtr_forecast_parse_not_report content length doc w :
  xmlReadMemory (C.take length content) = Some doc ->
  is_tag (xmlDocGetRootElement doc) "report" = false ->
  wtr_forecast_parse content length w =
  (Ret None,
   told (Message "Tiempo XML parsing error: root element report not found.") w).
Proof.
  intros Ed Er. rewrite wtr_forecast_parse_unfold, Ed. cbv zeta. rewrite Er.
  reflexivity.
Qed.

(** A report whose first child is there and is not a location: NULL,
    and the line that says so. *)
Lemma wtr_forecast_parse_not_location content length doc first rest w :
  xmlReadMemory (C.take length content) = Some doc ->
  is_tag (xmlDocGetRootElement doc) "report" = true ->
  xml_children (xmlDocGetRootElement doc) = first :: rest ->
  is_tag first "location" = false ->
  wtr_forecast_parse content length w =
  (Ret None,
   told (Message
     "Tiempo XML parsing error: location element inside report not found.") w).
Proof.
  intros Ed Er Ec El. rewrite wtr_forecast_parse_unfold, Ed. cbv zeta.
  rewrite Er, Ec, El. reflexivity.
Qed.

(** A valid document: the loop over the children of its location. *)
Lemma wtr_forecast_parse_valid content length doc w :
  xmlReadMemory (C.take length content) = Some doc ->
  structurally_valid doc = true ->
  wtr_forecast_parse content length w =
  (Some <$> for_each_child wtr_forecast_parse_child (location_children doc)
              wtr_forecast_init, w).
Proof.
  intros Ed Hv. rewrite wtr_forecast_parse_unfold, Ed. cbv zeta.
  unfold structurally_valid, location_children in *.
  apply andb_true_iff in Hv as [Hr Hl]. rewrite Hr.
  destruct (xml_children (xmlDocGetRootElement doc)) as [|location rest];
    [discriminate Hl|].
  rewrite Hl. reflexivity.
Qed.

(** The hours of a parsed day are its "hour" children, in order. *)
Lemma wtr_forecast_parse_day_hours xmlDay day :
  wtr_forecast_parse_day xmlDay = Ret day ->
  exists day_hours,
    hours day = Stored day_hours /\
    Forall2
      (fun xmlHour hour =>
         exists d, date d = date day /\
                   wtr_forecast_parse_hour xmlHour d = Ret hour)
      (hour_elements xmlDay) day_hours.
Proof.
  unfold wtr_forecast_parse_day, hour_elements. intros E.
  destruct (parseDateTime (xmlGetProp xmlDay "value") "%Y%m%d") as [day_date|];
    [|discriminate E].
  cbn in E. apply day_loop_shape in E as [Ed Eh].
  destruct (Eh [] eq_refl) as (more & Em & HF).
  exists more. split; [exact Em|]. rewrite Ed. exact HF.
Qed.

(** The days of a parsed document are the "day" children of its
    location, in order, each with its hours in order; and with every
    attribute in place the parse does come back with a forecast. *)
Lemma wtr_forecast_parse_days content length doc w :
  xmlReadMemory (C.take length content) = Some doc ->
  structurally_valid doc = true ->
  (forall forecast w',
     wtr_forecast_parse content length w = (Ret (Some forecast), w') ->
     w' = w /\
     Forall2
       (fun xmlDay day =>
          wtr_forecast_parse_day xmlDay = Ret day /\
          exists day_hours,
            hours day = Stored day_hours /\
            Forall2
              (fun xmlHour hour =>
                 exists d, date d = date day /\
                           wtr_forecast_parse_hour xmlHour d = Ret hour)
              (hour_elements xmlDay) day_hours)
       (day_elements doc) (days forecast)) /\
  (values_present doc = true ->
   exists forecast, wtr_forecast_parse content length w = (Ret (Some forecast), w)).
Proof.
  intros Ed Hv. rewrite (wtr_forecast_parse_valid content length doc w Ed Hv).
  split.
  - intros forecast w' E.
    destruct (for_each_child wtr_forecast_parse_child (location_children doc)
                wtr_forecast_init) as [f|] eqn:El; [|discriminate E].
    cbn in E. injection E as <- <-. split; [reflexivity|].
    apply forecast_loop_shape in El as (more & Em & HF).
    simpl in Em. subst more. unfold day_elements.
    eapply Forall2_impl; [exact HF|].
    intros xmlDay day E. split; [exact E|].
    apply wtr_forecast_parse_day_hours, E.
  - intros Hp.
    destruct (forecast_loop_returns (location_children doc) wtr_forecast_init Hp)
      as [forecast ->].
    exists forecast. reflexivity.
Qed.

(** In numbers: as many days as "day" elements, and in each as many
    hours as it has "hour" elements. *)
Lemma wtr_forecast_parse_counts content length doc w forecast w' :
  xmlReadMemory (C.take length content) = Some doc ->
  structurally_valid doc = true ->
  wtr_forecast_parse content length w = (Ret (Some forecast), w') ->
  map hour_count (days forecast) =
  map (fun xmlDay => Some (List.length (hour_elements xmlDay))) (day_elements doc).
Proof.
  intros Ed Hv E.
  destruct (wtr_forecast_parse_days content length doc w Ed Hv) as [Hs _].
  destruct (Hs forecast w' E) as [_ HF]. clear Hs E.
  induction HF as [|xmlDay day xs ds [_ (hs & Eh & Hh)] _ IH]; [reflexivity|].
  simpl. rewrite IH. f_equal. unfold hour_count. rewrite Eh.
  f_equal. symmetry. eapply Forall2_length, Hh.
Qed.

(** Five "day" elements, the first two with eight "hour" elements
    each: five days, eight hours in each of the first two. *)
Lemma five_days_of_eight_hours content length doc w forecast w' d1 d2 d3 d4 d5 :
  xmlReadMemory (C.take length content) = Some doc ->
  structurally_valid doc = true ->
  day_elements doc = [d1; d2; d3; d4; d5] ->
  List.length (hour_elements d1) = 8%nat ->
  List.length (hour_elements d2) = 8%nat ->
  wtr_forecast_parse content length w = (Ret (Some forecast), w') ->
  List.length (days forecast) = 5%nat /\
  exists day1 day2 others,
    days forecast = day1 :: day2 :: others /\
    hour_count day1 = Some 8%nat /\ hour_count day2 = Some 8%nat.
Proof.
  intros Ed Hv Hdays H1 H2 E.
  pose proof (wtr_forecast_parse_counts content length doc w forecast w' Ed Hv E)
    as Hc.
  rewrite Hdays in Hc. simpl in Hc. rewrite H1, H2 in Hc.
  destruct (days forecast) as [|day1 [|day2 [|day3 [|day4 [|day5 [|day6 more]]]]]];
    try discriminate Hc.
  simpl in Hc. injection Hc as E1 E2 _ _ _.
  split; [reflexivity|]. exists day1, day2, [day3; day4; day5]. auto.
Qed.

(** X1: of a document that passes both checks, the days of the
    forecast returned are the parses of the "day" children of its
    location, in document order, and the hours of each day the parses
    of the "hour" children of that element, in document order; with
    every attribute the parser reads in place, a forecast is returned
    and nothing is printed. *)
Theorem parsed_forecast_follows_document content length doc w :
  xmlReadMemory (C.take length content) = Some doc ->
  structurally_valid doc = true ->
  (forall forecast w',
     wtr_forecast_parse content length w = (Ret (Some forecast), w') ->
     w' = w /\
     Forall2
       (fun xmlDay day =>
          wtr_forecast_parse_day xmlDay = Ret day /\
          exists day_hours,
            hours day = Stored day_hours /\
            Forall2
              (fun xmlHour hour =>
                 exists d, date d = date day /\
                           wtr_forecast_parse_hour xmlHour d = Ret hour)
              (hour_elements xmlDay) day_hours)
       (day_elements doc) (days forecast)) /\
  (values_present doc = true ->
   exists forecast, wtr_forecast_parse content length w = (Ret (Some forecast), w)).
Proof. apply wtr_forecast_parse_days. Qed.

(** X2: a document of five "day" elements, the first two with eight
    "hour" elements each, that parses to a forecast gives five days,
    with eight hours in each of the first two. *)
Theorem five_days_with_eight_hours_each
    content length doc w forecast w' d1 d2 d3 d4 d5 :
  xmlReadMemory (C.take length content) = Some doc ->
  structurally_valid doc = true ->
  day_elements doc = [d1; d2; d3; d4; d5] ->
  List.length (hour_elements d1) = 8%nat ->
  List.length (hour_elements d2) = 8%nat ->
  wtr_forecast_parse content length w = (Ret (Some forecast), w') ->
  List.length (days forecast) = 5%nat /\
  exists day1 day2 others,
    days forecast = day1 :: day2 :: others /\
    hour_count day1 = Some 8%nat /\ hour_count day2 = Some 8%nat.
Proof. apply five_days_of_eight_hours. Qed.

(** X3: a root that is not named "report", and a report whose first
    child is there and is not named "location", each make
    [wtr_forecast_parse] return NULL after the line on stderr that says
    which; no forecast, whole or partial, is returned. *)
Theorem structure_checks_return_null content length doc w :
  xmlReadMemory (C.take length content) = Some doc ->
  (is_tag (xmlDocGetRootElement doc) "report" = false ->
   wtr_forecast_parse content length w =
   (Ret None,
    told (Message "Tiempo XML parsing error: root element report not found.") w)) /\
  (forall first rest,
     is_tag (xmlDocGetRootElement doc) "report" = true ->
     xml_children (xmlDocGetRootElement doc) = first :: rest ->
     is_tag first "location" = false ->
     wtr_forecast_parse content length w =
     (Ret None,
      told (Message
        "Tiempo XML parsing error: location element inside report not found.") w)).
Proof.
  intros Ed. split.
  - apply wtr_forecast_parse_not_report, Ed.
  - intros first rest. apply wtr_forecast_parse_not_location, Ed.
Qed.

(** *** Where the parser reads through NULL *)

Lemma day_child_valueless child day :
  tagged day_tags child = true -> xmlGetProp child "value" = None ->
  wtr_forecast_parse_day_child child day = Crash NullDereference.
Proof.
  unfold wtr_forecast_parse_day_child, tagged, day_tags. simpl existsb.
  intros Ht Hv.
  rewrite (xmlGetPropInt_absent child "value" Hv),
    (xmlGetPropDouble_absent child "value" Hv).
  repeat match goal with
    | |- context [if is_tag child ?t then _ else _] =>
        destruct (is_tag child t) eqn:?
    end; try reflexivity;
    repeat match goal with
      | E : is_tag child _ = false |- _ => rewrite E in Ht; clear E
      end;
    discriminate Ht.
Qed.

(** C4, where the code departs from it: a report with no child at all
    makes [wtr_forecast_parse] read the name of its first child through
    NULL, where the claim has it return the structure error. *)
Theorem empty_report_reads_through_null content length doc w :
  xmlReadMemory (C.take length content) = Some doc ->
  is_tag (xmlDocGetRootElement doc) "report" = true ->
  xml_children (xmlDocGetRootElement doc) = [] ->
  wtr_forecast_parse content length w = (Crash NullDereference, w).
Proof.
  intros Ed Er Ec. rewrite wtr_forecast_parse_unfold, Ed. cbv zeta.
  rewrite Er, Ec. reflexivity.
Qed.

(** C6, where the code departs from it: in a structurally valid
    document, a "day" element whose first child is one of the known
    measurements without a [value] makes the parse read through NULL;
    no forecast comes back. *)
Theorem valueless_measurement_reads_through_null
    content length doc xmlDay rest day_value child others w :
  xmlReadMemory (C.take length content) = Some doc ->
  structurally_valid doc = true ->
  location_children doc = xmlDay :: rest ->
  is_tag xmlDay "day" = true ->
  xmlGetProp xmlDay "value" = Some day_value ->
  xml_children xmlDay = child :: others ->
  tagged day_tags child = true ->
  xmlGetProp child "value" = None ->
  wtr_forecast_parse content length w = (Crash NullDereference, w).
Proof.
  intros Ed Hv El Hday Hdate Hc Ht Hnone.
  assert (Eday : wtr_forecast_parse_day xmlDay = Crash NullDereference).
  { unfold wtr_forecast_parse_day. rewrite Hdate, Hc. cbn [parseDateTime].
    apply for_each_child_crash, day_child_valueless; assumption. }
  assert (Echild : wtr_forecast_parse_child xmlDay wtr_forecast_init
                   = Crash NullDereference).
  { unfold wtr_forecast_parse_child. rewrite Hday, Eday. reflexivity. }
  rewrite (wtr_forecast_parse_valid content length doc w Ed Hv), El.
  rewrite (for_each_child_crash _ _ _ _ _ Echild). reflexivity.
Qed.


(** C10: a day or an hour that the parser returns has exactly these
    fields assigned: the date and the list of hours of a day, the time
    stamp and the wind direction of an hour, and each number for which
    the element has a child of the matching tag.  A number whose tag no
    child carries is left as [g_malloc] gave it. *)
Theorem unassigned_fields_stay_indeterminate :
  (forall xmlDay day,
     wtr_forecast_parse_day xmlDay = Ret day ->
     is_stored (date day) /\ is_stored (hours day) /\
     (day_weather day = Indeterminate <-> no_child "symbol" xmlDay = true) /\
     (temp_min day = Indeterminate <-> no_child "tempmin" xmlDay = true) /\
     (temp_max day = Indeterminate <-> no_child "tempmax" xmlDay = true) /\
     (day_wind_speed day = Indeterminate <-> no_child "wind" xmlDay = true) /\
     (day_rain day = Indeterminate <-> no_child "rain" xmlDay = true) /\
     (day_humidity day = Indeterminate <-> no_child "humidity" xmlDay = true) /\
     (day_pressure day = Indeterminate <-> no_child "pressure" xmlDay = true)) /\
  (forall xmlHour day hour,
     wtr_forecast_parse_hour xmlHour day = Ret hour ->
     is_stored (tstamp hour) /\ is_stored (wind_dir hour) /\
     (hour_weather hour = Indeterminate <-> no_child "symbol" xmlHour = true) /\
     (temp hour = Indeterminate <-> no_child "temp" xmlHour = true) /\
     (hour_wind_speed hour = Indeterminate <-> no_child "wind" xmlHour = true) /\
     (hour_rain hour = Indeterminate <-> no_child "rain" xmlHour = true) /\
     (hour_humidity hour = Indeterminate <-> no_child "humidity" xmlHour = true) /\
     (hour_pressure hour = Indeterminate <-> no_child "pressure" xmlHour = true)).
Proof.
  split.
  - exact wtr_forecast_parse_day_fields.
  - exact wtr_forecast_parse_hour_fields.
Qed.

End ParserProperties.

(** ** The day-partitioned cache *)

Lemma untouched_refl w : untouched w w.
Proof.
  repeat (split; [reflexivity|]). exists []. rewrite app_nil_r.
  split; [reflexivity | constructor].
Qed.

Lemma untouched_trans w1 w2 w3 :
  untouched w1 w2 -> untouched w2 w3 -> untouched w1 w3.
Proof.
  intros (A1 & B1 & C1 & D1 & m1 & T1 & Q1) (A2 & B2 & C2 & D2 & m2 & T2 & Q2).
  unfold untouched. rewrite A2, B2, C2, D2, T2, T1.
  repeat (split; [assumption|]). exists (m1 ++ m2)%list.
  rewrite app_assoc. split; [reflexivity | apply Forall_app; split; assumption].
Qed.

Lemma untouched_quiet_event w (e : event) :
  quiet e -> untouched w (snd (emit e w)).
Proof.
  intros He. repeat (split; [reflexivity|]). exists [e].
  split; [reflexivity | constructor; [exact He | constructor]].
Qed.

Ltac run_M :=
  unfold mbind, M_bind, mret, M_ret, lift; cbn beta iota zeta.

(** [wtr_cache_dir] computes [cache_dir_path]; it may create the
    directory, and does nothing else. *)
Lemma wtr_cache_dir_run w :
  exists w', wtr_cache_dir w = (Ret (cache_dir_path w), w') /\ untouched w w'.
Proof.
  unfold wtr_cache_dir, g_get_tmp_dir, g_file_test_is_dir, g_mkdir_with_parents.
  run_M.
  fold (cache_dir_path w).
  destruct (bool_decide (cache_dir_path w ∈ dirs w)); cbn beta iota zeta.
  - eexists. split; [reflexivity | apply untouched_refl].
  - eexists. split; [reflexivity|].
    repeat (split; [reflexivity|]). eexists [_].
    split; [reflexivity | repeat constructor].
Qed.

Lemma wtr_cache_dir_today_run w :
  exists w', wtr_cache_dir_today w = (Ret (cache_dir_today_path w), w') /\
             untouched w w'.
Proof.
  unfold wtr_cache_dir_today. run_M.
  destruct (wtr_cache_dir_run w) as (w1 & -> & U1). cbn beta iota zeta.
  unfold g_date_time_format_now, g_file_test_is_dir, g_mkdir_with_parents.
  assert (Et : today w1 = today w) by apply U1. rewrite Et.
  fold (cache_dir_today_path w).
  destruct (bool_decide (cache_dir_today_path w ∈ dirs w1)); cbn beta iota zeta.
  - eexists. split; [reflexivity | exact U1].
  - eexists. split; [reflexivity|].
    eapply untouched_trans; [exact U1|].
    repeat (split; [reflexivity|]). eexists [_].
    split; [reflexivity | repeat constructor].
Qed.

(** [wtr_cache_temp_file] computes [cache_file_path]. *)
Lemma wtr_cache_temp_file_run driver location_code w :
  exists w',
    wtr_cache_temp_file driver location_code w =
    (Ret (cache_file_path w driver location_code), w') /\ untouched w w'.
Proof.
  unfold wtr_cache_temp_file. run_M.
  destruct (wtr_cache_dir_today_run w) as (w1 & -> & U1). cbn beta iota zeta.
  eexists. split; [reflexivity | exact U1].
Qed.

(** [wtr_cache_get] looks the path of today up, and writes nothing. *)
Lemma wtr_cache_get_run driver location_code w :
  exists w',
    wtr_cache_get driver location_code w =
    (Ret (files w !! cache_file_path w driver location_code), w') /\
    untouched w w'.
Proof.
  unfold wtr_cache_get, g_file_get_contents. run_M.
  destruct (wtr_cache_temp_file_run driver location_code w) as (w1 & -> & U1).
  cbn beta iota zeta.
  assert (Ef : files w1 = files w) by apply U1. rewrite Ef.
  eexists. split; [reflexivity | exact U1].
Qed.

(** [wtr_cache_set] stores the C string under the path of today. *)
Lemma wtr_cache_set_run driver location_code data w :
  exists w1,
    untouched w w1 /\
    wtr_cache_set driver location_code data w =
    (Ret None,
     snd (g_file_set_contents (cache_file_path w driver location_code) data w1)).
Proof.
  unfold wtr_cache_set. run_M.
  destruct (wtr_cache_temp_file_run driver location_code w) as (w1 & -> & U1).
  cbn beta iota zeta. exists w1. split; [exact U1 | reflexivity].
Qed.

(** The paths depend on the world through the temporary directory and
    the date alone. *)
Lemma cache_file_path_ext w w' driver location_code :
  tmp_dir w' = tmp_dir w -> today w' = today w ->
  cache_file_path w' driver location_code = cache_file_path w driver location_code.
Proof.
  intros Et Ed. unfold cache_file_path, cache_dir_today_path, cache_dir_path.
  rewrite Et, Ed. reflexivity.
Qed.

(** When the buffers are long enough, the path is the name in full. *)
Lemma cache_file_path_fits w driver location_code :
  cache_path_fits w driver location_code ->
  cache_file_path w driver location_code = cache_file_name w driver location_code.
Proof.
  unfold cache_path_fits, cache_file_name, cache_file_path,
    cache_dir_today_path, cache_dir_path, C.g_snprintf,
    MAX_WTR_CACHE_TEMP_DIR_LENGTH.
  change (Nat.pred 1024) with 1023%nat.
  intros Hfit. repeat rewrite string_length_app in Hfit.
  cbn [String.length] in Hfit.
  rewrite (take_all _ (C.cstr (tmp_dir w) +:+ "/libweather"))
    by (rewrite string_length_app; cbn [String.length]; lia).
  rewrite cstr_app. change (C.cstr "/libweather") with "/libweather".
  rewrite (take_all _ ((C.cstr (tmp_dir w) +:+ "/libweather") +:+ _))
    by (repeat rewrite string_length_app; cbn [String.length]; lia).
  rewrite string_app_assoc, cstr_app.
  rewrite (cstr_app_fixed "/libweather") by reflexivity.
  rewrite (cstr_app_fixed "/") by reflexivity.
  rewrite cstr_idem.
  rewrite take_all
    by (repeat rewrite string_length_app; cbn [String.length]; lia).
  repeat rewrite string_app_assoc. reflexivity.
Qed.

(** *** The cache, exactly *)

Lemma wtr_cache_dir_exact w :
  wtr_cache_dir w = (Ret (cache_dir_path w), ensured (cache_dir_path w) w).
Proof.
  unfold wtr_cache_dir, g_get_tmp_dir, g_file_test_is_dir, ensured. run_M.
  fold (cache_dir_path w).
  destruct (bool_decide (cache_dir_path w ∈ dirs w)); reflexivity.
Qed.

Lemma ensured_keeps path w :
  tmp_dir (ensured path w) = tmp_dir w /\ today (ensured path w) = today w /\
  remote (ensured path w) = remote w /\ files (ensured path w) = files w /\
  path ∈ dirs (ensured path w) /\
  (forall other, other ∈ dirs w -> other ∈ dirs (ensured path w)) /\
  (path ∈ dirs w -> ensured path w = w).
Proof.
  unfold ensured. destruct (bool_decide (path ∈ dirs w)) eqn:E.
  - apply bool_decide_eq_true in E. repeat split; auto.
  - apply bool_decide_eq_false in E. cbn.
    repeat split; auto; try set_solver.
Qed.

Lemma wtr_cache_dir_today_exact w :
  wtr_cache_dir_today w =
  (Ret (cache_dir_today_path w),
   ensured (cache_dir_today_path w) (ensured (cache_dir_path w) w)).
Proof.
  unfold wtr_cache_dir_today. run_M. rewrite wtr_cache_dir_exact.
  cbn beta iota zeta.
  unfold g_date_time_format_now, g_file_test_is_dir.
  destruct (ensured_keeps (cache_dir_path w) w) as (_ & -> & _).
  fold (cache_dir_today_path w).
  set (w1 := ensured (cache_dir_path w) w). unfold ensured.
  destruct (bool_decide (cache_dir_today_path w ∈ dirs w1)); reflexivity.
Qed.

Lemma wtr_cache_get_exact driver location_code w :
  wtr_cache_get driver location_code w =
  (Ret (files w !! cache_file_path w driver location_code),
   ensured (cache_dir_today_path w) (ensured (cache_dir_path w) w)).
Proof.
  unfold wtr_cache_get, wtr_cache_temp_file, g_file_get_contents. run_M.
  rewrite wtr_cache_dir_today_exact. cbn beta iota zeta.
  fold (cache_file_path w driver location_code).
  destruct (ensured_keeps (cache_dir_today_path w) (ensured (cache_dir_path w) w))
    as (_ & _ & _ & -> & _).
  destruct (ensured_keeps (cache_dir_path w) w) as (_ & _ & _ & -> & _).
  reflexivity.
Qed.

Lemma ensured_dirs path w x :
  x ∈ dirs (ensured path w) <-> x = path \/ x ∈ dirs w.
Proof.
  unfold ensured. destruct (bool_decide (path ∈ dirs w)) eqn:E.
  - apply bool_decide_eq_true in E. split; [auto|]. intros [-> | Hx]; assumption.
  - cbn. set_solver.
Qed.

Lemma wtr_cache_set_exact driver location_code data w :
  wtr_cache_set driver location_code data w =
  (Ret None,
   snd (g_file_set_contents (cache_file_path w driver location_code) data
          (ensured (cache_dir_today_path w) (ensured (cache_dir_path w) w)))).
Proof.
  unfold wtr_cache_set, wtr_cache_temp_file. run_M.
  rewrite wtr_cache_dir_today_exact. cbn beta iota zeta.
  fold (cache_file_path w driver location_code). reflexivity.
Qed.

(** Whether a file can be written is a matter of the directories. *)
Lemma can_write_ext path w w' :
  dirs w' = dirs w -> can_write path w' = can_write path w.
Proof. intros E. unfold can_write. rewrite E. reflexivity. Qed.

(** The store after [wtr_cache_set]: the entry is there when its file
    could be written, and nothing has changed when it could not. *)
Lemma wtr_cache_set_files driver location_code data w :
  files (snd (wtr_cache_set driver location_code data w)) =
  if can_write (cache_file_path w driver location_code)
       (ensured (cache_dir_today_path w) (ensured (cache_dir_path w) w))
  then <[cache_file_path w driver location_code := C.cstr data]> (files w)
  else files w.
Proof.
  rewrite wtr_cache_set_exact. cbn [snd g_file_set_contents files].
  destruct (ensured_keeps (cache_dir_today_path w) (ensured (cache_dir_path w) w))
    as (_ & _ & _ & -> & _).
  destruct (ensured_keeps (cache_dir_path w) w) as (_ & _ & _ & -> & _).
  reflexivity.
Qed.

(** *** Paths, as the file system reads them *)

Lemma has_slash_app a b : has_slash (a +:+ b) = has_slash a || has_slash b.
Proof.
  induction a as [|c a IH]; [reflexivity|].
  rewrite string_app_cons. cbn [has_slash]. rewrite IH. apply orb_assoc.
Qed.

Lemma parent_dir_slash d n :
  has_slash n = false -> parent_dir (d +:+ "/" +:+ n) = d.
Proof.
  intros Hn. induction d as [|c d IH].
  - change ("" +:+ "/" +:+ n) with (String "/" n). cbn [parent_dir].
    rewrite Hn. reflexivity.
  - rewrite string_app_cons. cbn [parent_dir]. rewrite has_slash_app.
    change (has_slash ("/" +:+ n)) with true. rewrite orb_true_r, IH.
    reflexivity.
Qed.

Lemma entry_name_whole n : has_slash n = false -> entry_name n = n.
Proof. intros Hn. destruct n as [|c n]; [reflexivity|]. cbn [entry_name]. rewrite Hn. reflexivity. Qed.

Lemma entry_name_slash d n :
  has_slash n = false -> entry_name (d +:+ "/" +:+ n) = n.
Proof.
  intros Hn. induction d as [|c d IH].
  - change ("" +:+ "/" +:+ n) with (String "/" n). cbn [entry_name has_slash].
    change (Ascii.eqb "/" "/") with true. cbn [orb]. apply entry_name_whole, Hn.
  - rewrite string_app_cons. cbn [entry_name has_slash]. rewrite has_slash_app.
    change (has_slash ("/" +:+ n)) with true. rewrite !orb_true_r. exact IH.
Qed.

(** When the name of the file fits, so do the names of its directories. *)
Lemma cache_dir_paths_fit w driver location_code :
  cache_path_fits w driver location_code ->
  cache_dir_path w = C.cstr (tmp_dir w) +:+ "/libweather" /\
  cache_dir_today_path w =
  (C.cstr (tmp_dir w) +:+ "/libweather") +:+ "/" +:+ C.cstr (today w).
Proof.
  unfold cache_path_fits, cache_file_name, cache_dir_today_path, cache_dir_path,
    C.g_snprintf, MAX_WTR_CACHE_TEMP_DIR_LENGTH.
  change (Nat.pred 1024) with 1023%nat.
  intros Hfit. repeat rewrite string_length_app in Hfit.
  cbn [String.length] in Hfit.
  rewrite (take_all _ (C.cstr (tmp_dir w) +:+ "/libweather"))
    by (rewrite string_length_app; cbn [String.length]; lia).
  split; [reflexivity|].
  rewrite cstr_app. change (C.cstr "/libweather") with "/libweather".
  apply take_all. repeat rewrite string_length_app. cbn [String.length]. lia.
Qed.

(** Where the cache can hold the entry, its file can be written once
    the directories are in place. *)
Lemma cache_can_hold_can_write w driver location_code :
  cache_can_hold w driver location_code ->
  can_write (cache_file_path w driver location_code)
    (ensured (cache_dir_today_path w) (ensured (cache_dir_path w) w)) = true.
Proof.
  intros (Hfit & Hd & Hc & Hno).
  destruct (cache_dir_paths_fit w driver location_code Hfit) as [Edir Etoday].
  assert (Epath : cache_file_path w driver location_code =
                  cache_dir_today_path w +:+ "/"
                    +:+ (C.cstr driver +:+ "-" +:+ C.cstr location_code)).
  { rewrite (cache_file_path_fits _ _ _ Hfit), Etoday. unfold cache_file_name.
    repeat rewrite string_app_assoc. reflexivity. }
  assert (Hname : has_slash (C.cstr driver +:+ "-" +:+ C.cstr location_code) = false).
  { rewrite !has_slash_app, Hd, Hc. reflexivity. }
  destruct (ensured_keeps (cache_dir_today_path w) (ensured (cache_dir_path w) w))
    as (_ & _ & _ & _ & Hin & _).
  unfold can_write. apply andb_true_iff. split; [apply andb_true_iff; split|].
  - apply negb_true_iff, bool_decide_eq_false. intros Hx.
    apply ensured_dirs in Hx as [Hx | Hx]; [|apply ensured_dirs in Hx as [Hx | Hx]].
    + apply (f_equal String.length) in Hx. rewrite Epath in Hx.
      repeat rewrite string_length_app in Hx. cbn [String.length] in Hx. lia.
    + apply (f_equal String.length) in Hx. rewrite Epath, Etoday, Edir in Hx.
      repeat rewrite string_length_app in Hx. cbn [String.length] in Hx. lia.
    + exact (Hno Hx).
  - rewrite Epath, (entry_name_slash _ _ Hname).
    destruct (C.cstr driver); reflexivity.
  - apply bool_decide_eq_true. rewrite Epath, (parent_dir_slash _ _ Hname).
    exact Hin.
Qed.

(** *** Paths cut by the buffers *)










(** ** The acquisition orchestrator *)

Lemma net_http_get_run url w :
  net_http_get url w = (Ret (response w url), snd (emit (HttpGet url) w)).
Proof.
  unfold response, net_http_get.
  destruct (remote w url) as [[code chunks] response_code]. reflexivity.
Qed.

(** [len] counts the bytes of [buffer]. *)
Lemma net_http_rawdata_write_len chunk data :
  len data = String.length (buffer data) ->
  len (net_http_rawdata_write chunk data) =
  String.length (buffer (net_http_rawdata_write chunk data)).
Proof.
  intros E. unfold net_http_rawdata_write. simpl.
  rewrite string_length_app, length_take by lia. reflexivity.
Qed.

Lemma response_len w url :
  len (response w url) = String.length (buffer (response w url)).
Proof.
  unfold response, net_http_get.
  destruct (remote w url) as [[code chunks] response_code]. cbn [fst].
  assert (Hfold : forall data,
            len data = String.length (buffer data) ->
            len (fold_left (fun d chunk => net_http_rawdata_write chunk d) chunks data)
            = String.length
                (buffer (fold_left (fun d chunk => net_http_rawdata_write chunk d)
                           chunks data))).
  { induction chunks as [|chunk chunks IH]; intros data E; [exact E|].
    simpl. apply IH, net_http_rawdata_write_len, E. }
  specialize (Hfold net_http_rawdata_init eq_refl).
  simpl. destruct (code =? 0); simpl; exact Hfold.
Qed.

Lemma happened_app w w' added :
  trace w' = (trace w ++ added)%list -> happened w w' = added.
Proof.
  intros E. unfold happened. rewrite E, drop_app_length. reflexivity.
Qed.

Lemma response_ext w w' url : remote w' = remote w -> response w' url = response w url.
Proof.
  intros E. unfold response, net_http_get. rewrite E.
  destruct (remote w url) as [[code chunks] response_code]. reflexivity.
Qed.

Section OrchestratorProperties.
Context `{Externals}.

(** The orchestrator, path by path. *)
Lemma wtr_tiempo_forecast_get_unfold code w :
  let w1 := snd (wtr_cache_get WTR_DRIVER_TIEMPO code w) in
  untouched w w1 /\
  fst (wtr_cache_get WTR_DRIVER_TIEMPO code w) =
  Ret (files w !! cache_file_path w WTR_DRIVER_TIEMPO code) /\
  wtr_tiempo_forecast_get code w =
  match files w !! cache_file_path w WTR_DRIVER_TIEMPO code with
  | Some cached_xml => wtr_forecast_parse cached_xml (C.strlen cached_xml) w1
  | None =>
      let url := wtr_tiempo_forecast_url code in
      let data := response w url in
      let w2 := snd (emit (HttpGet url) w1) in
      if negb (curl_code data =? 0) then
        (Ret None, told (CurlError (curl_code data)) w2)
      else if negb (http_code data =? 200) then
        (Ret None, told (HttpStatus (http_code data)) w2)
      else
        match wtr_forecast_parse (buffer data) (len data) w2 with
        | (Ret (Some forecast), w3) =>
            (Ret (Some forecast),
             snd (wtr_cache_set WTR_DRIVER_TIEMPO code (buffer data) w3))
        | other => other
        end
  end.
Proof.
  unfold wtr_tiempo_forecast_get. run_M.
  destruct (wtr_cache_get_run WTR_DRIVER_TIEMPO code w) as (w1 & -> & U).
  cbn [fst snd]. split; [exact U|]. split; [reflexivity|].
  destruct (files w !! cache_file_path w WTR_DRIVER_TIEMPO code) as [cached_xml|].
  - destruct (wtr_forecast_parse cached_xml (C.strlen cached_xml) w1)
      as [[forecast|f] w2]; reflexivity.
  - rewrite net_http_get_run. cbn beta iota zeta.
    rewrite (response_ext w w1) by apply U.
    destruct (negb (curl_code (response w (wtr_tiempo_forecast_url code)) =? 0));
      [reflexivity|].
    destruct (negb (http_code (response w (wtr_tiempo_forecast_url code)) =? 200));
      [reflexivity|].
    destruct (wtr_forecast_parse _ _ _) as [[[forecast|]|f] w3]; try reflexivity.
    destruct (wtr_cache_set_run WTR_DRIVER_TIEMPO code
                (buffer (response w (wtr_tiempo_forecast_url code))) w3)
      as (w4 & _ & ->).
    reflexivity.
Qed.

(** A hit: the outcome is that of parsing the cached text, and the run
    is quiet. *)
Lemma wtr_tiempo_forecast_get_hit code cached_xml w :
  files w !! cache_file_path w WTR_DRIVER_TIEMPO code = Some cached_xml ->
  wtr_tiempo_forecast_get code w =
  wtr_forecast_parse cached_xml (C.strlen cached_xml)
    (snd (wtr_cache_get WTR_DRIVER_TIEMPO code w)) /\
  untouched w (snd (wtr_tiempo_forecast_get code w)).
Proof.
  intros Hhit.
  destruct (wtr_tiempo_forecast_get_unfold code w) as (U & _ & E).
  rewrite Hhit in E. split; [exact E|]. rewrite E.
  eapply untouched_trans; [exact U|].
  apply wtr_forecast_parse_world.
Qed.

(** A miss: the four ways the run can end.  [made] are the directories
    the cache created, [said] what came after the request, short of a
    write. *)
Lemma wtr_tiempo_forecast_get_miss code w :
  files w !! cache_file_path w WTR_DRIVER_TIEMPO code = None ->
  let url := wtr_tiempo_forecast_url code in
  let data := response w url in
  let r := wtr_tiempo_forecast_get code w in
  exists made said,
    Forall quiet made /\ Forall quiet said /\
    ((curl_code data <> 0 /\ fst r = Ret None /\ files (snd r) = files w /\
      happened w (snd r) =
      (made ++ [HttpGet url; Stderr (CurlError (curl_code data))])%list) \/
     (curl_code data = 0 /\ http_code data <> 200 /\
      fst r = Ret None /\ files (snd r) = files w /\
      happened w (snd r) =
      (made ++ [HttpGet url; Stderr (HttpStatus (http_code data))])%list) \/
     (curl_code data = 0 /\ http_code data = 200 /\
      (forall forecast, fst r <> Ret (Some forecast)) /\
      (forall w0, fst (wtr_forecast_parse (buffer data) (len data) w0) = fst r) /\
      files (snd r) = files w /\
      happened w (snd r) = (made ++ HttpGet url :: said)%list) \/
     (curl_code data = 0 /\ http_code data = 200 /\
      exists forecast,
        fst r = Ret (Some forecast) /\
        (forall w0, fst (wtr_forecast_parse (buffer data) (len data) w0)
                    = Ret (Some forecast)) /\
        files (snd r) =
        (if can_write (cache_file_path w WTR_DRIVER_TIEMPO code)
              (ensured (cache_dir_today_path w) (ensured (cache_dir_path w) w))
         then <[cache_file_path w WTR_DRIVER_TIEMPO code := C.cstr (buffer data)]>
                (files w)
         else files w) /\
        happened w (snd r) =
        (made ++ HttpGet url :: said ++
           [FileWrite (cache_file_path w WTR_DRIVER_TIEMPO code)
              (C.cstr (buffer data))])%list)).
Proof.
  intros Hmiss. cbv zeta.
  destruct (wtr_tiempo_forecast_get_unfold code w) as (U & _ & E).
  rewrite Hmiss in E. cbv zeta in E. rewrite E. clear E.
  destruct U as (Et & Ed & Er & Ef & made & Em & Qm).
  set (url := wtr_tiempo_forecast_url code).
  set (data := response w url).
  set (w1 := snd (wtr_cache_get WTR_DRIVER_TIEMPO code w)) in *.
  exists made.
  destruct (curl_code data =? 0) eqn:Ec; cbn [negb].
  2: { exists []. split; [exact Qm|]. split; [constructor|]. left.
       apply Z.eqb_neq in Ec. split; [exact Ec|]. split; [reflexivity|].
       split; [exact Ef|]. apply happened_app. simpl. rewrite Em.
       repeat rewrite <- app_assoc. reflexivity. }
  apply Z.eqb_eq in Ec.
  destruct (http_code data =? 200) eqn:Eh; cbn [negb].
  2: { exists []. split; [exact Qm|]. split; [constructor|]. right. left.
       apply Z.eqb_neq in Eh. split; [exact Ec|]. split; [exact Eh|].
       split; [reflexivity|].
       split; [exact Ef|]. apply happened_app. simpl. rewrite Em.
       repeat rewrite <- app_assoc. reflexivity. }
  apply Z.eqb_eq in Eh.
  set (w2 := snd (emit (HttpGet url) w1)).
  pose proof (wtr_forecast_parse_world (buffer data) (len data) w2) as P.
  destruct P as (Pt & Pd & Pr & Pf & said & Ps & Qs).
  pose proof (fun w0 => wtr_forecast_parse_result (buffer data) (len data) w0 w2) as R.
  destruct (wtr_forecast_parse (buffer data) (len data) w2) as [o w3] eqn:Ep.
  cbn [fst snd] in *.
  destruct o as [[forecast|]|f]; cbn [fst snd].
  - pose proof (wtr_cache_set_files WTR_DRIVER_TIEMPO code (buffer data) w3) as Fs.
    destruct (wtr_cache_set_run WTR_DRIVER_TIEMPO code (buffer data) w3)
      as (w4 & U4 & E4).
    rewrite E4 in Fs |- *. clear E4. cbn [fst snd] in Fs |- *.
    destruct U4 as (Et4 & Ed4 & Er4 & Ef4 & made4 & Em4 & Qm4).
    exists (said ++ made4)%list. split; [exact Qm|].
    split; [apply Forall_app; split; assumption|].
    right. right. right. split; [exact Ec|]. split; [exact Eh|].
    exists forecast. split; [reflexivity|]. split; [exact R|].
    assert (Epath : cache_file_path w3 WTR_DRIVER_TIEMPO code
                    = cache_file_path w WTR_DRIVER_TIEMPO code).
    { apply cache_file_path_ext; [rewrite Pt | rewrite Pd]; simpl; assumption. }
    assert (Edir : cache_dir_path w3 = cache_dir_path w).
    { unfold cache_dir_path. rewrite Pt. simpl. rewrite Et. reflexivity. }
    assert (Etoday : cache_dir_today_path w3 = cache_dir_today_path w).
    { unfold cache_dir_today_path. rewrite Edir, Pd. simpl. rewrite Ed.
      reflexivity. }
    rewrite Epath in Fs |- *. split.
    + rewrite Fs, Edir, Etoday. clear Fs.
      assert (Edirs : dirs w3 = dirs (ensured (cache_dir_today_path w)
                                        (ensured (cache_dir_path w) w))).
      { pose proof (wtr_forecast_parse_dirs (buffer data) (len data) w2) as D.
        rewrite Ep in D. cbn [snd] in D. rewrite D. subst w2 w1.
        rewrite wtr_cache_get_exact. reflexivity. }
      destruct (ensured_keeps (cache_dir_path w) w) as (_ & _ & _ & _ & Hd & _).
      destruct (ensured_keeps (cache_dir_today_path w) (ensured (cache_dir_path w) w))
        as (_ & _ & _ & _ & Ht & Hk & _).
      destruct (ensured_keeps (cache_dir_path w) w3) as (_ & _ & _ & _ & _ & _ & Hs1).
      rewrite Hs1 by (rewrite Edirs; apply Hk, Hd).
      destruct (ensured_keeps (cache_dir_today_path w) w3)
        as (_ & _ & _ & _ & _ & _ & Hs2).
      rewrite Hs2 by (rewrite Edirs; exact Ht).
      rewrite (can_write_ext _ _ _ Edirs).
      assert (Efiles : files w3 = files w)
        by (transitivity (files w2); [exact Pf | exact Ef]).
      rewrite Efiles. reflexivity.
    + apply happened_app. simpl. rewrite Em4, Ps. simpl. rewrite Em.
      repeat rewrite <- app_assoc. reflexivity.
  - exists said. split; [exact Qm|]. split; [exact Qs|].
    right. right. left. split; [exact Ec|]. split; [exact Eh|].
    split; [discriminate|]. split; [exact R|].
    split; [transitivity (files w2); [exact Pf | exact Ef]|].
    apply happened_app. cbn [snd]. rewrite Ps. simpl. rewrite Em.
    repeat rewrite <- app_assoc. reflexivity.
  - exists said. split; [exact Qm|]. split; [exact Qs|].
    right. right. left. split; [exact Ec|]. split; [exact Eh|].
    split; [discriminate|]. split; [exact R|].
    split; [transitivity (files w2); [exact Pf | exact Ef]|].
    apply happened_app. cbn [snd]. rewrite Ps. simpl. rewrite Em.
    repeat rewrite <- app_assoc. reflexivity.
Qed.

Lemma quiet_not_write l path data :
  Forall quiet l -> ~ In (FileWrite path data) l.
Proof.
  intros Hq Hin. rewrite Forall_forall in Hq.
  apply list_elem_of_In in Hin. destruct (Hq _ Hin) as [_ Hw]. discriminate Hw.
Qed.

Lemma untouched_happened w w' :
  untouched w w' -> Forall quiet (happened w w').
Proof.
  intros (_ & _ & _ & _ & made & Em & Qm).
  rewrite (happened_app w w' made Em). exact Qm.
Qed.


(** What the orchestrator does see to: a call of [g_file_set_contents]
    happens only in a run that returns the forecast parsed from the
    response; what it is given, under the path of today, is the C
    string of the response body, and when the body holds no NUL byte
    these are the very bytes that were parsed: read again, they parse
    to the same forecast. *)
Theorem cache_write_follows_successful_parse code w path data :
  In (FileWrite path data) (happened w (snd (wtr_tiempo_forecast_get code w))) ->
  let body := buffer (response w (wtr_tiempo_forecast_url code)) in
  exists forecast,
    fst (wtr_tiempo_forecast_get code w) = Ret (Some forecast) /\
    (forall w0,
       fst (wtr_forecast_parse body (String.length body) w0) = Ret (Some forecast)) /\
    path = cache_file_path w WTR_DRIVER_TIEMPO code /\
    data = C.cstr body /\
    (C.cstr body = body ->
     forall w0,
       fst (wtr_forecast_parse data (String.length data) w0) = Ret (Some forecast)).
Proof.
  intros Hin. cbv zeta.
  destruct (files w !! cache_file_path w WTR_DRIVER_TIEMPO code)
    as [cached_xml|] eqn:Hlook.
  { destruct (wtr_tiempo_forecast_get_hit code cached_xml w Hlook) as [_ U].
    destruct (quiet_not_write _ path data (untouched_happened _ _ U) Hin). }
  destruct (wtr_tiempo_forecast_get_miss code w Hlook)
    as (made & said & Qm & Qs & Hrun).
  cbv zeta in Hrun. rewrite response_len in Hrun.
  destruct Hrun as [(_ & _ & _ & Eh) | [(_ & _ & _ & _ & Eh) |
                   [(_ & _ & _ & _ & _ & Eh) |
                    (_ & _ & forecast & Er & Ep & _ & Eh)]]];
    rewrite Eh in Hin; apply in_app_or in Hin as [Hin | Hin];
    try (destruct (quiet_not_write _ path data Qm Hin)).
  - destruct Hin as [Hin | [Hin | []]]; discriminate Hin.
  - destruct Hin as [Hin | [Hin | []]]; discriminate Hin.
  - destruct Hin as [Hin | Hin]; [discriminate Hin|].
    destruct (quiet_not_write _ path data Qs Hin).
  - destruct Hin as [Hin | Hin]; [discriminate Hin|].
    apply in_app_or in Hin as [Hin | Hin];
      [destruct (quiet_not_write _ path data Qs Hin)|].
    destruct Hin as [Hin | []]. injection Hin as <- <-.
    exists forecast. split; [exact Er|]. split; [exact Ep|].
    split; [reflexivity|]. split; [reflexivity|].
    intros Hc. rewrite Hc. exact Ep.
Qed.

(** The clock, the temporary directory and the network are not the
    orchestrator's to change. *)
Lemma wtr_tiempo_forecast_get_keeps code w :
  let w' := snd (wtr_tiempo_forecast_get code w) in
  tmp_dir w' = tmp_dir w /\ today w' = today w /\ remote w' = remote w.
Proof.
  cbv zeta.
  destruct (wtr_tiempo_forecast_get_unfold code w) as (U & _ & ->).
  cbv zeta in U. destruct U as (Et & Ed & Er & _).
  set (w1 := snd (wtr_cache_get WTR_DRIVER_TIEMPO code w)) in *.
  destruct (files w !! cache_file_path w WTR_DRIVER_TIEMPO code) as [cached_xml|].
  - destruct (wtr_forecast_parse_world cached_xml (C.strlen cached_xml) w1)
      as (Et' & Ed' & Er' & _).
    rewrite Et', Ed', Er'. auto.
  - cbv zeta.
    destruct (negb (curl_code _ =? 0)); [cbn; auto|].
    destruct (negb (http_code _ =? 200)); [cbn; auto|].
    set (w2 := snd (emit _ w1)).
    pose proof (wtr_forecast_parse_world
                  (buffer (response w (wtr_tiempo_forecast_url code)))
                  (len (response w (wtr_tiempo_forecast_url code))) w2)
      as (Et' & Ed' & Er' & _).
    destruct (wtr_forecast_parse _ _ w2) as [[[forecast|]|f] w3];
      cbn [snd] in *; try (rewrite Et', Ed', Er'; cbn; auto).
    destruct (wtr_cache_set_run WTR_DRIVER_TIEMPO code
                (buffer (response w (wtr_tiempo_forecast_url code))) w3)
      as (w4 & (Et4 & Ed4 & Er4 & _) & ->).
    cbn. rewrite Et4, Ed4, Er4, Et', Ed', Er'. cbn. auto.
Qed.

(** C2, where the code departs from it.  The parser is handed the
    [len] bytes of the response, [g_file_set_contents] the same buffer
    with length -1: the bytes before the first NUL.  When the body
    parses and the bytes before its first NUL do not, the acquisition
    returns the forecast and writes those bytes; where the cache can
    hold the entry, the entry is a text the parser refuses, and the
    next acquisition of the day returns NULL from it, without a
    request. *)
Theorem unparsable_prefix_is_cached code w forecast :
  cache_can_hold w WTR_DRIVER_TIEMPO code ->
  fst (wtr_cache_get WTR_DRIVER_TIEMPO code w) = Ret None ->
  let body := buffer (response w (wtr_tiempo_forecast_url code)) in
  let path := cache_file_path w WTR_DRIVER_TIEMPO code in
  let r := wtr_tiempo_forecast_get code w in
  fst r = Ret (Some forecast) ->
  fst (wtr_forecast_parse (C.cstr body) (C.strlen (C.cstr body)) w) = Ret None ->
  (forall w0,
     fst (wtr_forecast_parse body (String.length body) w0) = Ret (Some forecast)) /\
  In (FileWrite path (C.cstr body)) (happened w (snd r)) /\
  files (snd r) !! path = Some (C.cstr body) /\
  let r2 := wtr_tiempo_forecast_get code (snd r) in
  fst r2 = Ret None /\ Forall quiet (happened (snd r) (snd r2)).
Proof.
  intros Hold Hmiss body path r Hr Hprefix. subst body path r.
  rewrite wtr_cache_get_exact in Hmiss. cbn [fst] in Hmiss.
  injection Hmiss as Hlook.
  destruct (wtr_tiempo_forecast_get_keeps code w) as (Et & Ed & _).
  cbv zeta in Et, Ed.
  destruct (wtr_tiempo_forecast_get_miss code w Hlook)
    as (made & said & Qm & Qs & Hrun).
  cbv zeta in Hrun. rewrite response_len in Hrun.
  destruct Hrun as [(_ & E & _) | [(_ & _ & E & _) | [(_ & _ & E & _) | Hrun]]].
  - rewrite E in Hr. discriminate Hr.
  - rewrite E in Hr. discriminate Hr.
  - contradiction (E forecast Hr).
  - destruct Hrun as (_ & _ & forecast' & Er & Ep & Hfiles & Eh).
    rewrite Er in Hr. injection Hr as ->.
    rewrite (cache_can_hold_can_write _ _ _ Hold) in Hfiles.
    set (w1 := snd (wtr_tiempo_forecast_get code w)) in *.
    assert (Hhit : files w1 !! cache_file_path w1 WTR_DRIVER_TIEMPO code
                   = Some (C.cstr (buffer (response w (wtr_tiempo_forecast_url code))))).
    { rewrite (cache_file_path_ext w w1) by assumption.
      rewrite Hfiles. apply lookup_insert_eq. }
    destruct (wtr_tiempo_forecast_get_hit code _ w1 Hhit) as (Eget & U).
    split; [exact Ep|]. split; [|split; [|split]].
    + rewrite Eh. apply in_or_app. right. right.
      apply in_or_app. right. left. reflexivity.
    + rewrite Hfiles. apply lookup_insert_eq.
    + rewrite Eget, (wtr_forecast_parse_result _ _ _ w). exact Hprefix.
    + apply untouched_happened, U.
Qed.

(** What [wtr_forecast_parse] says when it returns NULL. *)
Lemma wtr_forecast_parse_null content length w :
  fst (wtr_forecast_parse content length w) = Ret None ->
  exists text,
    snd (wtr_forecast_parse content length w) = told (Message text) w.
Proof.
  rewrite wtr_forecast_parse_unfold.
  destruct (xmlReadMemory (C.take length content)) as [doc|]; cbv zeta;
    [|intros _; eexists; reflexivity].
  destruct (is_tag (xmlDocGetRootElement doc) "report");
    [|intros _; eexists; reflexivity].
  destruct (xml_children (xmlDocGetRootElement doc)) as [|location rest];
    [discriminate|].
  destruct (is_tag location "location"); [|intros _; eexists; reflexivity].
  cbn [fst].
  destruct (for_each_child wtr_forecast_parse_child (xml_children location)
              wtr_forecast_init); discriminate.
Qed.

(** C3, as the code has it: on a miss, a transport failure, a status
    other than 200 and a body the parser rejects each make the
    acquisition return NULL, after a line on stderr that names the
    curl code, the status, or the parser's complaint; in each case the
    store is left as it was and nothing is written. *)
Theorem failed_fetch_returns_null_and_caches_nothing code w :
  fst (wtr_cache_get WTR_DRIVER_TIEMPO code w) = Ret None ->
  let data := response w (wtr_tiempo_forecast_url code) in
  let r := wtr_tiempo_forecast_get code w in
  (curl_code data <> 0 ->
     fst r = Ret None /\
     In (Stderr (CurlError (curl_code data))) (happened w (snd r)) /\
     files (snd r) = files w /\
     Forall (fun e => is_file_write e = false) (happened w (snd r))) /\
  (curl_code data = 0 -> http_code data <> 200 ->
     fst r = Ret None /\
     In (Stderr (HttpStatus (http_code data))) (happened w (snd r)) /\
     files (snd r) = files w /\
     Forall (fun e => is_file_write e = false) (happened w (snd r))) /\
  (curl_code data = 0 -> http_code data = 200 ->
   fst (wtr_forecast_parse (buffer data) (len data) w) = Ret None ->
     fst r = Ret None /\
     (exists text, In (Stderr (Message text)) (happened w (snd r))) /\
     files (snd r) = files w /\
     Forall (fun e => is_file_write e = false) (happened w (snd r))).
Proof.
  intros Hget. cbv zeta.
  destruct (wtr_tiempo_forecast_get_unfold code w) as (U & Eg & Eu).
  rewrite Eg in Hget. injection Hget as Hlook.
  destruct (wtr_tiempo_forecast_get_miss code w Hlook)
    as (made & said & Qm & Qs & Hrun).
  cbv zeta in Hrun.
  assert (Hquiet : forall l, Forall quiet l ->
                             Forall (fun e => is_file_write e = false) l).
  { intros l Hl. eapply Forall_impl; [exact Hl|]. intros e He. apply He. }
  destruct Hrun as [(Hc & Er & Ef & Eh) | [(Hc & Hs & Er & Ef & Eh) |
                   [(Hc & Hs & Hn & Ep & Ef & Eh) |
                    (Hc & Hs & forecast & Er & Ep & _ & Eh)]]].
  - split; [|split; intros; congruence]. intros _.
    split; [exact Er|]. rewrite Eh. split; [|split; [exact Ef|]].
    + apply in_or_app. right. right. left. reflexivity.
    + apply Forall_app. split; [apply Hquiet, Qm | repeat constructor].
  - split; [intros; congruence|]. split; [|intros; congruence]. intros _ _.
    split; [exact Er|]. rewrite Eh. split; [|split; [exact Ef|]].
    + apply in_or_app. right. right. left. reflexivity.
    + apply Forall_app. split; [apply Hquiet, Qm | repeat constructor].
  - split; [intros; congruence|]. split; [intros; congruence|].
    intros _ _ Hnull0.
    assert (Hnull : forall w0,
              fst (wtr_forecast_parse
                     (buffer (response w (wtr_tiempo_forecast_url code)))
                     (len (response w (wtr_tiempo_forecast_url code))) w0)
              = Ret None)
      by (intros w0; rewrite (wtr_forecast_parse_result _ _ w0 w); exact Hnull0).
    rewrite <- (Ep w), Hnull0.
    split; [reflexivity|]. split; [|split; [exact Ef|]].
    + rewrite Hlook in Eu. cbv zeta in Eu.
      apply Z.eqb_eq in Hc, Hs. rewrite Hc, Hs in Eu. cbn [negb] in Eu.
      set (w2 := snd (emit (HttpGet (wtr_tiempo_forecast_url code))
                        (snd (wtr_cache_get WTR_DRIVER_TIEMPO code w)))) in *.
      pose proof (Hnull w2) as Hn2.
      destruct (wtr_forecast_parse_null _ _ w2 Hn2) as [text Et].
      destruct (wtr_forecast_parse _ _ w2) as [o w3] eqn:Eo.
      cbn [fst snd] in Hn2, Et. subst o w3.
      exists text. rewrite Eu. cbn [snd].
      destruct U as (_ & _ & _ & _ & made' & Em' & _).
      erewrite happened_app.
      2: { simpl. rewrite Em'. repeat rewrite <- app_assoc. reflexivity. }
      apply in_or_app. right. right. left. reflexivity.
    + rewrite Eh. apply Forall_app. split; [apply Hquiet, Qm|].
      constructor; [reflexivity | apply Hquiet, Qs].
  - split; [intros; congruence|]. split; [intros; congruence|].
    intros _ _ Hnull. specialize (Ep w). rewrite Hnull in Ep. discriminate Ep.
Qed.

End OrchestratorProperties.

(** ** The program run on examples *)

Lemma returned_null_eq {A : Type} (o : outcome (option A)) :
  returned_null o = true -> o = Ret None.
Proof. destruct o as [[a|]|f]; simpl; congruence. Qed.

(** The five-day document of [StandIn]: five days, eight hours in each
    of the first two, none in the others. *)
Lemma five_days_parsed :
  match fst (wtr_forecast_parse (H := StandIn.standin)
               "<report>five days</report>" 26 (StandIn.machine (0, [], 200))) with
  | Ret (Some forecast) =>
      List.length (days forecast) = 5%nat /\
      map hour_count (days forecast)
      = [Some 8%nat; Some 8%nat; Some 0%nat; Some 0%nat; Some 0%nat]
  | _ => False
  end.
Proof. vm_compute. split; reflexivity. Qed.


Lemma cache_write_follows_successful_parse_witness :
  let w := StandIn.machine (0, ["<report>five "; "days</report>"], 200) in
  let r := wtr_tiempo_forecast_get (H := StandIn.standin) "30625" w in
  In (FileWrite "/tmp/libweather/20180308/tiempo-30625" "<report>five days</report>")
    (happened w (snd r)) /\
  exists forecast,
    fst r = Ret (Some forecast) /\
    forall w0,
      fst (wtr_forecast_parse (H := StandIn.standin)
             "<report>five days</report>" 26 w0) = Ret (Some forecast).
Proof.
  cbv zeta.
  assert (Hin :
    In (FileWrite "/tmp/libweather/20180308/tiempo-30625"
          "<report>five days</report>")
      (happened (StandIn.machine (0, ["<report>five "; "days</report>"], 200))
         (snd (wtr_tiempo_forecast_get (H := StandIn.standin) "30625"
                 (StandIn.machine (0, ["<report>five "; "days</report>"], 200)))))).
  { vm_compute. right. right. right. left. reflexivity. }
  split; [exact Hin|].
  destruct (cache_write_follows_successful_parse (H := StandIn.standin) "30625"
              (StandIn.machine (0, ["<report>five "; "days</report>"], 200))
              _ _ Hin) as (forecast & Er & _ & _ & _ & Hsame).
  exists forecast. split; [exact Er|]. apply Hsame. vm_compute. reflexivity.
Defined.

(** A response in UTF-16: every ASCII character of it is followed by a
    zero byte, and what is cached of it are the three bytes before the
    first of these. *)
Lemma unparsable_prefix_is_cached_witness :
  let body := StandInMore.utf16 "<report>five days</report>" in
  let w := StandIn.machine (0, [body], 200) in
  let r := wtr_tiempo_forecast_get (H := StandInMore.extended) "30625" w in
  let r2 := wtr_tiempo_forecast_get (H := StandInMore.extended) "30625" (snd r) in
  returned_null (fst r) = false /\
  files (snd r) !! "/tmp/libweather/20180308/tiempo-30625"
  = Some (String (ascii_of_N 255) (String (ascii_of_N 254) "<")) /\
  fst r2 = Ret None /\ Forall quiet (happened (snd r) (snd r2)).
Proof.
  cbv zeta.
  destruct (fst (wtr_tiempo_forecast_get (H := StandInMore.extended) "30625"
                   (StandIn.machine
                      (0, [StandInMore.utf16 "<report>five days</report>"], 200))))
    as [[forecast|]|f] eqn:Er.
  - destruct (unparsable_prefix_is_cached (H := StandInMore.extended) "30625"
                (StandIn.machine
                   (0, [StandInMore.utf16 "<report>five days</report>"], 200))
                forecast) as (_ & _ & Hf & E2 & Hq).
    + unfold cache_can_hold, cache_path_fits.
      split; [vm_compute; lia|]. split; [reflexivity|]. split; [reflexivity|].
      vm_compute. set_solver.
    + vm_compute. reflexivity.
    + exact Er.
    + apply returned_null_eq. vm_compute. reflexivity.
    + split; [reflexivity|]. split; [|split; [exact E2 | exact Hq]].
      assert (Ep : cache_file_path
                     (StandIn.machine
                        (0, [StandInMore.utf16 "<report>five days</report>"], 200))
                     WTR_DRIVER_TIEMPO "30625"
                   = "/tmp/libweather/20180308/tiempo-30625")
        by (vm_compute; reflexivity).
      cbv zeta in Hf. rewrite Ep in Hf. rewrite Hf. vm_compute. reflexivity.
  - apply (f_equal returned_null) in Er. vm_compute in Er. discriminate Er.
  - apply (f_equal returned) in Er. vm_compute in Er. discriminate Er.
Defined.

(** C3, as the claim has it, fails: a transport failure, a status 500,
    a status 404 and a body that does not parse all make the
    acquisition return one and the same value, NULL; it carries neither
    the kind of the failure nor its detail. *)
Lemma failures_return_the_same_null :
  let get reply :=
    fst (wtr_tiempo_forecast_get (H := StandIn.standin) "30625"
           (StandIn.machine reply)) in
  get (7, [], 0) = Ret None /\
  get (0, ["Internal Server Error"], 500) = get (7, [], 0) /\
  get (0, ["Not Found"], 404) = get (0, ["Internal Server Error"], 500) /\
  get (0, ["<html/>"], 200) = get (0, ["Not Found"], 404).
Proof.
  cbv beta zeta.
  rewrite !(returned_null_eq (fst (wtr_tiempo_forecast_get _ _)))
    by (vm_compute; reflexivity).
  repeat split.
Qed.

Lemma failed_fetch_returns_null_and_caches_nothing_witness :
  let w := StandIn.machine (0, ["Internal Server Error"], 500) in
  let r := wtr_tiempo_forecast_get (H := StandIn.standin) "30625" w in
  fst r = Ret None /\ In (Stderr (HttpStatus 500)) (happened w (snd r)) /\
  files (snd r) = files w.
Proof.
  cbv zeta.
  destruct (failed_fetch_returns_null_and_caches_nothing (H := StandIn.standin)
              "30625" (StandIn.machine (0, ["Internal Server Error"], 500)))
    as (_ & Hstatus & _).
  - vm_compute. reflexivity.
  - destruct Hstatus as (Er & Ein & Ef & _).
    + vm_compute. reflexivity.
    + vm_compute. discriminate.
    + split; [exact Er|]. split; [exact Ein | exact Ef].
Defined.

Lemma empty_report_reads_through_null_witness :
  wtr_forecast_parse (H := StandIn.standin) "<report/>" 9
    (StandIn.machine (0, [], 200))
  = (Crash NullDereference, StandIn.machine (0, [], 200)).
Proof.
  apply (empty_report_reads_through_null (H := StandIn.standin) "<report/>" 9
           StandIn.empty_report); reflexivity.
Defined.

Lemma valueless_measurement_reads_through_null_witness :
  wtr_forecast_parse (H := StandIn.standin)
    "<report><location><day value='20180308'><symbol/></day></location></report>"
    75 (StandIn.machine (0, [], 200))
  = (Crash NullDereference, StandIn.machine (0, [], 200)).
Proof.
  eapply (valueless_measurement_reads_through_null (H := StandIn.standin)
            _ _ StandIn.valueless_symbol); reflexivity.
Defined.



Lemma unassigned_fields_stay_indeterminate_witness :
  match wtr_forecast_parse_day (H := StandIn.standin)
          (StandIn.element "day" [("value", "20180308")]
             [StandIn.measure "symbol" "4"]) with
  | Ret day =>
      day_weather day <> Indeterminate /\ temp_min day = Indeterminate /\
      is_stored (date day) /\ is_stored (hours day)
  | Crash _ => False
  end.
Proof.
  destruct (wtr_forecast_parse_day (H := StandIn.standin)
              (StandIn.element "day" [("value", "20180308")]
                 [StandIn.measure "symbol" "4"])) as [day|f] eqn:E.
  - destruct (proj1 (unassigned_fields_stay_indeterminate (H := StandIn.standin))
                _ day E) as (Hd & Hh & Hsym & Hmin & _).
    split; [intros Hw; apply Hsym in Hw; discriminate Hw|].
    split; [apply Hmin; reflexivity|]. split; [exact Hd | exact Hh].
  - apply (f_equal returned) in E. vm_compute in E. discriminate E.
Defined.

Lemma parsed_forecast_follows_document_witness :
  exists forecast,
    wtr_forecast_parse (H := StandIn.standin) "<report>five days</report>" 26
      (StandIn.machine (0, [], 200))
    = (Ret (Some forecast), StandIn.machine (0, [], 200)).
Proof.
  apply (proj2 (parsed_forecast_follows_document (H := StandIn.standin)
                  "<report>five days</report>" 26 StandIn.five_days
                  (StandIn.machine (0, [], 200)) eq_refl eq_refl)).
  vm_compute. reflexivity.
Defined.

Lemma five_days_with_eight_hours_each_witness :
  exists forecast,
    wtr_forecast_parse (H := StandIn.standin) "<report>five days</report>" 26
      (StandIn.machine (0, [], 200))
    = (Ret (Some forecast), StandIn.machine (0, [], 200)) /\
    List.length (days forecast) = 5%nat.
Proof.
  destruct (proj2 (wtr_forecast_parse_days (H := StandIn.standin)
                     "<report>five days</report>" 26 StandIn.five_days
                     (StandIn.machine (0, [], 200)) eq_refl eq_refl))
    as [forecast E]; [vm_compute; reflexivity|].
  exists forecast. split; [exact E|].
  apply (five_days_with_eight_hours_each (H := StandIn.standin)
           "<report>five days</report>" 26 StandIn.five_days
           (StandIn.machine (0, [], 200)) forecast
           (StandIn.machine (0, [], 200))
           (StandIn.day_element "20180308" StandIn.eight_hours)
           (StandIn.day_element "20180309" StandIn.eight_hours)
           (StandIn.day_element "20180310" [])
           (StandIn.day_element "20180311" [])
           (StandIn.day_element "20180312" []));
    first [reflexivity | exact E].
Defined.

Lemma structure_checks_return_null_witness :
  wtr_forecast_parse (H := StandIn.standin) "<html/>" 7
    (StandIn.machine (0, [], 200))
  = (Ret None,
     told (Message "Tiempo XML parsing error: root element report not found.")
       (StandIn.machine (0, [], 200))).
Proof.
  apply (proj1 (structure_checks_return_null (H := StandIn.standin) "<html/>" 7
                  StandIn.not_a_report (StandIn.machine (0, [], 200)) eq_refl)).
  reflexivity.
Defined.

(* ================================================================== *)
(** * Part III: the rest of the libraries and the program             *)
(* ================================================================== *)

(** ** libutils: the conversions *)

Lemma read_digits_app d tail : forall acc,
  all_digits d = true ->
  read_digits acc (d +:+ tail) = read_digits (digits_number acc d) tail.
Proof.
  induction d as [|c d IH]; intros acc Hd; [reflexivity|].
  cbn [all_digits] in Hd. apply andb_true_iff in Hd as [Hc Hd].
  rewrite string_app_cons. cbn [read_digits digits_number]. rewrite Hc.
  apply IH, Hd.
Qed.

Lemma digits_number_nonneg d : forall acc,
  all_digits d = true -> 0 <= acc -> acc <= digits_number acc d.
Proof.
  induction d as [|c d IH]; intros acc Hd Hacc; cbn [digits_number]; [lia|].
  cbn [all_digits] in Hd. apply andb_true_iff in Hd as [Hc Hd].
  apply isdigit_code in Hc.
  specialize (IH (10 * acc + (C.code c - 48)) Hd). lia.
Qed.

Lemma isdigit_not_space c : C.isdigit c = true -> C.isspace c = false.
Proof.
  intros Hd. apply isdigit_code in Hd. unfold C.isspace.
  apply orb_false_iff. split; [apply Z.eqb_neq; lia|].
  apply andb_false_iff. right. apply Z.leb_gt. lia.
Qed.

Lemma isdigit_not_sign c :
  C.isdigit c = true -> Ascii.eqb c "-" = false /\ Ascii.eqb c "+" = false.
Proof.
  intros Hd. split; apply Ascii.eqb_neq; intros ->; discriminate Hd.
Qed.

(** The status [str2int] reports for a decimal literal, by the number
    it spells. *)
Lemma str2int_literal out s z :
  decimal_literal s = Some z ->
  str2int out (Some s) =
  if (INT_MIN <=? z) && (z <=? INT_MAX) then Ret (STR2INT_SUCCESS, Stored z)
  else if INT_MAX <? z then Ret (STR2INT_OVERFLOW, out)
  else Ret (STR2INT_UNDERFLOW, out).
Proof.
  unfold str2int, decimal_literal.
  destruct s as [|c s]; [discriminate|].
  cbn [C.deref C.cstr].
  destruct (Ascii.eqb c C.NUL) eqn:En; [discriminate|].
  cbn [orb C.deref C.next].
  destruct (C.isspace c) eqn:Hsp.
  { assert (Ascii.eqb c "-" = false) as ->
      by (apply Ascii.eqb_neq; intros ->; discriminate Hsp).
    assert (Ascii.eqb c "+" = false) as ->
      by (apply Ascii.eqb_neq; intros ->; discriminate Hsp).
    cbn [orb negb andb all_digits String.eqb].
    assert (C.isdigit c = false) as ->.
    { destruct (C.isdigit c) eqn:Hd; [|reflexivity].
      rewrite (isdigit_not_space c Hd) in Hsp. discriminate Hsp. }
    discriminate. }
  unfold strtol. cbn [skip_spaces]. rewrite Hsp. cbn [C.deref]. cbv zeta.
  assert (Hu : (if Ascii.eqb c "-" || Ascii.eqb c "+" then C.cstr s
                else String c (C.cstr s))
               = C.cstr (if Ascii.eqb c "-" || Ascii.eqb c "+"
                         then C.next (String c s) else String c s)).
  { destruct (Ascii.eqb c "-" || Ascii.eqb c "+"); cbn [C.next C.cstr];
      [|rewrite En]; reflexivity. }
  rewrite Hu.
  pose proof (str2int_core out (Ascii.eqb c "-")
                (if Ascii.eqb c "-" || Ascii.eqb c "+"
                 then C.next (String c s) else String c s)
                (String c s) En) as Hcore.
  cbv zeta in Hcore. rewrite Hcore. clear Hcore.
  intros Hz.
  destruct (negb _ && all_digits _); [|discriminate Hz].
  injection Hz as <-. reflexivity.
Qed.

(** X4: [str2int] on a text that is there.  A decimal literal (a sign
    or none, then digits and nothing else, no space in front) is
    converted when the number it spells is an [int], and reported as an
    overflow above [INT_MAX] and as an underflow below [INT_MIN];
    success is reported for such literals only; and every status but
    success leaves the variable as it was. *)
Theorem str2int_converts_int_literals out s :
  (forall z, decimal_literal s = Some z ->
     str2int out (Some s) =
     if (INT_MIN <=? z) && (z <=? INT_MAX) then Ret (STR2INT_SUCCESS, Stored z)
     else if INT_MAX <? z then Ret (STR2INT_OVERFLOW, out)
     else Ret (STR2INT_UNDERFLOW, out)) /\
  (forall o, str2int out (Some s) = Ret (STR2INT_SUCCESS, o) ->
     exists z, decimal_literal s = Some z /\ INT_MIN <= z <= INT_MAX /\
               o = Stored z) /\
  (forall status o, str2int out (Some s) = Ret (status, o) ->
     status <> STR2INT_SUCCESS -> o = out).
Proof.
  split; [|split].
  - intros z. apply str2int_literal.
  - intros o E. pose proof (str2int_spec out s) as Hs.
    destruct (decimal_literal s) as [z|].
    + destruct ((INT_MIN <=? z) && (z <=? INT_MAX)) eqn:Hr.
      * rewrite Hs in E. injection E as <-. exists z.
        apply andb_true_iff in Hr as [Hlo Hhi].
        apply Z.leb_le in Hlo, Hhi. auto.
      * destruct Hs as (status & Hne & Hs). rewrite Hs in E.
        injection E as -> _. contradiction.
    + destruct Hs as (status & Hne & Hs). rewrite Hs in E.
      injection E as -> _. contradiction.
  - intros status o E Hne.
    destruct (str2int_returns out s)
      as (status' & o' & E' & _ & Hout).
    rewrite E' in E. injection E as -> ->. apply Hout, Hne.
Qed.

Lemma str2int_converts_int_literals_witness :
  str2int Indeterminate (Some "-2147483648") = Ret (STR2INT_SUCCESS, Stored INT_MIN) /\
  str2int (Stored 5) (Some "+2147483648") = Ret (STR2INT_OVERFLOW, Stored 5) /\
  str2int (Stored 5) (Some "-2147483649") = Ret (STR2INT_UNDERFLOW, Stored 5).
Proof.
  split; [|split].
  - exact (proj1 (str2int_converts_int_literals Indeterminate "-2147483648")
             (-2147483648) eq_refl).
  - exact (proj1 (str2int_converts_int_literals (Stored 5) "+2147483648")
             2147483648 eq_refl).
  - exact (proj1 (str2int_converts_int_literals (Stored 5) "-2147483649")
             (-2147483649) eq_refl).
Defined.

(** X5: what [str2int] refuses before and after [strtol].  The empty
    text and a text that starts with a space are inconvertible, though
    [strtol] would skip the space; and the range is tested before the
    rest of the text: digits that spell more than [INT_MAX] are an
    overflow, and after a minus sign an underflow when they spell more
    than [- INT_MIN], whatever follows them. *)
Theorem str2int_tests_range_before_rest out :
  (forall s, Ascii.eqb (C.deref s) C.NUL || C.isspace (C.deref s) = true ->
     str2int out (Some s) = Ret (STR2INT_INCONVERTIBLE, out)) /\
  (forall digits rest,
     all_digits digits = true -> INT_MAX < digits_number 0 digits ->
     str2int out (Some (digits +:+ rest)) = Ret (STR2INT_OVERFLOW, out)) /\
  (forall digits rest,
     all_digits digits = true -> - INT_MIN < digits_number 0 digits ->
     str2int out (Some ("-" +:+ digits +:+ rest)) = Ret (STR2INT_UNDERFLOW, out)).
Proof.
  split; [|split].
  - intros s Hs. unfold str2int. rewrite Hs. reflexivity.
  - intros digits rest Hd Hbig.
    destruct digits as [|c d]; [cbn in Hbig; unfold INT_MAX in Hbig; lia|].
    pose proof Hd as Hall. cbn [all_digits] in Hd.
    apply andb_true_iff in Hd as [Hc _].
    unfold str2int. rewrite string_app_cons. cbn [C.deref].
    rewrite (isdigit_not_NUL c Hc), (isdigit_not_space c Hc). cbn [orb].
    unfold strtol. cbn [skip_spaces]. rewrite (isdigit_not_space c Hc).
    cbn [C.deref]. destruct (isdigit_not_sign c Hc) as [-> ->]. cbn [orb].
    cbv zeta. cbn [C.deref]. rewrite Hc. rewrite <- string_app_cons.
    rewrite (read_digits_app (String c d) rest 0 Hall).
    pose proof (read_digits_spec rest (digits_number 0 (String c d))) as Hr.
    destruct Hr as (Hle & _); [unfold INT_MAX in Hbig; lia|].
    destruct (read_digits (digits_number 0 (String c d)) rest) as [m rest'].
    cbn [fst] in Hle.
    unfold LONG_MAX, LONG_MIN, INT_MAX, INT_MIN in *.
    repeat match goal with
      | |- context [if ?b then _ else _] => destruct b eqn:?
      end; try reflexivity; cbn in *; lia.
  - intros digits rest Hd Hbig.
    destruct digits as [|c d]; [cbn in Hbig; unfold INT_MIN in Hbig; lia|].
    pose proof Hd as Hall. cbn [all_digits] in Hd.
    apply andb_true_iff in Hd as [Hc _].
    unfold str2int. rewrite string_app_cons. cbn [C.deref].
    change (Ascii.eqb "-" C.NUL || C.isspace "-") with false.
    cbv iota. unfold strtol. rewrite string_app_cons.
    cbn [skip_spaces]. change (C.isspace "-") with false. cbv iota.
    cbn [C.deref C.next]. change (Ascii.eqb "-" "-") with true. cbn [orb].
    change ("" +:+ String c (d +:+ rest)) with (String c (d +:+ rest)).
    cbv zeta. cbn [C.deref]. rewrite Hc.
    rewrite <- string_app_cons.
    rewrite (read_digits_app (String c d) rest 0 Hall).
    pose proof (read_digits_spec rest (digits_number 0 (String c d))) as Hr.
    destruct Hr as (Hle & _); [unfold INT_MIN in Hbig; lia|].
    destruct (read_digits (digits_number 0 (String c d)) rest) as [m rest'].
    cbn [fst] in Hle.
    unfold LONG_MAX, LONG_MIN, INT_MAX, INT_MIN in *.
    repeat match goal with
      | |- context [if ?b then _ else _] => destruct b eqn:?
      end; try reflexivity; cbn in *; lia.
Qed.

Lemma str2int_tests_range_before_rest_witness :
  str2int Indeterminate (Some " 12") = Ret (STR2INT_INCONVERTIBLE, Indeterminate) /\
  str2int Indeterminate (Some "2147483648 km/h")
  = Ret (STR2INT_OVERFLOW, Indeterminate) /\
  str2int Indeterminate (Some "-99999999999999999999x")
  = Ret (STR2INT_UNDERFLOW, Indeterminate).
Proof.
  destruct (str2int_tests_range_before_rest Indeterminate) as (Hsp & Hov & Hun).
  split; [|split].
  - apply (Hsp " 12"). reflexivity.
  - apply (Hov "2147483648" " km/h"); reflexivity.
  - apply (Hun "99999999999999999999" "x"); reflexivity.
Defined.

Section ConversionProperties.
Context `{Externals}.

(** X6: [str2double] after a range error of [strtod] that consumed the
    whole text.  An overflow is reported exactly when the value is
    [DBL_MAX] and an underflow exactly when it is [DBL_MIN]; every
    other value, the infinity or the zero among them, is stored and
    reported as a success. *)
Theorem str2double_reports_range_errors_at_two_values out s d end_ :
  Ascii.eqb (C.deref s) C.NUL || C.isspace (C.deref s) = false ->
  strtod s = (d, end_, true) ->
  Ascii.eqb (C.deref end_) C.NUL = true ->
  (str2double out (Some s) = Ret (STR2DOUBLE_OVERFLOW, out) <->
   SFeqb d DBL_MAX = true) /\
  (str2double out (Some s) = Ret (STR2DOUBLE_UNDERFLOW, out) <->
   SFeqb d DBL_MAX = false /\ SFeqb d DBL_MIN = true) /\
  (str2double out (Some s) = Ret (STR2DOUBLE_SUCCESS, Stored d) <->
   SFeqb d DBL_MAX = false /\ SFeqb d DBL_MIN = false) /\
  (forall sign, d = S754_infinity sign \/ d = S754_zero sign ->
     str2double out (Some s) = Ret (STR2DOUBLE_SUCCESS, Stored d)).
Proof.
  intros Hs Hd Hend. unfold str2double. rewrite Hs, Hd, Hend. cbn [andb negb].
  split; [|split; [|split]].
  - destruct (SFeqb d DBL_MAX); [tauto|].
    destruct (SFeqb d DBL_MIN); split; intros E; discriminate E.
  - destruct (SFeqb d DBL_MAX); [split; [discriminate|intros [E _]; discriminate E]|].
    destruct (SFeqb d DBL_MIN); [tauto|].
    split; [discriminate|intros [_ E]; discriminate E].
  - destruct (SFeqb d DBL_MAX); [split; [discriminate|intros [E _]; discriminate E]|].
    destruct (SFeqb d DBL_MIN); [|tauto].
    split; [discriminate|intros [_ E]; discriminate E].
  - intros sign [-> | ->]; destruct sign; reflexivity.
Qed.

End ConversionProperties.

Lemma str2double_reports_range_errors_at_two_values_witness :
  str2double (H := StandInMore.ranged) Indeterminate (Some "1e999")
  = Ret (STR2DOUBLE_SUCCESS, Stored (S754_infinity false)) /\
  xmlGetPropDouble (H := StandInMore.ranged) (StandIn.measure "rain" "1e-999") "value"
  = Ret (S754_zero false).
Proof.
  split.
  - apply (proj2 (proj2 (proj2
             (str2double_reports_range_errors_at_two_values
                (H := StandInMore.ranged) Indeterminate "1e999"
                (S754_infinity false) "" eq_refl eq_refl eq_refl))) false).
    left. reflexivity.
  - unfold xmlGetPropDouble.
    change (xmlGetProp (StandIn.measure "rain" "1e-999") "value")
      with (Some "1e-999").
    rewrite (proj2 (proj2 (proj2
               (str2double_reports_range_errors_at_two_values
                  (H := StandInMore.ranged) Indeterminate "1e-999"
                  (S754_zero false) "" eq_refl eq_refl eq_refl))) false)
      by (right; reflexivity).
    reflexivity.
Defined.

(** X7: [is_number] against [str2int].  [is_number] accepts the empty
    text and the decimal literals without a sign, and nothing else; a
    text it accepts, the empty one apart, [str2int] converts or reports
    as an overflow. *)
Theorem is_number_accepts_unsigned_literals s :
  (is_number s = true <->
   C.cstr s = "" \/
   C.isdigit (C.deref s) = true /\
   decimal_literal s = Some (digits_number 0 (C.cstr s))) /\
  (is_number s = true -> C.cstr s <> "" -> forall out,
     str2int out (Some s) =
     if digits_number 0 (C.cstr s) <=? INT_MAX
     then Ret (STR2INT_SUCCESS, Stored (digits_number 0 (C.cstr s)))
     else Ret (STR2INT_OVERFLOW, out)).
Proof.
  assert (Hlit : is_number s = true -> C.cstr s <> "" ->
                 C.isdigit (C.deref s) = true /\
                 decimal_literal s = Some (digits_number 0 (C.cstr s))).
  { unfold is_number, decimal_literal. intros Hn Hne.
    destruct s as [|c s]; [contradiction Hne; reflexivity|].
    cbn [C.cstr] in *. destruct (Ascii.eqb c C.NUL) eqn:En;
      [contradiction Hne; reflexivity|].
    cbn [all_digits] in Hn. apply andb_true_iff in Hn as [Hc Hn].
    cbn [C.deref]. split; [exact Hc|].
    destruct (isdigit_not_sign c Hc) as [-> ->]. cbn [orb].
    cbn [String.eqb negb andb all_digits]. rewrite Hc, Hn. reflexivity. }
  split.
  - split.
    + intros Hn. destruct (String.eqb (C.cstr s) "") eqn:E.
      * left. apply String.eqb_eq, E.
      * right. apply Hlit; [exact Hn|]. apply String.eqb_neq, E.
    + intros [E | [Hc Hd]]; unfold is_number.
      * rewrite E. reflexivity.
      * unfold decimal_literal in Hd.
        destruct s as [|c s]; [reflexivity|]. cbn [C.deref] in Hc.
        cbn [C.cstr] in *. rewrite (isdigit_not_NUL c Hc) in *.
        cbn [C.deref] in Hd. destruct (isdigit_not_sign c Hc) as [E1 E2].
        rewrite E1, E2 in Hd. cbn [orb] in Hd.
        destruct (all_digits (String c (C.cstr s))); [reflexivity|].
        rewrite andb_false_r in Hd. discriminate Hd.
  - intros Hn Hne out. destruct (Hlit Hn Hne) as [Hc Hd].
    rewrite (str2int_literal out s _ Hd).
    assert (0 <= digits_number 0 (C.cstr s))
      by (apply digits_number_nonneg; [exact Hn | lia]).
    unfold INT_MIN, INT_MAX in *.
    repeat match goal with
      | |- context [if ?b then _ else _] => destruct b eqn:?
      end; try reflexivity; lia.
Qed.

Lemma is_number_accepts_unsigned_literals_witness :
  is_number "" = true /\ is_number "-5" = false /\
  str2int Indeterminate (Some "30625") = Ret (STR2INT_SUCCESS, Stored 30625).
Proof.
  split; [reflexivity|]. split; [reflexivity|].
  apply (proj2 (is_number_accepts_unsigned_literals "30625") eq_refl).
  discriminate.
Defined.

(** ** libweather.c: the descriptions of the weather *)

Lemma switch_miss {A : Type} weather (cases : list (Z * A)) default :
  Forall (fun c => weather <> fst c) cases ->
  switch weather cases default = default.
Proof.
  induction 1 as [|[constant result] rest Hc _ IH]; [reflexivity|].
  cbn [switch]. cbn [fst] in Hc.
  destruct (Z.eqb_spec weather constant); [contradiction|exact IH].
Qed.

(** X8: [wtr_weather_description] answers "Unknown" for exactly the
    codes outside [WTR_CLEAR .. WTR_OVERCAST_SLEET], [WTR_UNDEFINED]
    among them, and tells the 22 conditions apart: two codes of the
    range with one description are one code. *)
Theorem weather_descriptions_tell_conditions_apart :
  (forall weather,
     wtr_weather_description weather = "Unknown" <->
     ~ (WTR_CLEAR <= weather <= WTR_OVERCAST_SLEET)) /\
  (forall a b,
     WTR_CLEAR <= a <= WTR_OVERCAST_SLEET ->
     WTR_CLEAR <= b <= WTR_OVERCAST_SLEET ->
     wtr_weather_description a = wtr_weather_description b -> a = b).
Proof.
  assert (Hcases : forall w, WTR_CLEAR <= w <= WTR_OVERCAST_SLEET ->
            In w (map Z.of_nat (seq 1 22))).
  { intros w Hw. unfold WTR_CLEAR, WTR_OVERCAST_SLEET in Hw.
    apply in_map_iff. exists (Z.to_nat w). split; [lia|].
    apply in_seq. lia. }
  split.
  - intros weather. split.
    + intros Hu Hw. apply Hcases in Hw. cbn in Hw.
      repeat (destruct Hw as [<- | Hw]; [discriminate Hu|]). exact Hw.
    + intros Hw. unfold wtr_weather_description. apply switch_miss.
      unfold WTR_CLEAR, WTR_OVERCAST_SLEET in Hw.
      repeat (constructor; [cbv; lia|]). constructor.
  - intros a b Ha Hb. apply Hcases in Ha, Hb. cbn in Ha, Hb.
    repeat (destruct Ha as [<- | Ha]; [
      repeat (destruct Hb as [<- | Hb];
              [first [reflexivity | intros E; discriminate E]|]);
      contradiction|]).
    contradiction.
Qed.
Lemma weather_descriptions_tell_conditions_apart_witness :
  wtr_weather_description WTR_UNDEFINED = "Unknown" /\
  wtr_weather_description 23 = "Unknown".
Proof.
  destruct weather_descriptions_tell_conditions_apart as [Hunknown _].
  split; apply Hunknown; unfold WTR_CLEAR, WTR_OVERCAST_SLEET, WTR_UNDEFINED; lia.
Defined.

(** ** The location directory, whatever the search type *)

Lemma filter_sublist_impl {A : Type} (f g : A -> bool) (l : list A) :
  (forall x, In x l -> f x = true -> g x = true) ->
  List.filter f l `sublist_of` List.filter g l.
Proof.
  induction l as [|x l IH]; intros Hfg; [constructor|].
  assert (IH' : List.filter f l `sublist_of` List.filter g l)
    by (apply IH; intros y Hy; apply Hfg; right; exact Hy).
  cbn [List.filter]. destruct (f x) eqn:Ef.
  - rewrite (Hfg x (or_introl eq_refl) Ef). constructor. exact IH'.
  - destruct (g x); [constructor|]; exact IH'.
Qed.

Lemma filter_sublist {A : Type} (f : A -> bool) (l : list A) :
  List.filter f l `sublist_of` l.
Proof.
  induction l as [|x l IH]; [constructor|].
  cbn [List.filter]. destruct (f x); constructor; exact IH.
Qed.

Lemma prefix_refl s : C.prefix s s = true.
Proof.
  induction s as [|c s IH]; [reflexivity|].
  cbn [C.prefix]. rewrite Ascii.eqb_refl. exact IH.
Qed.

Lemma streq_strstr a b : C.streq a b = true -> C.strstr a b = true.
Proof.
  unfold C.streq, C.strstr. intros E. apply String.eqb_eq in E. rewrite E.
  destruct (C.cstr b); cbn [C.strstr_found]; rewrite prefix_refl; reflexivity.
Qed.

(** X9: whatever the query and the search type, [wtr_location_search]
    returns entries of [WTR_LOCATIONS] only, in the order of the table
    and each once at most; and what the exact search by name finds, the
    partial search by name finds for the same query. *)
Theorem search_returns_table_entries_in_order query :
  (forall search_type,
     wtr_location_search query search_type `sublist_of` WTR_LOCATIONS /\
     NoDup (wtr_location_search query search_type)) /\
  wtr_location_search query WTR_SEARCH_LOCATION_EXACT_NAME
  `sublist_of` wtr_location_search query WTR_SEARCH_LOCATION_PARTIAL_NAME.
Proof.
  split.
  - intros search_type. rewrite wtr_location_search_filter.
    assert (Hsub := filter_sublist
                      (wtr_location_matches (C.g_utf8_strup query) search_type)
                      WTR_LOCATIONS).
    split; [exact Hsub|].
    eapply sublist_NoDup; [|exact Hsub].
    unfold WTR_LOCATIONS.
    repeat (constructor;
            [intros Hin; apply list_elem_of_In in Hin; cbn [In] in Hin;
             repeat (destruct Hin as [Hin | Hin]; [discriminate Hin|]);
             exact Hin|]).
    constructor.
  - rewrite !wtr_location_search_filter. apply filter_sublist_impl.
    intros l _. unfold wtr_location_matches.
    cbn [wtr_location_search_type_eqb andb orb C.g_strcmp0_eq].
    rewrite !orb_false_r. apply streq_strstr.
Qed.

(** X10: an exact search, by name or by code, finds one location at
    most: no two entries of the table share a name or a code. *)
Theorem exact_search_finds_one_at_most query :
  (List.length (wtr_location_search query WTR_SEARCH_LOCATION_EXACT_NAME) <= 1)%nat /\
  (List.length (wtr_location_search query WTR_SEARCH_LOCATION_EXACT_CODE) <= 1)%nat.
Proof.
  rewrite !wtr_location_search_filter.
  unfold wtr_location_matches.
  cbn [wtr_location_search_type_eqb andb orb C.g_strcmp0_eq].
  unfold WTR_LOCATIONS. cbn [List.filter name code].
  split;
    repeat match goal with
      | |- context [C.streq ?a ?b] =>
          let E := fresh "E" in
          destruct (C.streq a b) eqn:E;
          [unfold C.streq in E; apply String.eqb_eq in E; cbn in E|clear E]
      end;
    cbn [orb andb List.length]; try lia; exfalso; congruence.
Qed.



(** ** libnet: what a transfer hands back *)

Lemma string_app_nil_r s : s +:+ "" = s.
Proof.
  induction s as [|c s IH]; [reflexivity|].
  rewrite string_app_cons, IH. reflexivity.
Qed.

Lemma net_http_rawdata_write_all chunks : forall data,
  len data = String.length (buffer data) ->
  let data' := fold_left (fun d chunk => net_http_rawdata_write chunk d) chunks data in
  buffer data' = buffer data +:+ joined chunks /\
  len data' = String.length (buffer data') /\
  curl_code data' = curl_code data /\ http_code data' = http_code data.
Proof.
  induction chunks as [|chunk chunks IH]; intros data Hlen;
    cbn [fold_left joined fold_right]; cbv zeta.
  - rewrite string_app_nil_r. auto.
  - destruct (IH (net_http_rawdata_write chunk data)
                (net_http_rawdata_write_len chunk data Hlen))
      as (Eb & El & Ec & Eh).
    cbv zeta in Eb, El, Ec, Eh.
    split; [|split; [exact El|split; [rewrite Ec|rewrite Eh]; reflexivity]].
    rewrite Eb. fold (joined chunks).
    unfold net_http_rawdata_write. cbn [buffer].
    rewrite take_all by lia. rewrite string_app_assoc. reflexivity.
Qed.

(** X12: [net_http_get] hands back the chunks of the transfer one
    after the other in [buffer], with [len] the number of their bytes;
    [curl_code] is the code of the transfer, and [http_code] is the
    response code when that code is 0 and stays 0 when it is not.  One
    request is made, and the store is not touched. *)
Theorem net_http_get_gathers_the_chunks url w code chunks response_code :
  remote w url = (code, chunks, response_code) ->
  net_http_get url w =
  (Ret {| curl_code := code;
          http_code := if code =? 0 then response_code else 0;
          len := String.length (joined chunks);
          buffer := joined chunks |},
   snd (emit (HttpGet url) w)).
Proof.
  intros Hr. unfold net_http_get. rewrite Hr. cbv zeta.
  destruct (net_http_rawdata_write_all chunks net_http_rawdata_init eq_refl)
    as (Eb & El & Ec & Eh).
  cbv zeta in Eb, El, Ec, Eh. cbn [buffer net_http_rawdata_init] in Eb.
  change ("" +:+ joined chunks) with (joined chunks) in Eb.
  rewrite El, Eb, Eh. cbn [curl_code http_code len buffer net_http_rawdata_init].
  destruct (code =? 0); reflexivity.
Qed.

Lemma net_http_get_gathers_the_chunks_witness :
  fst (net_http_get "http://api.ilmeteo.net/"
         (StandIn.machine (7, ["<report>"; "half a"], 200)))
  = Ret {| curl_code := 7; http_code := 0; len := 14; buffer := "<report>half a" |}.
Proof.
  rewrite (net_http_get_gathers_the_chunks "http://api.ilmeteo.net/"
             (StandIn.machine (7, ["<report>"; "half a"], 200))
             7 ["<report>"; "half a"] 200 eq_refl).
  reflexivity.
Defined.

(** ** The cache: its directories, its keys and its buffers *)



(** Two codes give two names, the driver being the same. *)
Lemma cache_file_name_code w driver code1 code2 :
  C.cstr code1 <> C.cstr code2 ->
  cache_file_name w driver code1 <> cache_file_name w driver code2.
Proof.
  intros Hne E. apply Hne. unfold cache_file_name in E.
  repeat apply string_app_cancel_l in E. exact E.
Qed.

(** X14: the entries of one driver do not interfere: setting the
    value of one location code leaves what [wtr_cache_get] returns for
    another code as it was, whether the file of the first code could
    be written or not.  (For names of cache files that fit the buffers
    of MAX_WTR_CACHE_TEMP_DIR_LENGTH bytes.) *)
Theorem cache_entries_of_two_codes_are_apart driver code1 code2 data w :
  C.cstr code1 <> C.cstr code2 ->
  cache_path_fits w driver code1 -> cache_path_fits w driver code2 ->
  fst (wtr_cache_get driver code2 (snd (wtr_cache_set driver code1 data w))) =
  fst (wtr_cache_get driver code2 w).
Proof.
  intros Hne Hfit1 Hfit2.
  destruct (wtr_cache_set_run driver code1 data w) as (w0 & U & ->).
  destruct U as (Et & Ed & _ & Ef & _). cbn [snd].
  rewrite !wtr_cache_get_exact. cbn [fst]. f_equal.
  rewrite (cache_file_path_ext w) by assumption.
  simpl. rewrite Ef. destruct (can_write _ _); [|reflexivity].
  apply lookup_insert_ne.
  rewrite (cache_file_path_fits _ _ _ Hfit1), (cache_file_path_fits _ _ _ Hfit2).
  apply cache_file_name_code, Hne.
Qed.

Lemma cache_entries_of_two_codes_are_apart_witness :
  fst (wtr_cache_get "tiempo" "30721"
         (snd (wtr_cache_set "tiempo" "30625" "<report/>"
                 (StandIn.machine (0, [], 200)))))
  = Ret None.
Proof.
  rewrite (cache_entries_of_two_codes_are_apart "tiempo" "30625" "30721"
             "<report/>" (StandIn.machine (0, [], 200))).
  - vm_compute. reflexivity.
  - vm_compute. discriminate.
  - unfold cache_path_fits. vm_compute. lia.
  - unfold cache_path_fits. vm_compute. lia.
Defined.

(** X15: where the buffers of the cache are too short.  When the name
    of the temporary directory has 1012 bytes or more, the 1023 bytes
    that [g_snprintf] keeps are used up by the cache directory: the
    path of the directory of today and the path of the cache file are
    cut down to it, whatever the day, the driver and the location
    code. *)
Theorem long_tmp_dir_leaves_one_cache_path w :
  (1012 <= C.strlen (tmp_dir w))%nat ->
  (forall driver location_code day,
     cache_file_path (on_day day w) driver location_code = cache_dir_path w) /\
  String.length (cache_dir_path w) = 1023%nat.
Proof.
  unfold C.strlen. intros Hlong.
  set (d := cache_dir_path w).
  assert (Hlen : String.length d = 1023%nat).
  { unfold d, cache_dir_path, C.g_snprintf, MAX_WTR_CACHE_TEMP_DIR_LENGTH.
    change (Nat.pred 1024) with 1023%nat. apply length_take.
    rewrite string_length_app. cbn [String.length]. lia. }
  assert (Hc : C.cstr d = d).
  { unfold d, cache_dir_path, C.g_snprintf. apply cstr_take.
    rewrite cstr_app. reflexivity. }
  assert (Hcut : forall rest, C.g_snprintf MAX_WTR_CACHE_TEMP_DIR_LENGTH (C.cstr d +:+ rest) = d).
  { intros rest. rewrite Hc. unfold C.g_snprintf, MAX_WTR_CACHE_TEMP_DIR_LENGTH.
    change (Nat.pred 1024) with 1023%nat.
    rewrite take_app_ge by lia. apply take_all. lia. }
  split; [|exact Hlen].
  intros driver location_code day.
  unfold cache_file_path, cache_dir_today_path.
  change (cache_dir_path (on_day day w)) with d.
  rewrite (Hcut ("/" +:+ C.cstr (today (on_day day w)))). apply Hcut.
Qed.

Lemma long_tmp_dir_leaves_one_cache_path_witness :
  cache_file_path StandInMore.cramped "tiempo" "30625"
  = cache_file_path (on_day "20180309" StandInMore.cramped) "tiempo" "30721".
Proof.
  assert (Hlong : (1012 <= C.strlen (tmp_dir StandInMore.cramped))%nat)
    by (vm_compute; lia).
  destruct (long_tmp_dir_leaves_one_cache_path StandInMore.cramped Hlong)
    as [Hone _].
  rewrite (Hone "tiempo" "30721" "20180309").
  exact (Hone "tiempo" "30625" "20180308").
Defined.

(** ** The URL of a forecast *)

(** X16: [wtr_tiempo_forecast_url] never returns more than the 255
    bytes its buffer holds; for a code of 164 bytes or less the URL is
    the template filled in with the code and the affiliate identifier,
    and two such codes have one URL only when they are one code. *)
Theorem forecast_url_holds_the_code code :
  (String.length (wtr_tiempo_forecast_url code) <= 255)%nat /\
  ((C.strlen code <= 164)%nat ->
   wtr_tiempo_forecast_url code = forecast_url_text code /\
   forall code', (C.strlen code' <= 164)%nat ->
     wtr_tiempo_forecast_url code = wtr_tiempo_forecast_url code' ->
     C.cstr code = C.cstr code').
Proof.
  assert (Hfull : forall c, (C.strlen c <= 164)%nat ->
            wtr_tiempo_forecast_url c = forecast_url_text c).
  { intros c Hc. unfold wtr_tiempo_forecast_url, forecast_url_text, C.g_snprintf,
      TIEMPO_URL_MAX_LENGTH, C.strlen in *.
    change (Nat.pred 256) with 255%nat.
    change (C.cstr TIEMPO_AFFILATE_ID) with "0123456789abcd".
    rewrite take_all.
    - reflexivity.
    - repeat rewrite string_length_app. cbn [String.length]. lia. }
  split.
  - unfold wtr_tiempo_forecast_url, C.g_snprintf, TIEMPO_URL_MAX_LENGTH.
    apply length_take_le.
  - intros Hc. split; [apply Hfull, Hc|].
    intros code' Hc' E. rewrite (Hfull code Hc), (Hfull code' Hc') in E.
    unfold forecast_url_text in E. apply string_app_cancel_l in E.
    exact (string_app_cancel_r _ _ _ E).
Qed.

Lemma forecast_url_holds_the_code_witness :
  wtr_tiempo_forecast_url "30625" =
  "http://api.ilmeteo.net/index.php?api_lang=it&localidad=30625&affiliate_id=0123456789abcd&v=2&h=1".
Proof.
  apply (proj2 (forecast_url_holds_the_code "30625")). vm_compute. lia.
Defined.

(** ** The document parser: what it skips and what it keeps *)

Section ParserValues.
Context `{Externals}.

Lemma for_each_child_app {S : Type} (body : xmlNode -> S -> outcome S)
    before after : forall s,
  for_each_child body (before ++ after) s =
  s' ← for_each_child body before s; for_each_child body after s'.
Proof.
  induction before as [|child before IH]; intros s; [reflexivity|].
  cbn [app for_each_child]. unfold mbind, outcome_bind.
  destruct (body child s) as [s1|f]; [apply IH | reflexivity].
Qed.

Lemma for_each_child_skip {S : Type} (body : xmlNode -> S -> outcome S)
    before u after s :
  (forall s0, body u s0 = Ret s0) ->
  for_each_child body (before ++ u :: after) s =
  for_each_child body (before ++ after) s.
Proof.
  intros Hu. rewrite !for_each_child_app. unfold mbind, outcome_bind.
  destruct (for_each_child body before s) as [s1|f]; [|reflexivity].
  cbn [for_each_child]. rewrite Hu. reflexivity.
Qed.

Lemma hour_child_unknown u hour :
  tagged hour_tags u = false -> wtr_forecast_parse_hour_child u hour = Ret hour.
Proof.
  intros Hu. unfold wtr_forecast_parse_hour_child. settle_tags. reflexivity.
Qed.

Lemma day_child_unknown u day :
  tagged (day_tags ++ ["hour"]) u = false ->
  wtr_forecast_parse_day_child u day = Ret day.
Proof.
  intros Hu. unfold wtr_forecast_parse_day_child. settle_tags. reflexivity.
Qed.

(** X17: a child that carries none of the tags a loop knows (a text
    node, a comment, an element of another name) is passed over: with
    it or without it among the children, an "hour" element parses to
    the same hour, a "day" element to the same day, and the children of
    the location to the same forecast. *)
Theorem unknown_children_are_passed_over before u after :
  (tagged hour_tags u = false ->
   forall name properties day,
     wtr_forecast_parse_hour (XmlNode name properties (before ++ u :: after)) day =
     wtr_forecast_parse_hour (XmlNode name properties (before ++ after)) day) /\
  (tagged (day_tags ++ ["hour"]) u = false ->
   forall name properties,
     wtr_forecast_parse_day (XmlNode name properties (before ++ u :: after)) =
     wtr_forecast_parse_day (XmlNode name properties (before ++ after))) /\
  (is_tag u "day" = false ->
   forall forecast,
     for_each_child wtr_forecast_parse_child (before ++ u :: after) forecast =
     for_each_child wtr_forecast_parse_child (before ++ after) forecast).
Proof.
  split; [|split].
  - intros Hu name properties day. unfold wtr_forecast_parse_hour.
    cbn [xml_children]. unfold xmlGetProp. cbn [xml_properties].
    unfold mbind, outcome_bind.
    destruct (parseDateTime _ _); [|reflexivity].
    destruct (read (date day)); [|reflexivity].
    apply for_each_child_skip. intros s0. apply hour_child_unknown, Hu.
  - intros Hu name properties. unfold wtr_forecast_parse_day.
    cbn [xml_children]. unfold xmlGetProp. cbn [xml_properties].
    unfold mbind, outcome_bind.
    destruct (parseDateTime _ _); [|reflexivity].
    apply for_each_child_skip. intros s0. apply day_child_unknown, Hu.
  - intros Hu forecast. apply for_each_child_skip. intros s0.
    unfold wtr_forecast_parse_child. rewrite Hu. reflexivity.
Qed.

(** A field after the loop, from what each turn does to it. *)
Lemma last_through_loop {S A : Type} (body : xmlNode -> S -> outcome S)
    (field : S -> cell A) (tag : string) (value : xmlNode -> outcome A) :
  (forall child s s1, body child s = Ret s1 ->
     child_sets field tag value child s s1) ->
  forall children s s',
    for_each_child body children s = Ret s' ->
    match last (List.filter (fun child => is_tag child tag) children) with
    | Some child => exists v, value child = Ret v /\ field s' = Stored v
    | None => field s' = field s
    end.
Proof.
  intros Hbody. induction children as [|child children IH]; intros s s' E.
  - cbn in E. injection E as <-. reflexivity.
  - cbn [for_each_child] in E. unfold mbind, outcome_bind in E.
    destruct (body child s) as [s1|f] eqn:Eb; [|discriminate E].
    specialize (IH s1 s' E). specialize (Hbody child s s1 Eb).
    unfold child_sets in Hbody. cbn [List.filter].
    destruct (is_tag child tag).
    + rewrite last_cons.
      destruct (last (List.filter (fun c => is_tag c tag) children)); [exact IH|].
      destruct Hbody as (v & Ev & Es). exists v. split; [exact Ev|].
      rewrite IH. exact Es.
    + destruct (last (List.filter (fun c => is_tag c tag) children)); [exact IH|].
      rewrite IH. exact Hbody.
Qed.

Ltac run_body E :=
  repeat match type of E with
    | context [if is_tag ?c ?t then _ else _] =>
        let T := fresh "T" in destruct (is_tag c t) eqn:T; cbv iota in E
    end;
  unfold mbind, outcome_bind in E;
  repeat match type of E with
    | context [match ?x with Ret _ => _ | Crash _ => _ end] =>
        let V := fresh "V" in destruct x eqn:V; [|discriminate E]
    end;
  unfold mret, outcome_ret in E; injection E as <-.

Ltac settle_goal_tag :=
  match goal with
  | T : is_tag ?c ?t = _ |- context [is_tag ?c ?t] => rewrite T
  | T : is_tag ?c ?a = true |- context [is_tag ?c ?b] =>
      let E := fresh "E" in
      assert (E : is_tag c b = false)
        by (apply (is_tag_other c a b T); vm_compute; discriminate);
      rewrite E
  end.

Ltac settle_child_sets :=
  unfold child_sets; settle_goal_tag;
  first [ reflexivity
        | eexists; split; [first [eassumption | reflexivity] | reflexivity] ].

Lemma day_child_values child day day1 :
  wtr_forecast_parse_day_child child day = Ret day1 ->
  let int := fun c => xmlGetPropInt c "value" in
  child_sets day_weather "symbol" int child day day1 /\
  child_sets temp_min "tempmin" int child day day1 /\
  child_sets temp_max "tempmax" int child day day1 /\
  child_sets day_wind_speed "wind" int child day day1 /\
  child_sets day_rain "rain" (fun c => xmlGetPropDouble c "value") child day day1 /\
  child_sets day_humidity "humidity" int child day day1 /\
  child_sets day_pressure "pressure" int child day day1.
Proof.
  intros E. cbv zeta. unfold wtr_forecast_parse_day_child in E.
  run_body E; repeat split; settle_child_sets.
Qed.

Lemma hour_child_values child hour hour1 :
  wtr_forecast_parse_hour_child child hour = Ret hour1 ->
  let int := fun c => xmlGetPropInt c "value" in
  child_sets hour_weather "symbol" int child hour hour1 /\
  child_sets temp "temp" int child hour hour1 /\
  child_sets hour_wind_speed "wind" int child hour hour1 /\
  child_sets wind_dir "wind" (fun c => Ret (xmlGetProp c "dir")) child hour hour1 /\
  child_sets hour_rain "rain" (fun c => xmlGetPropDouble c "value") child hour hour1 /\
  child_sets hour_humidity "humidity" int child hour hour1 /\
  child_sets hour_pressure "pressure" int child hour hour1.
Proof.
  intros E. cbv zeta. unfold wtr_forecast_parse_hour_child in E.
  run_body E; repeat split; settle_child_sets.
Qed.

Ltac field_from_loop E step :=
  unfold holds, last_child;
  let L := fresh "L" in
  pose proof (last_through_loop _ _ _ _ step _ _ _ E) as L;
  match type of L with
  | match ?l with _ => _ end => destruct l; [exact L | rewrite L; reflexivity]
  end.

(** X18: what the parser keeps of the children of a day and of an
    hour.  Each number holds what the typed accessor reads from the
    [value] of the last child that carries its tag, and was never
    assigned when no child carries it; the wind direction of an hour
    holds the [dir] of the last "wind" child, NULL when that child has
    none or when there is no such child. *)
Theorem fields_hold_the_value_of_the_last_child :
  (forall xmlDay day,
     wtr_forecast_parse_day xmlDay = Ret day ->
     let int := fun c => xmlGetPropInt c "value" in
     holds (day_weather day) (last_child "symbol" xmlDay) int /\
     holds (temp_min day) (last_child "tempmin" xmlDay) int /\
     holds (temp_max day) (last_child "tempmax" xmlDay) int /\
     holds (day_wind_speed day) (last_child "wind" xmlDay) int /\
     holds (day_rain day) (last_child "rain" xmlDay)
       (fun c => xmlGetPropDouble c "value") /\
     holds (day_humidity day) (last_child "humidity" xmlDay) int /\
     holds (day_pressure day) (last_child "pressure" xmlDay) int) /\
  (forall xmlHour day hour,
     wtr_forecast_parse_hour xmlHour day = Ret hour ->
     let int := fun c => xmlGetPropInt c "value" in
     holds (hour_weather hour) (last_child "symbol" xmlHour) int /\
     holds (temp hour) (last_child "temp" xmlHour) int /\
     holds (hour_wind_speed hour) (last_child "wind" xmlHour) int /\
     wind_dir hour =
     Stored (child ← last_child "wind" xmlHour; xmlGetProp child "dir") /\
     holds (hour_rain hour) (last_child "rain" xmlHour)
       (fun c => xmlGetPropDouble c "value") /\
     holds (hour_humidity hour) (last_child "humidity" xmlHour) int /\
     holds (hour_pressure hour) (last_child "pressure" xmlHour) int).
Proof.
  split.
  - intros xmlDay day E. cbv zeta. unfold wtr_forecast_parse_day in E.
    unfold mbind, outcome_bind in E.
    destruct (parseDateTime _ _) as [day_date|]; [|discriminate E].
    repeat split.
    + field_from_loop E (fun c s s1 Eb => proj1 (day_child_values c s s1 Eb)).
    + field_from_loop E
        (fun c s s1 Eb => proj1 (proj2 (day_child_values c s s1 Eb))).
    + field_from_loop E
        (fun c s s1 Eb => proj1 (proj2 (proj2 (day_child_values c s s1 Eb)))).
    + field_from_loop E
        (fun c s s1 Eb =>
           proj1 (proj2 (proj2 (proj2 (day_child_values c s s1 Eb))))).
    + field_from_loop E
        (fun c s s1 Eb =>
           proj1 (proj2 (proj2 (proj2 (proj2 (day_child_values c s s1 Eb)))))).
    + field_from_loop E
        (fun c s s1 Eb =>
           proj1 (proj2 (proj2 (proj2 (proj2 (proj2
             (day_child_values c s s1 Eb))))))).
    + field_from_loop E
        (fun c s s1 Eb =>
           proj2 (proj2 (proj2 (proj2 (proj2 (proj2
             (day_child_values c s s1 Eb))))))).
  - intros xmlHour day hour E. cbv zeta. unfold wtr_forecast_parse_hour in E.
    unfold mbind, outcome_bind in E.
    destruct (parseDateTime _ _) as [only_time|]; [|discriminate E].
    destruct (read (date day)) as [day_date|]; [|discriminate E].
    split; [|split; [|split; [|split; [|split; [|split]]]]].
    + field_from_loop E (fun c s s1 Eb => proj1 (hour_child_values c s s1 Eb)).
    + field_from_loop E
        (fun c s s1 Eb => proj1 (proj2 (hour_child_values c s s1 Eb))).
    + field_from_loop E
        (fun c s s1 Eb => proj1 (proj2 (proj2 (hour_child_values c s s1 Eb)))).
    + pose proof (last_through_loop _ _ _ _
                    (fun c s s1 Eb =>
                       proj1 (proj2 (proj2 (proj2 (hour_child_values c s s1 Eb)))))
                    _ _ _ E) as L.
      unfold last_child.
      destruct (last _) as [child|].
      * destruct L as (v & Ev & ->). injection Ev as <-. reflexivity.
      * rewrite L. reflexivity.
    + field_from_loop E
        (fun c s s1 Eb =>
           proj1 (proj2 (proj2 (proj2 (proj2 (hour_child_values c s s1 Eb)))))).
    + field_from_loop E
        (fun c s s1 Eb =>
           proj1 (proj2 (proj2 (proj2 (proj2 (proj2
             (hour_child_values c s s1 Eb))))))).
    + field_from_loop E
        (fun c s s1 Eb =>
           proj2 (proj2 (proj2 (proj2 (proj2 (proj2
             (hour_child_values c s s1 Eb))))))).
Qed.

End ParserValues.

Lemma unknown_children_are_passed_over_witness :
  wtr_forecast_parse_day (H := StandIn.standin)
    (StandIn.element "day" [("value", "20180308")]
       [StandIn.blank; StandIn.measure "symbol" "4"; XmlNode None [] []]) =
  wtr_forecast_parse_day (H := StandIn.standin)
    (StandIn.element "day" [("value", "20180308")] [StandIn.measure "symbol" "4"]).
Proof.
  unfold StandIn.element.
  rewrite (proj1 (proj2 (unknown_children_are_passed_over (H := StandIn.standin)
                           [] StandIn.blank
                           [StandIn.measure "symbol" "4"; XmlNode None [] []]))
             eq_refl).
  exact (proj1 (proj2 (unknown_children_are_passed_over (H := StandIn.standin)
                         [StandIn.measure "symbol" "4"] (XmlNode None [] []) []))
           eq_refl (Some "day") [("value", "20180308")]).
Defined.

Lemma fields_hold_the_value_of_the_last_child_witness :
  match wtr_forecast_parse_day (H := StandIn.standin)
          (StandIn.element "day" [("value", "20180308")]
             [StandIn.measure "symbol" "4"; StandIn.measure "tempmin" "6";
              StandIn.measure "symbol" "7"]) with
  | Ret day => day_weather day = Stored 7 /\ temp_max day = Indeterminate
  | Crash _ => False
  end.
Proof.
  destruct (wtr_forecast_parse_day (H := StandIn.standin)
              (StandIn.element "day" [("value", "20180308")]
                 [StandIn.measure "symbol" "4"; StandIn.measure "tempmin" "6";
                  StandIn.measure "symbol" "7"])) as [day|f] eqn:E.
  - destruct (proj1 (fields_hold_the_value_of_the_last_child (H := StandIn.standin))
                _ day E) as (Hsym & _ & Hmax & _).
    split; [|exact Hmax].
    destruct Hsym as (v & Ev & ->). vm_compute in Ev. injection Ev as <-.
    reflexivity.
  - apply (f_equal returned) in E. vm_compute in E. discriminate E.
Defined.

Section ParserFaults.
Context `{Externals}.

Lemma forecast_loop_no_day children forecast :
  Forall (fun child => is_tag child "day" = false) children ->
  for_each_child wtr_forecast_parse_child children forecast = Ret forecast.
Proof.
  induction 1 as [|child children Hc _ IH]; [reflexivity|].
  cbn [for_each_child]. cbv beta in Hc.
  assert (Es : wtr_forecast_parse_child child forecast = Ret forecast)
    by (unfold wtr_forecast_parse_child; rewrite Hc; reflexivity).
  rewrite Es. exact IH.
Qed.

(** X19: the [value] of a "day" and of an "hour" element is read
    through [strptime] whether it is there or not: an element without
    it makes its parser read through NULL, and so does
    [wtr_forecast_parse] on a structurally valid document whose first
    "day" element has none. *)
Theorem element_without_value_reads_through_null :
  (forall xmlDay,
     xmlGetProp xmlDay "value" = None ->
     wtr_forecast_parse_day xmlDay = Crash NullDereference) /\
  (forall xmlHour day,
     xmlGetProp xmlHour "value" = None ->
     wtr_forecast_parse_hour xmlHour day = Crash NullDereference) /\
  (forall content length doc before xmlDay after w,
     xmlReadMemory (C.take length content) = Some doc ->
     structurally_valid doc = true ->
     location_children doc = (before ++ xmlDay :: after)%list ->
     Forall (fun child => is_tag child "day" = false) before ->
     is_tag xmlDay "day" = true ->
     xmlGetProp xmlDay "value" = None ->
     wtr_forecast_parse content length w = (Crash NullDereference, w)).
Proof.
  assert (Hday : forall xmlDay, xmlGetProp xmlDay "value" = None ->
            wtr_forecast_parse_day xmlDay = Crash NullDereference).
  { intros xmlDay Hv. unfold wtr_forecast_parse_day. rewrite Hv. reflexivity. }
  split; [exact Hday|]. split.
  - intros xmlHour day Hv. unfold wtr_forecast_parse_hour. rewrite Hv. reflexivity.
  - intros content length doc before xmlDay after w Ed Hvalid El Hb Ht Hv.
    rewrite (wtr_forecast_parse_valid content length doc w Ed Hvalid), El.
    assert (Ec : wtr_forecast_parse_child xmlDay wtr_forecast_init
                 = Crash NullDereference)
      by (unfold wtr_forecast_parse_child; rewrite Ht, (Hday xmlDay Hv);
          reflexivity).
    assert (Eloop : for_each_child wtr_forecast_parse_child
                      (before ++ xmlDay :: after) wtr_forecast_init
                    = Crash NullDereference).
    { rewrite for_each_child_app, (forecast_loop_no_day before _ Hb).
      exact (for_each_child_crash _ xmlDay after _ NullDereference Ec). }
    rewrite Eloop. reflexivity.
Qed.

(** X20: the dates a parsed day carries.  The date of the day is what
    [strptime], [mktime] and glib make of its [value] read as
    "%Y%m%d"; and each of its hours, in the order of the "hour"
    elements, is stamped with the year, the month and the day of that
    date and with the hour and the minute of its own [value] read as
    "%H:%M", the seconds being 0. *)
Theorem hours_are_stamped_with_the_date_of_their_day xmlDay day :
  wtr_forecast_parse_day xmlDay = Ret day ->
  exists value day_hours,
    xmlGetProp xmlDay "value" = Some value /\
    let day_date :=
      g_date_time_new_from_unix_local (mktime (strptime value "%Y%m%d" tm_zero)) in
    date day = Stored day_date /\
    hours day = Stored day_hours /\
    Forall2
      (fun xmlHour hour =>
         exists time,
           xmlGetProp xmlHour "value" = Some time /\
           let only_time :=
             g_date_time_new_from_unix_local
               (mktime (strptime time "%H:%M" tm_zero)) in
           tstamp hour =
           Stored (g_date_time_new_local
                     (g_date_time_get_year day_date)
                     (g_date_time_get_month day_date)
                     (g_date_time_get_day_of_month day_date)
                     (g_date_time_get_hour only_time)
                     (g_date_time_get_minute only_time) 0))
      (hour_elements xmlDay) day_hours.
Proof.
  intros E.
  destruct (wtr_forecast_parse_day_hours xmlDay day E) as (day_hours & Eh & Hh).
  pose proof E as E'. unfold wtr_forecast_parse_day in E'.
  destruct (xmlGetProp xmlDay "value") as [value|] eqn:Ev; [|discriminate E'].
  cbn [parseDateTime] in E'. unfold mbind, outcome_bind in E'.
  destruct (day_loop_shape _ _ _ E') as (Ed & _). cbn in Ed.
  exists value, day_hours. split; [reflexivity|]. cbv zeta.
  split; [exact Ed|]. split; [exact Eh|].
  eapply Forall2_impl; [exact Hh|].
  intros xmlHour hour (d & Edd & Ehour). cbv beta in *.
  unfold wtr_forecast_parse_hour in Ehour.
  destruct (xmlGetProp xmlHour "value") as [time|]; [|discriminate Ehour].
  cbn [parseDateTime] in Ehour. unfold mbind, outcome_bind in Ehour.
  rewrite Edd, Ed in Ehour. cbn [read] in Ehour.
  destruct (hour_loop_keeps _ _ _ Ehour) as (Et & _).
  exists time. split; [reflexivity|]. rewrite Et. reflexivity.
Qed.

(** X21: [wtr_forecast_parse] and stderr.  A call that returns NULL
    has written one line on stderr, one of the three the function
    knows, and nothing else has changed; a call that returns a
    forecast, or that faults, leaves the world as it was.  The line
    for a text that [xmlReadMemory] refuses is "Failed to parse
    document". *)
Theorem parse_tells_stderr_why_it_returns_null content length w :
  let r := wtr_forecast_parse content length w in
  (fst r = Ret None ->
   exists text, In text parse_errors /\ snd r = told (Message text) w) /\
  (fst r <> Ret None -> snd r = w) /\
  (xmlReadMemory (C.take length content) = None ->
   r = (Ret None, told (Message "Failed to parse document") w)).
Proof.
  cbv zeta. rewrite wtr_forecast_parse_unfold. unfold parse_errors.
  destruct (xmlReadMemory (C.take length content)) as [doc|]; cbv zeta.
  - destruct (is_tag (xmlDocGetRootElement doc) "report").
    + destruct (xml_children (xmlDocGetRootElement doc)) as [|location rest].
      * cbn [fst snd]. split; [discriminate|]. split; [reflexivity|discriminate].
      * destruct (is_tag location "location").
        -- cbn [fst snd]. split; [|split; [reflexivity|discriminate]].
           destruct (for_each_child _ _ _); discriminate.
        -- cbn [fst snd]. split; [|split; [intros N; contradiction N; reflexivity|discriminate]].
           intros _. eexists. split; [|reflexivity]. cbn [In]. tauto.
    + cbn [fst snd]. split; [|split; [intros N; contradiction N; reflexivity|discriminate]].
      intros _. eexists. split; [|reflexivity]. cbn [In]. tauto.
  - cbn [fst snd]. split; [|split; [intros N; contradiction N; reflexivity|reflexivity]].
    intros _. eexists. split; [|reflexivity]. cbn [In]. tauto.
Qed.

End ParserFaults.

Lemma element_without_value_reads_through_null_witness :
  wtr_forecast_parse (H := StandIn.standin)
    "<report><location><day/></location></report>" 44
    (StandIn.machine (0, [], 200))
  = (Crash NullDereference, StandIn.machine (0, [], 200)).
Proof.
  eapply (proj2 (proj2 (element_without_value_reads_through_null
                          (H := StandIn.standin)))
            _ _ StandIn.undated_day [] (StandIn.element "day" [] []) []);
    first [reflexivity | constructor].
Defined.

Lemma hours_are_stamped_with_the_date_of_their_day_witness :
  match wtr_forecast_parse_day (H := StandIn.standin)
          (StandIn.day_element "20180308" [StandIn.hour_element "07:30"]) with
  | Ret day =>
      exists hour, hours day = Stored [hour] /\
                   tstamp hour = Stored (Some 201803080730)
  | Crash _ => False
  end.
Proof.
  destruct (wtr_forecast_parse_day (H := StandIn.standin)
              (StandIn.day_element "20180308" [StandIn.hour_element "07:30"]))
    as [day|f] eqn:E.
  - destruct (hours_are_stamped_with_the_date_of_their_day
                (H := StandIn.standin) _ day E)
      as (value & day_hours & Ev & _ & Eh & Hh).
    change (hour_elements
              (StandIn.day_element "20180308" [StandIn.hour_element "07:30"]))
      with [StandIn.hour_element "07:30"] in Hh.
    inversion Hh as [|x hour xs hs (time & Et & Es) Hrest]; subst.
    inversion Hrest; subst.
    exists hour. split; [exact Eh|].
    injection Ev as <-. injection Et as <-. rewrite Es. vm_compute. reflexivity.
  - apply (f_equal returned) in E. vm_compute in E. discriminate E.
Defined.

Lemma parse_tells_stderr_why_it_returns_null_witness :
  wtr_forecast_parse (H := StandIn.standin) "not XML" 7
    (StandIn.machine (0, [], 200))
  = (Ret None,
     told (Message "Failed to parse document") (StandIn.machine (0, [], 200))).
Proof.
  apply (proj2 (proj2 (parse_tells_stderr_why_it_returns_null
                         (H := StandIn.standin) "not XML" 7
                         (StandIn.machine (0, [], 200))))).
  reflexivity.
Defined.

(** ** The orchestrator and its cache *)

Lemma quiet_no_request l : Forall quiet l -> List.filter is_http_get l = [].
Proof.
  induction 1 as [|e l [He _] _ IH]; [reflexivity|].
  cbn [List.filter]. rewrite He. exact IH.
Qed.

Lemma filter_app_list {A : Type} (f : A -> bool) (l k : list A) :
  List.filter f (l ++ k) = (List.filter f l ++ List.filter f k)%list.
Proof. apply List.filter_app. Qed.

Section OrchestratorMore.
Context `{Externals}.


(** X23: an acquisition makes one request, to the URL of the code,
    when the cache has no entry for the code, and none when it has
    one. *)
Theorem acquisition_requests_once_on_a_miss_only code w :
  List.filter is_http_get (happened w (snd (wtr_tiempo_forecast_get code w))) =
  match files w !! cache_file_path w WTR_DRIVER_TIEMPO code with
  | Some _ => []
  | None => [HttpGet (wtr_tiempo_forecast_url code)]
  end.
Proof.
  destruct (files w !! cache_file_path w WTR_DRIVER_TIEMPO code)
    as [cached_xml|] eqn:Hc.
  - destruct (wtr_tiempo_forecast_get_hit code cached_xml w Hc) as (_ & U).
    apply quiet_no_request, untouched_happened, U.
  - pose proof (wtr_tiempo_forecast_get_miss code w Hc) as Hm. cbv zeta in Hm.
    destruct Hm as (made & said & Hmade & Hsaid & Hm).
    destruct Hm as [(_ & _ & _ & ->) | [(_ & _ & _ & _ & ->) |
                    [(_ & _ & _ & _ & _ & ->) | (_ & _ & _ & _ & _ & _ & ->)]]];
      rewrite filter_app_list, (quiet_no_request made Hmade);
      cbn [List.filter is_http_get app];
      rewrite ?filter_app_list, ?(quiet_no_request said Hsaid);
      reflexivity.
Qed.

End OrchestratorMore.


(** ** Printing and freeing a forecast *)

Ltac run_IO :=
  unfold mbind, IO_bind, mret, IO_ret, attempt, printf; cbn beta iota zeta.

Lemma printing_nil p : printing [] p = p.
Proof. destruct p. unfold printing. cbn. rewrite app_nil_r. reflexivity. Qed.

Lemma printing_app rows rows' p :
  printing rows' (printing rows p) = printing (rows ++ rows') p.
Proof. unfold printing. cbn. rewrite app_assoc. reflexivity. Qed.

(** A loop of which each turn prints or faults. *)
Lemma for_each_prints {A B : Type} (body : B -> IO unit) (ok : A -> bool)
    (calls : A -> nat) (f : fault) (xs : list A) (ys : list B) :
  Forall2
    (fun x y => forall p,
       exists rows,
         body y p = (if ok x then Ret tt else Crash f, printing rows p) /\
         (ok x = true -> List.length rows = calls x))
    xs ys ->
  forall p,
    exists rows,
      for_each body ys p =
      (if forallb ok xs then Ret tt else Crash f, printing rows p) /\
      (forallb ok xs = true -> List.length rows = list_sum (map calls xs)).
Proof.
  induction 1 as [|x y xs ys Hxy _ IH]; intros p.
  - exists []. rewrite printing_nil. split; reflexivity.
  - cbn [for_each forallb map list_sum]. run_IO.
    destruct (Hxy p) as (rows & -> & Hn).
    destruct (ok x); cbn [andb].
    + destruct (IH (printing rows p)) as (rows' & -> & Hn').
      exists (rows ++ rows')%list. rewrite printing_app. split; [reflexivity|].
      intros Hok. rewrite length_app, (Hn eq_refl), (Hn' Hok). reflexivity.
    + exists rows. split; [reflexivity | discriminate].
Qed.

Lemma list_sum_ones {A : Type} (l : list A) :
  list_sum (map (fun _ => 1%nat) l) = List.length l.
Proof.
  induction l as [|x l IH]; [reflexivity|].
  change (S (list_sum (map (fun _ => 1%nat) l)) = S (List.length l)).
  rewrite IH. reflexivity.
Qed.

Section PrintingProperties.
Context `{Formatting}.

Lemma measured_cons tag tags n :
  measured (tag :: tags) n = negb (no_child tag n) && measured tags n.
Proof. reflexivity. Qed.

Lemma stored_or_not {A : Type} (c : cell A) (b : bool) :
  (c = Indeterminate <-> b = true) ->
  (negb b = true /\ exists a, c = Stored a) \/ (negb b = false /\ c = Indeterminate).
Proof.
  intros Hc. destruct b.
  - right. split; [reflexivity|]. apply Hc. reflexivity.
  - left. split; [reflexivity|]. destruct c as [|a]; [|exists a; reflexivity].
    destruct Hc as [Hc _]. discriminate (Hc eq_refl).
Qed.

(** A parsed day prints as one line when it has the five measurements
    of the table, and makes the printer read an unassigned field when
    it has not. *)
Lemma wtr_forecast_print_day_parsed xmlDay day :
  wtr_forecast_parse_day xmlDay = Ret day ->
  forall p,
    exists rows,
      wtr_forecast_print_day day p =
      (if measured day_print_tags xmlDay then Ret tt else Crash IndeterminateRead,
       printing rows p) /\
      (measured day_print_tags xmlDay = true -> List.length rows = 1%nat).
Proof.
  intros E p.
  destruct (wtr_forecast_parse_day_fields xmlDay day E)
    as ((d & Hd) & _ & Hsym & Hmin & Hmax & Hwind & _ & Hhum & _).
  unfold day_print_tags. rewrite !measured_cons.
  unfold wtr_forecast_print_day. run_IO. rewrite Hd. cbn [read].
  apply stored_or_not in Hsym, Hmin, Hmax, Hwind, Hhum.
  destruct Hmin as [(-> & a & ->) | (-> & ->)];
    [|exists []; rewrite printing_nil, ?andb_false_r; cbn; split;
      [reflexivity | discriminate]].
  destruct Hmax as [(-> & b & ->) | (-> & ->)];
    [|exists []; rewrite printing_nil, ?andb_false_r; cbn; split;
      [reflexivity | discriminate]].
  destruct Hhum as [(-> & c & ->) | (-> & ->)];
    [|exists []; rewrite printing_nil, ?andb_false_r; cbn; split;
      [reflexivity | discriminate]].
  destruct Hwind as [(-> & e & ->) | (-> & ->)];
    [|exists []; rewrite printing_nil, ?andb_false_r; cbn; split;
      [reflexivity | discriminate]].
  destruct Hsym as [(-> & g & ->) | (-> & ->)];
    [|exists []; rewrite printing_nil; cbn; split;
      [reflexivity | discriminate]].
  cbn. eexists [_]. split; reflexivity.
Qed.

Lemma wtr_forecast_print_hour_parsed xmlHour day hour :
  wtr_forecast_parse_hour xmlHour day = Ret hour ->
  forall p,
    exists rows,
      wtr_forecast_print_hour hour p =
      (if measured hour_print_tags xmlHour then Ret tt else Crash IndeterminateRead,
       printing rows p) /\
      (measured hour_print_tags xmlHour = true -> List.length rows = 1%nat).
Proof.
  intros E p.
  destruct (wtr_forecast_parse_hour_fields xmlHour day hour E)
    as ((t & Ht) & _ & Hsym & Htemp & _).
  unfold hour_print_tags. rewrite !measured_cons.
  unfold wtr_forecast_print_hour. run_IO. rewrite Ht. cbn [read].
  apply stored_or_not in Hsym, Htemp.
  destruct Htemp as [(-> & a & ->) | (-> & ->)];
    [|exists []; rewrite printing_nil, ?andb_false_r; cbn; split;
      [reflexivity | discriminate]].
  destruct Hsym as [(-> & g & ->) | (-> & ->)];
    [|exists []; rewrite printing_nil; cbn; split;
      [reflexivity | discriminate]].
  cbn. eexists [_]. split; reflexivity.
Qed.

Lemma wtr_forecast_print_details_parsed xmlDay day :
  wtr_forecast_parse_day xmlDay = Ret day ->
  forall p,
    exists rows,
      wtr_forecast_print_details day p =
      (if forallb (measured hour_print_tags) (hour_elements xmlDay)
       then Ret tt else Crash IndeterminateRead,
       printing rows p) /\
      (forallb (measured hour_print_tags) (hour_elements xmlDay) = true ->
       List.length rows = (3 + List.length (hour_elements xmlDay))%nat).
Proof.
  intros E p.
  destruct (wtr_forecast_parse_day_fields xmlDay day E) as ((d & Hd) & _).
  destruct (wtr_forecast_parse_day_hours xmlDay day E) as (day_hours & Eh & Hh).
  unfold wtr_forecast_print_details. run_IO. rewrite Hd, Eh. cbn [read].
  set (p3 := {| host := _; stdout := _ |}).
  destruct (for_each_prints wtr_forecast_print_hour (measured hour_print_tags)
              (fun _ => 1%nat) IndeterminateRead (hour_elements xmlDay) day_hours)
    with (p := p3) as (rows & -> & Hn).
  { eapply Forall2_impl; [exact Hh|].
    intros xmlHour hour (d0 & _ & Ehour).
    apply (wtr_forecast_print_hour_parsed xmlHour d0 hour Ehour). }
  eexists (_ :: _ :: _ :: rows). split.
  - unfold p3, printing. cbn [host stdout].
    rewrite <- !app_assoc. reflexivity.
  - intros Hok. cbn [List.length]. rewrite (Hn Hok), list_sum_ones. reflexivity.
Qed.

(** The days of a forecast being the parses of the "day" elements of a
    document, what [wtr_forecast_print] does with the forecast. *)
Lemma wtr_forecast_print_days doc forecast details p :
  Forall2 (fun xmlDay day => wtr_forecast_parse_day xmlDay = Ret day)
    (day_elements doc) (days forecast) ->
  exists rows,
    wtr_forecast_print (Some forecast) details p =
    (if printable details doc then Ret tt else Crash IndeterminateRead,
     printing rows p) /\
    (printable details doc = true ->
     List.length rows = printed_calls details doc).
Proof.
  intros Hd.
  unfold wtr_forecast_print, printable, printed_calls. run_IO.
  set (p2 := {| host := _; stdout := _ |}).
  destruct (for_each_prints wtr_forecast_print_day (measured day_print_tags)
              (fun _ => 1%nat) IndeterminateRead (day_elements doc) (days forecast))
    with (p := p2) as (rows & -> & Hn).
  { eapply Forall2_impl; [exact Hd|].
    intros xmlDay day Eday. apply (wtr_forecast_print_day_parsed _ _ Eday). }
  pose proof (list_sum_ones (day_elements doc)) as Hone.
  destruct (forallb (measured day_print_tags) (day_elements doc)); cbn [andb].
  - destruct details.
    + destruct (for_each_prints wtr_forecast_print_details
                  (fun xmlDay => forallb (measured hour_print_tags) (hour_elements xmlDay))
                  (fun xmlDay => (3 + List.length (hour_elements xmlDay))%nat)
                  IndeterminateRead (day_elements doc) (days forecast))
        with (p := printing rows p2) as (rows' & -> & Hn').
      { eapply Forall2_impl; [exact Hd|].
        intros xmlDay day Eday.
        apply (wtr_forecast_print_details_parsed _ _ Eday). }
      eexists (_ :: _ :: rows ++ rows')%list. split.
      * unfold p2, printing. cbn [host stdout].
        rewrite <- !app_assoc. reflexivity.
      * intros Hok. cbn [List.length]. rewrite length_app, (Hn eq_refl), (Hn' Hok), Hone.
        lia.
    + eexists (_ :: _ :: rows)%list. split.
      * unfold p2, printing. cbn [host stdout].
        rewrite <- !app_assoc. reflexivity.
      * intros _. cbn [List.length]. rewrite (Hn eq_refl), Hone. lia.
  - eexists (_ :: _ :: rows)%list. split; [|discriminate].
    unfold p2, printing. cbn [host stdout].
    rewrite <- !app_assoc. reflexivity.
Qed.

(** The days of a forecast that [wtr_forecast_parse] returned. *)
Lemma parsed_days content length doc w forecast w' :
  xmlReadMemory (C.take length content) = Some doc ->
  structurally_valid doc = true ->
  wtr_forecast_parse content length w = (Ret (Some forecast), w') ->
  Forall2 (fun xmlDay day => wtr_forecast_parse_day xmlDay = Ret day)
    (day_elements doc) (days forecast).
Proof.
  intros Ed Hvalid E.
  destruct (wtr_forecast_parse_days content length doc w Ed Hvalid) as (Hdays & _).
  destruct (Hdays forecast w' E) as (_ & Hd).
  eapply Forall2_impl; [exact Hd|]. intros xmlDay day (Eday & _). exact Eday.
Qed.

(** X24: printing the forecast of a document.  When every "day"
    element has a child of each of the five tags of the table (symbol,
    tempmin, tempmax, wind, humidity) and, with the hourly details,
    every "hour" element a symbol and a temp, [wtr_forecast_print]
    prints its two lines of heading, a line for each day and, with the
    details, three lines and a line for each hour of each day, and
    returns.  When one of them is missing, the printer reads a field
    that was never assigned.  Rain and pressure are not read. *)
Theorem forecast_prints_when_measurements_are_there
    content length doc w forecast w' details p :
  xmlReadMemory (C.take length content) = Some doc ->
  structurally_valid doc = true ->
  wtr_forecast_parse content length w = (Ret (Some forecast), w') ->
  (printable details doc = true ->
   exists rows,
     wtr_forecast_print (Some forecast) details p = (Ret tt, printing rows p) /\
     List.length rows = printed_calls details doc) /\
  (printable details doc = false ->
   fst (wtr_forecast_print (Some forecast) details p) = Crash IndeterminateRead).
Proof.
  intros Ed Hvalid E.
  assert (Hrun : exists rows,
            wtr_forecast_print (Some forecast) details p =
            (if printable details doc then Ret tt else Crash IndeterminateRead,
             printing rows p) /\
            (printable details doc = true ->
             List.length rows = printed_calls details doc)).
  { apply wtr_forecast_print_days.
    exact (parsed_days content length doc w forecast w' Ed Hvalid E). }
  destruct Hrun as (rows & Ep & Hn).
  split; intros Hp; rewrite Hp in Ep.
  - exists rows. split; [exact Ep | exact (Hn Hp)].
  - rewrite Ep. reflexivity.
Qed.

End PrintingProperties.

Lemma forecast_prints_when_measurements_are_there_witness :
  match wtr_forecast_parse (H := StandIn.standin)
          "<report>five days</report>" 26 (StandIn.machine (0, [], 200)) with
  | (Ret (Some forecast), _) =>
      exists rows,
        wtr_forecast_print (H0 := StandInMore.formatting) (Some forecast) true
          (StandInMore.started (StandIn.machine (0, [], 200)))
        = (Ret tt, printing rows (StandInMore.started (StandIn.machine (0, [], 200)))) /\
        List.length rows = 38%nat
  | _ => False
  end /\
  match wtr_forecast_parse (H := StandInMore.extended)
          "<report>a bare day</report>" 27 (StandIn.machine (0, [], 200)) with
  | (Ret (Some forecast), _) =>
      fst (wtr_forecast_print (H0 := StandInMore.extended_formatting)
             (Some forecast) false
             (StandInMore.started (StandIn.machine (0, [], 200))))
      = Crash IndeterminateRead
  | _ => False
  end.
Proof.
  split.
  - destruct (proj2 (wtr_forecast_parse_days (H := StandIn.standin)
                       "<report>five days</report>" 26 StandIn.five_days
                       (StandIn.machine (0, [], 200)) eq_refl eq_refl))
      as [forecast E]; [vm_compute; reflexivity|].
    rewrite E.
    destruct (proj1 (forecast_prints_when_measurements_are_there
                       (H0 := StandInMore.formatting)
                       "<report>five days</report>" 26 StandIn.five_days
                       (StandIn.machine (0, [], 200)) forecast
                       (StandIn.machine (0, [], 200)) true
                       (StandInMore.started (StandIn.machine (0, [], 200)))
                       eq_refl eq_refl E)) as (rows & Ep & Hn);
      [vm_compute; reflexivity|].
    exists rows. split; [exact Ep|]. rewrite Hn. vm_compute. reflexivity.
  - destruct (proj2 (wtr_forecast_parse_days (H := StandInMore.extended)
                       "<report>a bare day</report>" 27 StandInMore.bare_day
                       (StandIn.machine (0, [], 200)) eq_refl eq_refl))
      as [forecast E]; [vm_compute; reflexivity|].
    rewrite E.
    apply (proj2 (forecast_prints_when_measurements_are_there
                    (H0 := StandInMore.extended_formatting)
                    "<report>a bare day</report>" 27 StandInMore.bare_day
                    (StandIn.machine (0, [], 200)) forecast
                    (StandIn.machine (0, [], 200)) false
                    (StandInMore.started (StandIn.machine (0, [], 200)))
                    eq_refl eq_refl E)).
    vm_compute. reflexivity.
Defined.

Section FreeingProperties.
Context `{Externals}.

Lemma free_each_returns {A : Type} (body : A -> outcome unit) (l : list A) :
  Forall (fun data => body data = Ret tt) l -> free_each body l = Ret tt.
Proof.
  induction 1 as [|data l Hd _ IH]; [reflexivity|].
  cbn [free_each]. rewrite Hd. exact IH.
Qed.

Lemma wtr_forecast_free_days doc forecast :
  Forall2 (fun xmlDay day => wtr_forecast_parse_day xmlDay = Ret day)
    (day_elements doc) (days forecast) ->
  wtr_forecast_free (Some forecast) = Ret tt.
Proof.
  intros Hd. cbn [wtr_forecast_free]. apply free_each_returns.
  eapply Forall2_Forall_r; [exact Hd|]. apply Forall_forall.
  intros xmlDay _ day Eday.
  destruct (wtr_forecast_parse_day_hours xmlDay day Eday) as (day_hours & Eh & Hh).
  destruct (wtr_forecast_parse_day_fields xmlDay day Eday) as ((d & Hdate) & _).
  unfold wtr_forecast_free_day. rewrite Eh, Hdate. cbn [read].
  unfold mbind, outcome_bind.
  rewrite free_each_returns; [reflexivity|].
  eapply Forall2_Forall_r; [exact Hh|]. apply Forall_forall.
  intros xmlHour _ hour (d0 & _ & Ehour).
  destruct (wtr_forecast_parse_hour_fields xmlHour d0 hour Ehour)
    as ((t & Ht) & (dir & Hdir) & _).
  unfold wtr_forecast_free_hour. rewrite Ht, Hdir. reflexivity.
Qed.

(** X25: a forecast that [wtr_forecast_parse] returned can be freed:
    [wtr_forecast_free] follows the pointers of the dates, of the lists
    of hours, of the time stamps and of the wind directions, which the
    parser assigns in every day and every hour it returns. *)
Theorem parsed_forecast_can_be_freed content length doc w forecast w' :
  xmlReadMemory (C.take length content) = Some doc ->
  structurally_valid doc = true ->
  wtr_forecast_parse content length w = (Ret (Some forecast), w') ->
  wtr_forecast_free (Some forecast) = Ret tt.
Proof.
  intros Ed Hvalid E. apply (wtr_forecast_free_days doc).
  exact (parsed_days content length doc w forecast w' Ed Hvalid E).
Qed.

End FreeingProperties.

Lemma parsed_forecast_can_be_freed_witness :
  match wtr_forecast_parse (H := StandIn.standin)
          "<report>five days</report>" 26 (StandIn.machine (0, [], 200)) with
  | (Ret forecast, _) => wtr_forecast_free forecast = Ret tt
  | _ => False
  end.
Proof.
  destruct (proj2 (wtr_forecast_parse_days (H := StandIn.standin)
                     "<report>five days</report>" 26 StandIn.five_days
                     (StandIn.machine (0, [], 200)) eq_refl eq_refl))
    as [forecast E]; [vm_compute; reflexivity|].
  rewrite E.
  exact (parsed_forecast_can_be_freed (H := StandIn.standin)
           "<report>five days</report>" 26 StandIn.five_days
           (StandIn.machine (0, [], 200)) forecast
           (StandIn.machine (0, [], 200)) eq_refl eq_refl E).
Defined.

(** ** wtrc.c: the two commands *)

Lemma strup_digits q : all_digits (C.cstr q) = true -> C.g_utf8_strup q = C.cstr q.
Proof.
  induction q as [|c q IH]; [reflexivity|]. rewrite strup_unfold. cbn [C.cstr].
  destruct (Ascii.eqb c C.NUL); [reflexivity|]. cbn [all_digits].
  intros Hd. apply andb_true_iff in Hd as [Hc Hd].
  rewrite upper_at_ascii by (apply isdigit_code in Hc; lia).
  rewrite (IH Hd). f_equal. apply (toupper_digit c c Hc). reflexivity.
Qed.

(** A query that is a name of the table up to case is no number. *)
Lemma registry_name_is_no_number l query :
  In l WTR_LOCATIONS -> caseless_eq query (name l) -> is_number query = false.
Proof.
  intros Hl Hq. unfold caseless_eq in Hq.
  rewrite (registry_names_upper l Hl) in Hq.
  unfold is_number. destruct (all_digits (C.cstr query)) eqn:Hd; [|reflexivity].
  rewrite (strup_digits query Hd) in Hq. rewrite Hq in Hd.
  rewrite <- Hd. clear Hq Hd.
  unfold WTR_LOCATIONS in Hl. cbn [In] in Hl.
  repeat (destruct Hl as [<- | Hl]; [reflexivity|]). contradiction.
Qed.

Section WtrcProperties.
Context `{Formatting}.

(** [get_forecasts] by the search it makes. *)
Lemma get_forecasts_by_search opt_hour query p :
  get_forecasts opt_hour query p =
  match wtr_location_search query (search_type_of query) with
  | [] =>
      (Ret tt,
       printing [Printf "Location with %s '%s' not found.\n"
                   [StringArg (Some (if is_number query then "code" else "name"));
                    StringArg (Some query)]] p)
  | location :: _ =>
      (g_print "Weather forecasts for %s (%s)\n\n"
         [StringArg (Some (name location)); StringArg (Some (province location))];;
       forecast ← in_world (wtr_tiempo_forecast_get (code location));
       wtr_forecast_print forecast opt_hour;;
       attempt (wtr_forecast_free forecast)) p
  end.
Proof.
  unfold get_forecasts, search_type_of.
  destruct (is_number query); cbn beta iota zeta;
    destruct (wtr_location_search query _); reflexivity.
Qed.

(** X26: [get_forecasts] takes a location by its code or by its name.
    For each entry of the table, the query that is its code and every
    query that is its name up to the case of the letters do one and the
    same thing; and a query that the search does not find prints that
    the location was not found, with "code" for a query of digits only
    and "name" for any other, and does nothing else. *)
Theorem get_forecasts_takes_a_code_or_a_name opt_hour p :
  (forall l query,
     In l WTR_LOCATIONS -> caseless_eq query (name l) ->
     get_forecasts opt_hour query p = get_forecasts opt_hour (code l) p) /\
  (forall query,
     wtr_location_search query (search_type_of query) = [] ->
     get_forecasts opt_hour query p =
     (Ret tt,
      printing [Printf "Location with %s '%s' not found.\n"
                  [StringArg (Some (if is_number query then "code" else "name"));
                   StringArg (Some query)]] p)).
Proof.
  split.
  - intros l query Hl Hq. rewrite !get_forecasts_by_search.
    assert (Hname : wtr_location_search query (search_type_of query) = [l]).
    { unfold search_type_of. rewrite (registry_name_is_no_number l query Hl Hq).
      unfold wtr_location_search. rewrite Hq, (registry_names_upper l Hl).
      unfold WTR_LOCATIONS in Hl. cbn [In] in Hl.
      repeat (destruct Hl as [<- | Hl]; [reflexivity|]). contradiction. }
    assert (Hcode : wtr_location_search (code l) (search_type_of (code l)) = [l]).
    { unfold WTR_LOCATIONS in Hl. cbn [In] in Hl.
      repeat (destruct Hl as [<- | Hl]; [reflexivity|]). contradiction. }
    rewrite Hname, Hcode. reflexivity.
  - intros query Hs. rewrite get_forecasts_by_search, Hs. reflexivity.
Qed.

(** X27: [get_forecasts] does not look at what the acquisition
    returns.  When the location is found and the acquisition returns
    NULL (the transfer failed, the status was not 200, the body did
    not parse), the title and the two lines of the heading of the table
    are printed and [wtr_forecast_print] reads through the NULL
    pointer. *)
Theorem get_forecasts_prints_a_null_forecast opt_hour query location rest p :
  wtr_location_search query (search_type_of query) = location :: rest ->
  fst (wtr_tiempo_forecast_get (code location) (host p)) = Ret None ->
  get_forecasts opt_hour query p =
  (Crash NullDereference,
   {| host := snd (wtr_tiempo_forecast_get (code location) (host p));
      stdout :=
        stdout p ++
        [Printf "Weather forecasts for %s (%s)\n\n"
           [StringArg (Some (name location)); StringArg (Some (province location))];
         Printf "Date   Min (°) Max (°) Humidity (%%) Wind(km/h) Weather\n" [];
         Printf "----   ------- ------- ------------ ---------- -------\n" []] |}).
Proof.
  intros Hs Hnull. rewrite get_forecasts_by_search, Hs.
  unfold g_print, in_world, wtr_forecast_print. run_IO. cbn [host stdout].
  destruct (wtr_tiempo_forecast_get (code location) (host p)) as [r w1].
  cbn [fst snd] in *. subst r. cbn [host stdout].
  rewrite <- !app_assoc. reflexivity.
Qed.

End WtrcProperties.

Lemma get_forecasts_takes_a_code_or_a_name_witness :
  get_forecasts (H0 := StandInMore.formatting) false "Orvieto"
    (StandInMore.started (StandIn.machine (7, [], 0)))
  = get_forecasts (H0 := StandInMore.formatting) false "30625"
      (StandInMore.started (StandIn.machine (7, [], 0))).
Proof.
  apply (proj1 (get_forecasts_takes_a_code_or_a_name
                  (H0 := StandInMore.formatting) false
                  (StandInMore.started (StandIn.machine (7, [], 0))))
           {| name := "ORVIETO"; province := "TR";
              latitude := b64 6012110609265738 (-47);
              longitude := b64 6816643160553416 (-49);
              code := "30625" |}).
  - right. right. left. reflexivity.
  - reflexivity.
Defined.

Lemma get_forecasts_prints_a_null_forecast_witness :
  fst (get_forecasts (H0 := StandInMore.formatting) true "terni"
         (StandInMore.started (StandIn.machine (0, ["Not Found"], 404))))
  = Crash NullDereference.
Proof.
  erewrite (get_forecasts_prints_a_null_forecast (H0 := StandInMore.formatting)
              true "terni").
  - reflexivity.
  - reflexivity.
  - apply returned_null_eq. vm_compute. reflexivity.
Defined.

Lemma search_location_loop_run results : forall count p,
  exists rows,
    search_location_loop results count p =
    (Ret (count + Z.of_nat (List.length results)), printing rows p) /\
    List.length rows = (4 * List.length results)%nat.
Proof.
  induction results as [|location results IH]; intros count p.
  - exists []. rewrite printing_nil. cbn. rewrite Z.add_0_r. split; reflexivity.
  - cbn [search_location_loop]. unfold wtr_location_print. run_IO.
    set (p4 := {| host := _; stdout := _ |}).
    destruct (IH (count + 1) p4) as (rows & -> & Hn).
    eexists (_ :: _ :: _ :: _ :: rows). split.
    + unfold p4, printing. cbn [host stdout]. rewrite <- !app_assoc.
      f_equal. f_equal. cbn [List.length]. lia.
    + cbn [List.length]. rewrite Hn. lia.
Qed.

Lemma filter_length_le {A : Type} (f : A -> bool) (l : list A) :
  (List.length (List.filter f l) <= List.length l)%nat.
Proof.
  induction l as [|x l IH]; [reflexivity|].
  cbn [List.filter]. destruct (f x); cbn [List.length]; lia.
Qed.

(** X28: [search_location] prints four lines for each location the
    partial search by name finds, and then the summary with their
    number, "locations" unless the number is 1, and the 5 locations of
    the table; it returns whatever the query, and touches nothing but
    stdout. *)
Theorem search_location_counts_what_it_prints query p :
  let results := wtr_location_search query WTR_SEARCH_LOCATION_PARTIAL_NAME in
  let count := Z.of_nat (List.length results) in
  exists rows,
    search_location query p =
    (Ret tt,
     printing
       (rows ++
        [Printf "%d location%s found (%d locations available).\n\n"
           [IntArg count; StringArg (Some (if count =? 1 then "" else "s"));
            IntArg 5]]) p) /\
    List.length rows = (4 * List.length results)%nat /\
    0 <= count <= 5.
Proof.
  cbv zeta. unfold search_location. run_IO.
  destruct (search_location_loop_run
              (wtr_location_search query WTR_SEARCH_LOCATION_PARTIAL_NAME) 0 p)
    as (rows & -> & Hn).
  exists rows. unfold g_print, printf, printing. cbn [host stdout].
  rewrite Z.add_0_l, <- app_assoc. split; [|split; [exact Hn|]].
  - destruct (Z.of_nat _ =? 1); reflexivity.
  - rewrite wtr_location_search_filter.
    pose proof (filter_length_le
                  (wtr_location_matches (C.g_utf8_strup query)
                     WTR_SEARCH_LOCATION_PARTIAL_NAME) WTR_LOCATIONS) as Hle.
    change (List.length WTR_LOCATIONS) with 5%nat in Hle. lia.
Qed.

Section MainProperties.
Context `{Formatting}.

(** X29: the exit status of [main].  It is [EXIT_FAILURE] for a
    command line that did not parse or asks for nothing, and for no
    other reason: when libcurl does not initialise, [main] writes a
    line on stderr, runs neither command and returns [EXIT_SUCCESS];
    and a search, which is run when both a search and a location are
    asked for, returns [EXIT_SUCCESS] whatever it finds. *)
Theorem main_fails_for_bad_usage_only arguments curl_global_init p :
  (forall status p',
     main arguments curl_global_init p = (Ret status, p') ->
     status = EXIT_FAILURE <-> bad_usage arguments) /\
  (bad_usage arguments -> fst (main arguments curl_global_init p) = Ret EXIT_FAILURE) /\
  (~ bad_usage arguments -> curl_global_init <> 0 ->
   main arguments curl_global_init p =
   (Ret EXIT_SUCCESS, warned "ERR: libcurl initialization failed" p)) /\
  (forall query opt_location opt_hour,
     arguments = Options (Some query) opt_location opt_hour ->
     curl_global_init = 0 ->
     main arguments curl_global_init p =
     (Ret EXIT_SUCCESS, snd (search_location query p))).
Proof.
  assert (Hsearch : forall query, exists p', search_location query p = (Ret tt, p')).
  { intros query. unfold search_location. run_IO.
    destruct (search_location_loop_run
                (wtr_location_search query WTR_SEARCH_LOCATION_PARTIAL_NAME) 0 p)
      as (rows & -> & _).
    eexists. reflexivity. }
  split; [|split; [|split]].
  - intros status p'. destruct arguments as [message|[query|] [location|] opt_hour];
      unfold main, in_world, g_printerr, emit; run_IO; cbn [bad_usage];
      try (intros E; injection E as <- _; split; [discriminate|contradiction]);
      try (intros E; injection E as <- _; split; [intros _; exact I|reflexivity]).
    + destruct (curl_global_init =? 0).
      * destruct (Hsearch query) as (p1 & ->).
        intros E; injection E as <- _; split; [discriminate|contradiction].
      * cbn. intros E; injection E as <- _; split; [discriminate|contradiction].
    + destruct (curl_global_init =? 0).
      * destruct (Hsearch query) as (p1 & ->).
        intros E; injection E as <- _; split; [discriminate|contradiction].
      * cbn. intros E; injection E as <- _; split; [discriminate|contradiction].
    + destruct (curl_global_init =? 0).
      * destruct (get_forecasts opt_hour location p) as [[[]|f] p1];
          intros E; [|discriminate E].
        injection E as <- _; split; [discriminate|contradiction].
      * cbn. intros E; injection E as <- _; split; [discriminate|contradiction].
  - destruct arguments as [message|[query|] [location|] opt_hour];
      cbn [bad_usage]; intros Hb; try contradiction; reflexivity.
  - intros Hb Hc. apply Z.eqb_neq in Hc.
    destruct arguments as [message|[query|] [location|] opt_hour];
      cbn [bad_usage] in Hb; try (contradiction Hb; exact I);
      unfold main, in_world, g_printerr, emit, warned, told; run_IO;
      rewrite Hc; reflexivity.
  - intros query opt_location opt_hour -> ->. unfold main.
    destruct opt_location; run_IO; change (0 =? 0) with true; cbv iota;
      destruct (Hsearch query) as (p1 & ->); reflexivity.
Qed.

End MainProperties.

Lemma main_fails_for_bad_usage_only_witness :
  main (H0 := StandInMore.formatting) (Options None (Some "30625") false) 6
    (StandInMore.started (StandIn.machine (0, [], 200)))
  = (Ret EXIT_SUCCESS,
     warned "ERR: libcurl initialization failed"
       (StandInMore.started (StandIn.machine (0, [], 200)))).
Proof.
  apply (proj1 (proj2 (proj2 (main_fails_for_bad_usage_only
                                (H0 := StandInMore.formatting)
                                (Options None (Some "30625") false) 6
                                (StandInMore.started (StandIn.machine (0, [], 200))))))).
  - intros Hb. exact Hb.
  - discriminate.
Defined.

Section EndToEnd.
Context `{Formatting}.

(** X30: from the response of the provider to the screen.  When the
    location is found, the cache has no entry for it and the transfer
    succeeds with status 200 and a body that reads as a structurally
    valid document with every attribute the parser reads in place,
    [get_forecasts] prints the title and the forecast of that document
    and frees it; the table needs the measurements it shows, as
    [wtr_forecast_print] does. *)
Theorem get_forecasts_shows_the_forecast_of_the_response
    opt_hour query location rest p doc :
  wtr_location_search query (search_type_of query) = location :: rest ->
  let w := host p in
  fst (wtr_cache_get WTR_DRIVER_TIEMPO (code location) w) = Ret None ->
  let data := response w (wtr_tiempo_forecast_url (code location)) in
  curl_code data = 0 -> http_code data = 200 ->
  xmlReadMemory (C.take (len data) (buffer data)) = Some doc ->
  structurally_valid doc = true -> values_present doc = true ->
  exists rows,
    get_forecasts opt_hour query p =
    (if printable opt_hour doc then Ret tt else Crash IndeterminateRead,
     {| host := snd (wtr_tiempo_forecast_get (code location) w);
        stdout :=
          stdout p ++
          Printf "Weather forecasts for %s (%s)\n\n"
            [StringArg (Some (name location)); StringArg (Some (province location))]
          :: rows |}) /\
    (printable opt_hour doc = true ->
     List.length rows = printed_calls opt_hour doc).
Proof.
  intros Hs w Hmiss data Hcurl Hhttp Ed Hvalid Hpresent. subst w data.
  set (w := host p) in *.
  set (data := response w (wtr_tiempo_forecast_url (code location))) in *.
  rewrite wtr_cache_get_exact in Hmiss. cbn [fst] in Hmiss.
  injection Hmiss as Hmiss.
  destruct (wtr_forecast_parse_days (buffer data) (len data) doc w Ed Hvalid)
    as (_ & Hsome).
  destruct (Hsome Hpresent) as (forecast & Eparse). clear Hsome.
  pose proof (parsed_days _ _ _ _ _ _ Ed Hvalid Eparse) as Hdays.
  assert (Eget : fst (wtr_tiempo_forecast_get (code location) w)
                 = Ret (Some forecast)).
  { pose proof (wtr_tiempo_forecast_get_miss (code location) w Hmiss) as Hm.
    cbv zeta in Hm. fold data in Hm.
    destruct Hm as (made & said & _ & _ & Hm).
    destruct Hm as [(N & _) | [(_ & N & _) | [(_ & _ & N & E & _) | Hm]]].
    - contradiction.
    - contradiction.
    - specialize (E w). rewrite Eparse in E. cbn [fst] in E.
      contradiction (N forecast). symmetry. exact E.
    - destruct Hm as (_ & _ & forecast' & Ef & Hparse & _).
      specialize (Hparse w). rewrite Eparse in Hparse. cbn [fst] in Hparse.
      rewrite Ef. symmetry. exact Hparse. }
  rewrite get_forecasts_by_search, Hs.
  unfold g_print, in_world. run_IO. cbn [host stdout]. fold w.
  destruct (wtr_tiempo_forecast_get (code location) w) as [r w1].
  cbn [fst snd] in *. subst r.
  set (p1 := {| host := w1; stdout := _ |}).
  destruct (wtr_forecast_print_days doc forecast opt_hour p1 Hdays)
    as (rows & -> & Hn).
  exists rows. split; [|exact Hn].
  destruct (printable opt_hour doc).
  - rewrite (wtr_forecast_free_days doc forecast Hdays).
    unfold p1, printing. cbn [host stdout]. rewrite <- app_assoc. reflexivity.
  - unfold p1, printing. cbn [host stdout]. rewrite <- app_assoc. reflexivity.
Qed.

End EndToEnd.

Lemma get_forecasts_shows_the_forecast_of_the_response_witness :
  exists p',
    get_forecasts (H0 := StandInMore.formatting) true "orvieto"
      (StandInMore.started
         (StandIn.machine (0, ["<report>five "; "days</report>"], 200)))
    = (Ret tt, p') /\
    List.length (stdout p') = 39%nat.
Proof.
  destruct (get_forecasts_shows_the_forecast_of_the_response
              (H0 := StandInMore.formatting) true "orvieto"
              {| name := "ORVIETO"; province := "TR";
                 latitude := b64 6012110609265738 (-47);
                 longitude := b64 6816643160553416 (-49);
                 code := "30625" |} []
              (StandInMore.started
                 (StandIn.machine (0, ["<report>five "; "days</report>"], 200)))
              StandIn.five_days)
    as (rows & E & Hn); try reflexivity.
  assert (Hp : printable true StandIn.five_days = true) by (vm_compute; reflexivity).
  rewrite Hp in E. eexists. split; [exact E|].
  cbn [stdout StandInMore.started app List.length]. rewrite (Hn Hp).
  vm_compute. reflexivity.
Defined.
